(** * isucondition: caches, write buffer, trend snapshot and severity classifier

    A shallow embedding of the in-memory caching and write-buffering core of
    [go/main.go], together with the properties of its specification.

    Conventions of the embedding:
    - Go strings are byte strings: [string] (one [ascii] per byte).
    - A Go function that can panic returns an [outcome].
    - A Go method returning [(T, error)] returns a [result T];
      [calculateConditionLevel] keeps the pair it returns.
    - The caches hold pointers that their callers only read, so an entry is
      modelled by the value it points to.
    - Methods of the process-wide singletons ([isuCache], [userCache],
      [isuConditionCache], [insertQueue], [trendCache], [db]) are state
      transformers over one [World]; every method holds its object's lock for
      its whole body, so one call is one atomic transition. *)

From stdpp Require Import gmap strings list fin_maps sorting.
From Stdlib Require Import ZArith Ascii String Permutation Sorted.

Local Open Scope string_scope.
Local Open Scope list_scope.

(** ** Go strings *)

Module GoString.

(** A run-time panic carries its message; any other run returns a value. *)
Inductive outcome (A : Type) : Type :=
| Ret (a : A)
| Panic (msg : string).
Arguments Ret {A} a.
Arguments Panic {A} msg.

Definition bind {A B} (m : outcome A) (k : A -> outcome B) : outcome B :=
  match m with
  | Ret a => k a
  | Panic msg => Panic msg
  end.

(** [len(s)] *)
Definition len (s : string) : nat := String.length s.

Fixpoint drop_bytes (n : nat) (s : string) : string :=
  match n, s with
  | O, _ => s
  | S _, EmptyString => EmptyString
  | S n', String _ s' => drop_bytes n' s'
  end.

(** [s[i:]]: panics when [i > len(s)]. *)
Definition slice_from (s : string) (i : nat) : outcome string :=
  if Nat.leb i (len s) then Ret (drop_bytes i s)
  else Panic "slice bounds out of range".

(** [s[i]]: panics when [i >= len(s)]. *)
Definition index (s : string) (i : nat) : outcome ascii :=
  match String.get i s with
  | Some c => Ret c
  | None => Panic "index out of range"
  end.

(** [strings.HasPrefix(s, prefix)] *)
Definition strings_HasPrefix (s prefix : string) : bool := String.prefix prefix s.

(** [strings.Count(s, substr)] for a non-empty [substr]: the number of
    non-overlapping instances, scanning from the left.  [skip] is the number
    of bytes of the last match still to be stepped over. *)
Fixpoint count_from (substr : string) (skip : nat) (s : string) : nat :=
  match s with
  | EmptyString => 0
  | String _ s' =>
      match skip with
      | S k => count_from substr k s'
      | O =>
          if String.prefix substr s
          then S (count_from substr (len substr - 1) s')
          else count_from substr 0 s'
      end
  end.

(** For an empty [substr] Go answers the rune count plus one, which is
    [len s + 1] on ASCII input; the program only passes ["=true"]. *)
Definition strings_Count (s substr : string) : nat :=
  match substr with
  | EmptyString => S (len s)
  | _ => count_from substr 0 s
  end.

End GoString.
Export GoString.

Notation "'do' x <- m ;; k" := (GoString.bind m (fun x => k))
  (at level 10, x name, m at level 99, k at level 200).

(** ** Severity classifier *)

Definition conditionLevelInfo : string := "info".
Definition conditionLevelWarning : string := "warning".
Definition conditionLevelCritical : string := "critical".

(** Go [error] values met on the paths modelled here.  [fmt.Errorf] with the
    verb [%v] prints its argument into the message and wraps nothing; with
    [%w] the argument stays reachable for [errors.Is]. *)
Inductive error : Type :=
| sql_ErrNoRows
| errors_New (msg : string)
| fmt_Errorf_v (format : string) (arg : error)
| fmt_Errorf_w (format : string) (arg : error).

#[global] Instance error_eq_dec : EqDecision error.
Proof. solve_decision. Defined.

(** [errors.Is(err, target)] *)
Fixpoint errors_Is (err target : error) : bool :=
  bool_decide (err = target)
  || match err with
     | fmt_Errorf_w _ inner => errors_Is inner target
     | _ => false
     end.

(** [calculateConditionLevel] *)
Definition calculateConditionLevel (condition : string) : string * option error :=
  let warnCount := strings_Count condition "=true" in
  match warnCount with
  | 0 => (conditionLevelInfo, None)
  | 1 | 2 => (conditionLevelWarning, None)
  | 3 => (conditionLevelCritical, None)
  | _ => ("", Some (errors_New "unexpected warn count"))
  end.

Definition keys : list string := ["is_dirty="; "is_overweight="; "is_broken="].
Definition valueTrue : string := "true".
Definition valueFalse : string := "false".

(** [isValidConditionFormat]: the [for idxKeys, key := range keys] loop from
    iteration [idxKeys] on ([rest] holds the keys still to visit), followed by
    the final [return (idxCondStr == len(conditionStr))]. *)
Fixpoint isValidConditionFormat_loop (conditionStr : string) (idxKeys : nat)
    (rest : list string) (idxCondStr : nat) : outcome bool :=
  match rest with
  | [] => Ret (Nat.eqb idxCondStr (len conditionStr))
  | key :: rest' =>
      do tail <- slice_from conditionStr idxCondStr ;;
      if negb (strings_HasPrefix tail key) then Ret false
      else
        let idxCondStr := idxCondStr + len key in
        do tail <- slice_from conditionStr idxCondStr ;;
        do afterValue <-
          (if strings_HasPrefix tail valueTrue
           then Ret (Some (idxCondStr + len valueTrue))
           else
             do tail <- slice_from conditionStr idxCondStr ;;
             if strings_HasPrefix tail valueFalse
             then Ret (Some (idxCondStr + len valueFalse))
             else Ret None) ;;
        match afterValue with
        | None => Ret false
        | Some idxCondStr =>
            if Nat.ltb idxKeys (List.length keys - 1) then
              do c <- index conditionStr idxCondStr ;;
              if negb (Ascii.eqb c ",") then Ret false
              else isValidConditionFormat_loop conditionStr (S idxKeys) rest'
                     (idxCondStr + 1)
            else isValidConditionFormat_loop conditionStr (S idxKeys) rest'
                   idxCondStr
        end
  end.

Definition isValidConditionFormat (conditionStr : string) : outcome bool :=
  isValidConditionFormat_loop conditionStr 0 keys 0.

(** ** Data model *)

(** A [(T, error)] return: exactly one of the two is set on every path of the
    functions modelled. *)
Inductive result (A : Type) : Type :=
| Ok (a : A)
| Err (err : error).
Arguments Ok {A} a.
Arguments Err {A} err.

(** [time.Time], by its Unix seconds and the nanoseconds within the second. *)
Record Time : Type := { unix_sec : Z; unix_nsec : Z }.

(** [t.Unix()] *)
Definition Time_Unix (t : Time) : Z := unix_sec t.

(** [time.Unix(sec, 0)] *)
Definition time_Unix (sec : Z) : Time := {| unix_sec := sec; unix_nsec := 0 |}.

Record Isu : Type := {
  Isu_ID : Z;
  Isu_JIAIsuUUID : string;
  Isu_Name : string;
  Isu_Image : string;
  Isu_Character : string;
  Isu_JIAUserID : string;
}.

Record IsuCondition : Type := {
  IsuCondition_ID : Z;
  IsuCondition_JIAIsuUUID : string;
  IsuCondition_Timestamp : Time;
  IsuCondition_IsSitting : bool;
  IsuCondition_Condition : string;
  IsuCondition_Message : string;
  IsuCondition_Level : string;
}.

Record TrendCondition : Type := {
  TrendCondition_ID : Z;
  TrendCondition_Timestamp : Z;
}.

Record TrendResponse : Type := {
  TrendResponse_Character : string;
  TrendResponse_Info : list TrendCondition;
  TrendResponse_Warning : list TrendCondition;
  TrendResponse_Critical : list TrendCondition;
}.

#[global] Instance Time_eq_dec : EqDecision Time.
Proof. solve_decision. Defined.
#[global] Instance Isu_eq_dec : EqDecision Isu.
Proof. solve_decision. Defined.
#[global] Instance IsuCondition_eq_dec : EqDecision IsuCondition.
Proof. solve_decision. Defined.
#[global] Instance TrendCondition_eq_dec : EqDecision TrendCondition.
Proof. solve_decision. Defined.
#[global] Instance TrendResponse_eq_dec : EqDecision TrendResponse.
Proof. solve_decision. Defined.

(** ** The persistent store *)

(** The statements the modelled functions send through [db]. *)
Inductive Query : Type :=
| SelectCharacters
| SelectIsuByCharacter (character : string)
| GetLatestIsuCondition (jiaIsuUUID : string)
| GetIsu (jiaIsuUUID : string)
| GetUser (jiaUserID : string)
| InsertIsuConditions (q : list IsuCondition).

#[global] Instance Query_eq_dec : EqDecision Query.
Proof. solve_decision. Defined.

(** What [db] answers, as a function of the store's current state.  [db.Get]
    answers [sql.ErrNoRows] when the statement selects no row. *)
Class Store (DB : Type) : Type := {
  (* db.Select(&characterList, "SELECT `character` FROM `isu` GROUP BY `character`") *)
  db_Select_characters : DB -> result (list Isu);
  (* db.Select(&isuList, "SELECT `id`, `jia_isu_uuid` FROM `isu` WHERE `character` = ?", c) *)
  db_Select_isu_by_character : DB -> string -> result (list Isu);
  (* db.Get(&i, "SELECT ... FROM `isu_condition` WHERE `jia_isu_uuid` = ?
                 ORDER BY `timestamp` DESC LIMIT 1", uuid) *)
  db_Get_latest_isu_condition : DB -> string -> result IsuCondition;
  (* db.Get(&i, "SELECT ... FROM `isu` WHERE `jia_isu_uuid` = ?", uuid) *)
  db_Get_isu : DB -> string -> result Isu;
  (* db.Get(&count, "SELECT 1 FROM `user` WHERE `jia_user_id` = ?", id) *)
  db_Get_user : DB -> string -> result Z;
  (* db.NamedExec("INSERT INTO `isu_condition` ... VALUES (...)", q) *)
  db_NamedExec_insert : DB -> list IsuCondition -> option error * DB;
}.

(** [sort.Slice(x, less)], by its contract: the result is a rearrangement of
    the slice, and when [less] is a strict weak ordering no element is [less]
    than the one before it.  The order of elements that compare equal is not
    specified. *)
Record StrictWeakOrder {A : Type} (less : A -> A -> bool) : Prop := {
  swo_irrefl : forall a, less a a = false;
  swo_trans : forall a b c, less a b = true -> less b c = true -> less a c = true;
  swo_incomp : forall a b c, less a b = false -> less b c = false -> less a c = false;
}.

Class SortSlice : Type := {
  sort_Slice : forall {A : Type}, (A -> A -> bool) -> list A -> list A;
}.

Class SortSliceContract (sorter : SortSlice) : Prop := {
  sort_Slice_Permutation : forall (A : Type) (less : A -> A -> bool) (x : list A),
      Permutation x (sort_Slice less x);
  sort_Slice_Sorted : forall (A : Type) (less : A -> A -> bool) (x : list A),
      StrictWeakOrder less ->
      Sorted (fun a b => less b a = false) (sort_Slice less x);
}.

(** ** Process state *)

(** What a run leaves behind besides the state of the singletons: the store
    calls made, the lines logged, the cache entries invalidated, the buffer
    operations and the snapshots published, oldest first. *)
Inductive Event : Type :=
| StoreCall (q : Query)
| LogLine (format : string) (err : error)
| ConditionForgotten (jiaIsuUUID : string)
| IsuForgotten (jiaIsuUUID : string)
| Enqueued (conds : list IsuCondition)
| Drained (queue : list IsuCondition)
| Published (res : option (list TrendResponse)).

(** The number of times the store was asked [q]. *)
Definition store_calls (q : Query) (es : list Event) : nat :=
  List.length (List.filter (fun e => match e with
                                     | StoreCall q' => bool_decide (q' = q)
                                     | _ => false
                                     end) es).

Arguments store_calls : simpl never.

Section Core.

Context {DB : Type} `{Store DB} `{SortSlice}.

(** The singletons of [main.go].  A Go map from string is a [gmap]; the
    user cache's [map[string]struct{}] is a [gset]; a slice that may be
    [nil] is an [option (list _)]. *)
Record World : Type := {
  db : DB;
  isuConditionCache : gmap string IsuCondition;
  isuCache : gmap string Isu;
  userCache : gset string;
  insertQueue : list IsuCondition;
  trendCache : option (list TrendResponse);
  events : list Event;
}.

Definition set_db (d : DB) (w : World) : World :=
  {| db := d; isuConditionCache := isuConditionCache w; isuCache := isuCache w;
     userCache := userCache w; insertQueue := insertQueue w;
     trendCache := trendCache w; events := events w |}.

Definition set_isuConditionCache (m : gmap string IsuCondition) (w : World) : World :=
  {| db := db w; isuConditionCache := m; isuCache := isuCache w;
     userCache := userCache w; insertQueue := insertQueue w;
     trendCache := trendCache w; events := events w |}.

Definition set_isuCache (m : gmap string Isu) (w : World) : World :=
  {| db := db w; isuConditionCache := isuConditionCache w; isuCache := m;
     userCache := userCache w; insertQueue := insertQueue w;
     trendCache := trendCache w; events := events w |}.

Definition set_userCache (m : gset string) (w : World) : World :=
  {| db := db w; isuConditionCache := isuConditionCache w; isuCache := isuCache w;
     userCache := m; insertQueue := insertQueue w;
     trendCache := trendCache w; events := events w |}.

Definition set_insertQueue (q : list IsuCondition) (w : World) : World :=
  {| db := db w; isuConditionCache := isuConditionCache w; isuCache := isuCache w;
     userCache := userCache w; insertQueue := q;
     trendCache := trendCache w; events := events w |}.

Definition set_trendCache (res : option (list TrendResponse)) (w : World) : World :=
  {| db := db w; isuConditionCache := isuConditionCache w; isuCache := isuCache w;
     userCache := userCache w; insertQueue := insertQueue w;
     trendCache := res; events := events w |}.

Definition emit (e : Event) (w : World) : World :=
  {| db := db w; isuConditionCache := isuConditionCache w; isuCache := isuCache w;
     userCache := userCache w; insertQueue := insertQueue w;
     trendCache := trendCache w; events := events w ++ [e] |}.

(** [log.Errorf(format, err)] and [log.Printf(format, err)] *)
Definition log_Errorf (format : string) (err : error) (w : World) : World :=
  emit (LogLine format err) w.

(** *** Read-through point caches *)

(** [IsuConditionCache.Get] *)
Definition IsuConditionCache_Get (jiaIsuUUID : string) (w : World)
  : result IsuCondition * World :=
  match isuConditionCache w !! jiaIsuUUID with
  | None =>
      let w := emit (StoreCall (GetLatestIsuCondition jiaIsuUUID)) w in
      match db_Get_latest_isu_condition (db w) jiaIsuUUID with
      | Err err =>
          if errors_Is err sql_ErrNoRows then (Err sql_ErrNoRows, w)
          else (Err err, w)
      | Ok i =>
          (Ok i, set_isuConditionCache (<[jiaIsuUUID := i]> (isuConditionCache w)) w)
      end
  | Some cond => (Ok cond, w)
  end.

(** [IsuConditionCache.Forget] *)
Definition IsuConditionCache_Forget (jiaIsuUUID : string) (w : World) : World :=
  emit (ConditionForgotten jiaIsuUUID)
    (set_isuConditionCache (delete jiaIsuUUID (isuConditionCache w)) w).

(** [IsuCache.Get] *)
Definition IsuCache_Get (jiaIsuUUID : string) (w : World) : result Isu * World :=
  match isuCache w !! jiaIsuUUID with
  | None =>
      let w := emit (StoreCall (GetIsu jiaIsuUUID)) w in
      match db_Get_isu (db w) jiaIsuUUID with
      | Err err =>
          if errors_Is err sql_ErrNoRows then (Err sql_ErrNoRows, w)
          else (Err err, w)
      | Ok i => (Ok i, set_isuCache (<[jiaIsuUUID := i]> (isuCache w)) w)
      end
  | Some isu => (Ok isu, w)
  end.

(** [IsuCache.Forget] *)
Definition IsuCache_Forget (jiaIsuUUID : string) (w : World) : World :=
  emit (IsuForgotten jiaIsuUUID)
    (set_isuCache (delete jiaIsuUUID (isuCache w)) w).

(** [UserCache.Get] *)
Definition UserCache_Get (jiaUserID : string) (w : World) : result bool * World :=
  if bool_decide (jiaUserID ∈ userCache w) then (Ok true, w)
  else
    let w := emit (StoreCall (GetUser jiaUserID)) w in
    match db_Get_user (db w) jiaUserID with
    | Err err => (Err (fmt_Errorf_v "db error: %v" err), w)
    | Ok count =>
        if Z.eqb count 0 then (Err sql_ErrNoRows, w)
        else (Ok true, set_userCache ({[jiaUserID]} ∪ userCache w) w)
    end.

(** *** Trend snapshot holder *)

(** [NewTrendCache] *)
Definition NewTrendCache : option (list TrendResponse) := Some [].

(** [TrendCache.Get] *)
Definition TrendCache_Get (w : World) : option (list TrendResponse) := trendCache w.

(** [TrendCache.Set] *)
Definition TrendCache_Set (res : option (list TrendResponse)) (w : World) : World :=
  emit (Published res) (set_trendCache res w).

(** *** Write buffer *)

(** [NewQueue] *)
Definition NewQueue : list IsuCondition := [].

(** [InsertQueue.Insert] *)
Definition InsertQueue_Insert (conds : list IsuCondition) (w : World) : World :=
  emit (Enqueued conds) (set_insertQueue (insertQueue w ++ conds) w).

(** [InsertQueue.PopAll] *)
Definition InsertQueue_PopAll (w : World) : list IsuCondition * World :=
  let queue := insertQueue w in
  (queue, emit (Drained queue) (set_insertQueue [] w)).

(** *** Flush cycle *)

(** The [for _, cond := range q] loop of [insertIsuConditionScheduled]. *)
Fixpoint forget_drained (q : list IsuCondition) (w : World) : World :=
  match q with
  | [] => w
  | cond :: q' =>
      forget_drained q' (IsuConditionCache_Forget (IsuCondition_JIAIsuUUID cond) w)
  end.

(** One [case <-ticker.C:] round of [insertIsuConditionScheduled]. *)
Definition insertIsuConditionScheduled_tick (w : World) : World :=
  let '(q, w) := InsertQueue_PopAll w in
  if Nat.eqb (List.length q) 0 then w
  else
    let w := forget_drained q w in
    let w := emit (StoreCall (InsertIsuConditions q)) w in
    let '(err, d) := db_NamedExec_insert (db w) q in
    let w := set_db d w in
    match err with
    | Some err => log_Errorf "failed to insert isu condition: %v" err w
    | None => w
    end.

(** *** Trend recompute *)

Definition by_Timestamp_desc (a b : TrendCondition) : bool :=
  Z.gtb (TrendCondition_Timestamp a) (TrendCondition_Timestamp b).

(** The three buckets being filled for one character. *)
Record Buckets : Type := {
  characterInfoIsuConditions : list TrendCondition;
  characterWarningIsuConditions : list TrendCondition;
  characterCriticalIsuConditions : list TrendCondition;
}.

Definition emptyBuckets : Buckets :=
  {| characterInfoIsuConditions := [];
     characterWarningIsuConditions := [];
     characterCriticalIsuConditions := [] |}.

(** The [switch conditionLevel] of [calculateTrend]. *)
Definition bucket (conditionLevel : string) (trendCondition : TrendCondition)
    (b : Buckets) : Buckets :=
  if String.eqb conditionLevel "info" then
    {| characterInfoIsuConditions := characterInfoIsuConditions b ++ [trendCondition];
       characterWarningIsuConditions := characterWarningIsuConditions b;
       characterCriticalIsuConditions := characterCriticalIsuConditions b |}
  else if String.eqb conditionLevel "warning" then
    {| characterInfoIsuConditions := characterInfoIsuConditions b;
       characterWarningIsuConditions := characterWarningIsuConditions b ++ [trendCondition];
       characterCriticalIsuConditions := characterCriticalIsuConditions b |}
  else if String.eqb conditionLevel "critical" then
    {| characterInfoIsuConditions := characterInfoIsuConditions b;
       characterWarningIsuConditions := characterWarningIsuConditions b;
       characterCriticalIsuConditions := characterCriticalIsuConditions b ++ [trendCondition] |}
  else b.

(** The inner [for _, isu := range isuList] loop of [calculateTrend];
    [None] is the [return nil] out of the whole function. *)
Fixpoint calculateTrend_isuList (isuList : list Isu) (b : Buckets) (w : World)
  : option Buckets * World :=
  match isuList with
  | [] => (Some b, w)
  | isu :: isuList' =>
      match IsuConditionCache_Get (Isu_JIAIsuUUID isu) w with
      | (Err err, w) =>
          if errors_Is err sql_ErrNoRows then calculateTrend_isuList isuList' b w
          else (None, log_Errorf "db error: %v" err w)
      | (Ok cond, w) =>
          let conditionLevel := IsuCondition_Level cond in
          let trendCondition :=
            {| TrendCondition_ID := Isu_ID isu;
               TrendCondition_Timestamp := Time_Unix (IsuCondition_Timestamp cond) |} in
          calculateTrend_isuList isuList' (bucket conditionLevel trendCondition b) w
      end
  end.

(** The outer [for _, character := range characterList] loop, then
    [return res]. *)
Fixpoint calculateTrend_characterList (characterList : list Isu)
    (res : list TrendResponse) (w : World) : option (list TrendResponse) * World :=
  match characterList with
  | [] => (Some res, w)
  | character :: characterList' =>
      let w := emit (StoreCall (SelectIsuByCharacter (Isu_Character character))) w in
      match db_Select_isu_by_character (db w) (Isu_Character character) with
      | Err err => (None, log_Errorf "db error: %v" err w)
      | Ok isuList =>
          match calculateTrend_isuList isuList emptyBuckets w with
          | (None, w) => (None, w)
          | (Some b, w) =>
              calculateTrend_characterList characterList'
                (res ++
                 [{| TrendResponse_Character := Isu_Character character;
                     TrendResponse_Info :=
                       sort_Slice by_Timestamp_desc (characterInfoIsuConditions b);
                     TrendResponse_Warning :=
                       sort_Slice by_Timestamp_desc (characterWarningIsuConditions b);
                     TrendResponse_Critical :=
                       sort_Slice by_Timestamp_desc (characterCriticalIsuConditions b) |}])
                w
          end
      end
  end.

(** [calculateTrend] *)
Definition calculateTrend (w : World) : option (list TrendResponse) * World :=
  let w := emit (StoreCall SelectCharacters) w in
  match db_Select_characters (db w) with
  | Err err => (None, log_Errorf "db error: %v" err w)
  | Ok characterList => calculateTrend_characterList characterList [] w
  end.

(** One [case <-ticker.C:] round of [calculateTrendScheduled]. *)
Definition calculateTrendScheduled_tick (w : World) : World :=
  let '(trend, w) := calculateTrend w in
  TrendCache_Set trend w.

(** *** Runs of cache operations *)

Inductive CacheOp : Type :=
| CondGet (jiaIsuUUID : string)
| CondForget (jiaIsuUUID : string)
| IsuGet (jiaIsuUUID : string)
| IsuForget (jiaIsuUUID : string)
| UserGet (jiaUserID : string)
| StoreChange (f : DB -> DB).

Inductive CacheAnswer : Type :=
| CondAnswer (r : result IsuCondition)
| IsuAnswer (r : result Isu)
| UserAnswer (r : result bool)
| NoAnswer.

Definition cache_step (op : CacheOp) (w : World) : CacheAnswer * World :=
  match op with
  | CondGet k => let '(r, w) := IsuConditionCache_Get k w in (CondAnswer r, w)
  | CondForget k => (NoAnswer, IsuConditionCache_Forget k w)
  | IsuGet k => let '(r, w) := IsuCache_Get k w in (IsuAnswer r, w)
  | IsuForget k => (NoAnswer, IsuCache_Forget k w)
  | UserGet k => let '(r, w) := UserCache_Get k w in (UserAnswer r, w)
  | StoreChange f => (NoAnswer, set_db (f (db w)) w)
  end.

(** Runs [ops] in order (any interleaving of callers, each call atomic under
    its cache's lock, with writes to the store by others in between) and
    collects the answers. *)
Fixpoint cache_run (ops : list CacheOp) (w : World) : list CacheAnswer * World :=
  match ops with
  | [] => ([], w)
  | op :: ops' =>
      let '(a, w) := cache_step op w in
      let '(answers, w) := cache_run ops' w in
      (a :: answers, w)
  end.

End Core.

Arguments World DB : clear implicits.
Arguments CacheOp DB : clear implicits.

(** ** Request handlers *)

(** The responses the handlers modelled here send. *)
Inductive Response : Type :=
| c_String (code : Z) (s : string)
| c_NoContent (code : Z).

Definition http_StatusAccepted : Z := 202.
Definition http_StatusBadRequest : Z := 400.
Definition http_StatusNotFound : Z := 404.
Definition http_StatusInternalServerError : Z := 500.

Record PostIsuConditionRequest : Type := {
  PostIsuConditionRequest_IsSitting : bool;
  PostIsuConditionRequest_Condition : string;
  PostIsuConditionRequest_Message : string;
  PostIsuConditionRequest_Timestamp : Z;
}.

Record GetIsuConditionResponse : Type := {
  GetIsuConditionResponse_JIAIsuUUID : string;
  GetIsuConditionResponse_IsuName : string;
  GetIsuConditionResponse_Timestamp : Z;
  GetIsuConditionResponse_IsSitting : bool;
  GetIsuConditionResponse_Condition : string;
  GetIsuConditionResponse_ConditionLevel : string;
  GetIsuConditionResponse_Message : string;
}.

Record GetIsuListResponse : Type := {
  GetIsuListResponse_ID : Z;
  GetIsuListResponse_JIAIsuUUID : string;
  GetIsuListResponse_Name : string;
  GetIsuListResponse_Character : string;
  GetIsuListResponse_LatestIsuCondition : option GetIsuConditionResponse;
}.

(** How the [for _, cond := range req] loop of [postIsuCondition] ends: with
    an early [return] of a response, or with the records to enqueue. *)
Inductive Conds : Type :=
| Returned (logged : option error) (r : Response)
| Built (conds : list IsuCondition).

(** The [for _, cond := range req] loop of [postIsuCondition]. *)
Fixpoint postIsuCondition_conds (jiaIsuUUID : string)
    (req : list PostIsuConditionRequest) (conds : list IsuCondition) : outcome Conds :=
  match req with
  | [] => Ret (Built conds)
  | cond :: req' =>
      let timestamp := time_Unix (PostIsuConditionRequest_Timestamp cond) in
      do valid <- isValidConditionFormat (PostIsuConditionRequest_Condition cond) ;;
      if negb valid then
        Ret (Returned None (c_String http_StatusBadRequest "bad request body"))
      else
        match calculateConditionLevel (PostIsuConditionRequest_Condition cond) with
        | (_, Some err) =>
            Ret (Returned (Some err) (c_NoContent http_StatusInternalServerError))
        | (level, None) =>
            postIsuCondition_conds jiaIsuUUID req'
              (conds ++
               [{| IsuCondition_ID := 0;
                   IsuCondition_JIAIsuUUID := jiaIsuUUID;
                   IsuCondition_Timestamp := timestamp;
                   IsuCondition_IsSitting := PostIsuConditionRequest_IsSitting cond;
                   IsuCondition_Condition := PostIsuConditionRequest_Condition cond;
                   IsuCondition_Message := PostIsuConditionRequest_Message cond;
                   IsuCondition_Level := level |}])
        end
  end.

Section Handlers.

Context {DB : Type} `{Store DB}.

(** [c.Logger().Error(err)] *)
Definition c_Logger_Error (err : error) (w : World DB) : World DB :=
  emit (LogLine "%v" err) w.

(** [postIsuCondition], given the path parameter and what [c.Bind(&req)]
    made of the body.  A panic leaves the state as it was when it was
    raised. *)
Definition postIsuCondition (jiaIsuUUID : string)
    (bound : result (list PostIsuConditionRequest)) (w : World DB)
  : outcome Response * World DB :=
  if String.eqb jiaIsuUUID "" then
    (Ret (c_String http_StatusBadRequest "missing: jia_isu_uuid"), w)
  else
    match bound with
    | Err _ => (Ret (c_String http_StatusBadRequest "bad request body"), w)
    | Ok req =>
        if Nat.eqb (List.length req) 0 then
          (Ret (c_String http_StatusBadRequest "bad request body"), w)
        else
          match IsuCache_Get jiaIsuUUID w with
          | (Err err, w) =>
              if errors_Is err sql_ErrNoRows then
                (Ret (c_String http_StatusNotFound "not found: isu"), w)
              else
                (Ret (c_NoContent http_StatusInternalServerError), c_Logger_Error err w)
          | (Ok _, w) =>
              match postIsuCondition_conds jiaIsuUUID req [] with
              | Panic msg => (Panic msg, w)
              | Ret (Returned logged r) =>
                  (Ret r, match logged with
                          | Some err => c_Logger_Error err w
                          | None => w
                          end)
              | Ret (Built conds) =>
                  (Ret (c_NoContent http_StatusAccepted), InsertQueue_Insert conds w)
              end
          end
    end.

(** The [&GetIsuConditionResponse{...}] built in [getIsuList]. *)
Definition formattedCondition_of (isu : Isu) (lastCondition : IsuCondition)
  : GetIsuConditionResponse :=
  {| GetIsuConditionResponse_JIAIsuUUID := IsuCondition_JIAIsuUUID lastCondition;
     GetIsuConditionResponse_IsuName := Isu_Name isu;
     GetIsuConditionResponse_Timestamp := Time_Unix (IsuCondition_Timestamp lastCondition);
     GetIsuConditionResponse_IsSitting := IsuCondition_IsSitting lastCondition;
     GetIsuConditionResponse_Condition := IsuCondition_Condition lastCondition;
     GetIsuConditionResponse_ConditionLevel := IsuCondition_Level lastCondition;
     GetIsuConditionResponse_Message := IsuCondition_Message lastCondition |}.

(** The [GetIsuListResponse{...}] built in [getIsuList]. *)
Definition isuListResponse_of (isu : Isu)
    (formattedCondition : option GetIsuConditionResponse) : GetIsuListResponse :=
  {| GetIsuListResponse_ID := Isu_ID isu;
     GetIsuListResponse_JIAIsuUUID := Isu_JIAIsuUUID isu;
     GetIsuListResponse_Name := Isu_Name isu;
     GetIsuListResponse_Character := Isu_Character isu;
     GetIsuListResponse_LatestIsuCondition := formattedCondition |}.

(** The [for _, isu := range isuList] loop of [getIsuList].  [found] is
    declared before the loop and lives across its rounds; on
    [sql.ErrNoRows] it has just been set to [false], so [lastCondition] is
    read only after a [Get] that returned it.  [None] is the
    [return c.NoContent(http.StatusInternalServerError)] out of the loop. *)
Fixpoint getIsuList_loop (isuList : list Isu) (found : bool)
    (responseList : list GetIsuListResponse) (w : World DB)
  : option (list GetIsuListResponse) * World DB :=
  match isuList with
  | [] => (Some responseList, w)
  | isu :: isuList' =>
      match IsuConditionCache_Get (Isu_JIAIsuUUID isu) w with
      | (Err err, w) =>
          if errors_Is err sql_ErrNoRows then
            getIsuList_loop isuList' false
              (responseList ++ [isuListResponse_of isu None]) w
          else (None, w)
      | (Ok lastCondition, w) =>
          let formattedCondition :=
            if found then Some (formattedCondition_of isu lastCondition) else None in
          getIsuList_loop isuList' found
            (responseList ++ [isuListResponse_of isu formattedCondition]) w
      end
  end.

End Handlers.

(** ** Graph data points *)

(** Go's [int], taken as 64 bits wide: sums and products wrap around, the
    quotient truncates towards zero, and dividing by zero panics. *)
Module GoInt.

Definition wrap (z : Z) : Z := ((z + 2 ^ 63) mod 2 ^ 64 - 2 ^ 63)%Z.

Definition add (a b : Z) : Z := wrap (a + b).

Definition mul (a b : Z) : Z := wrap (a * b).

Definition div (a b : Z) : outcome Z :=
  if Z.eqb b 0 then Panic "integer divide by zero" else Ret (wrap (Z.quot a b)).

End GoInt.

Definition scoreConditionLevelInfo : Z := 3.
Definition scoreConditionLevelWarning : Z := 2.
Definition scoreConditionLevelCritical : Z := 1.

(** [strings.Split(s, sep)] for a non-empty [sep]: the pieces of [s] between
    the non-overlapping instances of [sep], scanning from the left.
    [split_from] returns the piece being read and the pieces after it;
    [skip] is the number of bytes of the last separator still to be stepped
    over. *)
Fixpoint split_from (sep : string) (skip : nat) (s : string) : string * list string :=
  match s with
  | EmptyString => (EmptyString, [])
  | String c s' =>
      match skip with
      | S k => split_from sep k s'
      | O =>
          if String.prefix sep s then
            let '(piece, pieces) := split_from sep (len sep - 1) s' in
            (EmptyString, piece :: pieces)
          else
            let '(piece, pieces) := split_from sep 0 s' in
            (String c piece, pieces)
      end
  end.

(** For an empty [sep] Go splits after each UTF-8 sequence, which on ASCII
    input is after each byte; the program only passes [","] and ["="]. *)
Definition strings_Split (s sep : string) : list string :=
  match sep with
  | EmptyString => (fun c => String c EmptyString) <$> list_ascii_of_string s
  | _ => let '(piece, pieces) := split_from sep 0 s in piece :: pieces
  end.

(** [x[i]] on a slice: panics when [i >= len(x)]. *)
Definition slice_index {A : Type} (x : list A) (i : nat) : outcome A :=
  match x !! i with
  | Some a => Ret a
  | None => Panic "index out of range"
  end.

(** [m[k]] on a [map[string]int]: zero for a missing key. *)
Definition map_index (m : gmap string Z) (k : string) : Z := default 0%Z (m !! k).

Record ConditionsPercentage : Type := {
  ConditionsPercentage_Sitting : Z;
  ConditionsPercentage_IsBroken : Z;
  ConditionsPercentage_IsDirty : Z;
  ConditionsPercentage_IsOverweight : Z;
}.

Record GraphDataPoint : Type := {
  GraphDataPoint_Score : Z;
  GraphDataPoint_Percentage : ConditionsPercentage;
}.

(** A run that may panic, return an error, or return a value. *)
Definition try_bind {A B : Type} (m : outcome (result A)) (k : A -> outcome (result B))
  : outcome (result B) :=
  match m with
  | Panic msg => Panic msg
  | Ret (Err err) => Ret (Err err)
  | Ret (Ok a) => k a
  end.

Notation "'try' x <- m ;; k" := (try_bind m (fun x => k))
  (at level 10, x name, m at level 99, k at level 200).

(** The [for _, condStr := range strings.Split(condition.Condition, ",")]
    loop of [calculateGraphDataPoint]. *)
Fixpoint calculateGraphDataPoint_flags (condStrs : list string)
    (conditionsCount : gmap string Z) (badConditionsCount : Z)
  : outcome (gmap string Z * Z) :=
  match condStrs with
  | [] => Ret (conditionsCount, badConditionsCount)
  | condStr :: condStrs' =>
      let keyValue := strings_Split condStr "=" in
      do conditionName <- slice_index keyValue 0 ;;
      do value <- slice_index keyValue 1 ;;
      if String.eqb value "true" then
        calculateGraphDataPoint_flags condStrs'
          (<[conditionName := GoInt.add (map_index conditionsCount conditionName) 1]>
             conditionsCount)
          (GoInt.add badConditionsCount 1)
      else calculateGraphDataPoint_flags condStrs' conditionsCount badConditionsCount
  end.

(** The first [for _, condition := range isuConditions] loop of
    [calculateGraphDataPoint]. *)
Fixpoint calculateGraphDataPoint_score (isuConditions : list IsuCondition)
    (conditionsCount : gmap string Z) (rawScore : Z)
  : outcome (result (gmap string Z * Z)) :=
  match isuConditions with
  | [] => Ret (Ok (conditionsCount, rawScore))
  | condition :: isuConditions' =>
      do valid <- isValidConditionFormat (IsuCondition_Condition condition) ;;
      if negb valid then Ret (Err (errors_New "invalid condition format"))
      else
        do counted <- calculateGraphDataPoint_flags
                        (strings_Split (IsuCondition_Condition condition) ",")
                        conditionsCount 0 ;;
        let '(conditionsCount, badConditionsCount) := counted in
        let rawScore :=
          if Z.leb 3 badConditionsCount then GoInt.add rawScore scoreConditionLevelCritical
          else if Z.leb 1 badConditionsCount then GoInt.add rawScore scoreConditionLevelWarning
          else GoInt.add rawScore scoreConditionLevelInfo in
        calculateGraphDataPoint_score isuConditions' conditionsCount rawScore
  end.

(** The second loop of [calculateGraphDataPoint]. *)
Fixpoint calculateGraphDataPoint_sitting (isuConditions : list IsuCondition)
    (sittingCount : Z) : Z :=
  match isuConditions with
  | [] => sittingCount
  | condition :: isuConditions' =>
      calculateGraphDataPoint_sitting isuConditions'
        (if IsuCondition_IsSitting condition then GoInt.add sittingCount 1
         else sittingCount)
  end.

(** [calculateGraphDataPoint] *)
Definition calculateGraphDataPoint (isuConditions : list IsuCondition)
  : outcome (result GraphDataPoint) :=
  let conditionsCount : gmap string Z :=
    {[ "is_broken" := 0%Z; "is_dirty" := 0%Z; "is_overweight" := 0%Z ]} in
  try scored <- calculateGraphDataPoint_score isuConditions conditionsCount 0 ;;
  let '(conditionsCount, rawScore) := scored in
  let sittingCount := calculateGraphDataPoint_sitting isuConditions 0 in
  let isuConditionsLength := Z.of_nat (List.length isuConditions) in
  do third <- GoInt.div (GoInt.mul rawScore 100) 3 ;;
  do score <- GoInt.div third isuConditionsLength ;;
  do sittingPercentage <- GoInt.div (GoInt.mul sittingCount 100) isuConditionsLength ;;
  do isBrokenPercentage <-
    GoInt.div (GoInt.mul (map_index conditionsCount "is_broken") 100) isuConditionsLength ;;
  do isOverweightPercentage <-
    GoInt.div (GoInt.mul (map_index conditionsCount "is_overweight") 100)
      isuConditionsLength ;;
  do isDirtyPercentage <-
    GoInt.div (GoInt.mul (map_index conditionsCount "is_dirty") 100) isuConditionsLength ;;
  Ret (Ok {| GraphDataPoint_Score := score;
             GraphDataPoint_Percentage :=
               {| ConditionsPercentage_Sitting := sittingPercentage;
                  ConditionsPercentage_IsBroken := isBrokenPercentage;
                  ConditionsPercentage_IsDirty := isDirtyPercentage;
                  ConditionsPercentage_IsOverweight := isOverweightPercentage |} |}).

(** ** Graph responses *)

(** [t.Truncate(time.Hour)]: the instant rounded down to a whole hour since
    the zero time, which lies a whole number of hours before the Unix
    epoch. *)
Definition Time_Truncate_Hour (t : Time) : Time :=
  {| unix_sec := (unix_sec t - unix_sec t mod 3600)%Z; unix_nsec := 0 |}.

(** [t.Add(time.Hour * n)], within the range of instants [time.Time] holds. *)
Definition Time_Add_Hours (t : Time) (n : Z) : Time :=
  {| unix_sec := (unix_sec t + 3600 * n)%Z; unix_nsec := unix_nsec t |}.

(** [t.Before(u)] *)
Definition Time_Before (t u : Time) : bool :=
  Z.ltb (unix_sec t) (unix_sec u)
  || (Z.eqb (unix_sec t) (unix_sec u) && Z.ltb (unix_nsec t) (unix_nsec u)).

(** [t.After(u)] *)
Definition Time_After (t u : Time) : bool := Time_Before u t.

(** [t.Equal(u)]; also [t == u] between instants read in one location, as
    the timestamps of the rows of one query are. *)
Definition Time_Equal (t u : Time) : bool :=
  Z.eqb (unix_sec t) (unix_sec u) && Z.eqb (unix_nsec t) (unix_nsec u).

(** The zero [time.Time]: January 1, year 1, 00:00:00 UTC. *)
Definition Time_zero : Time := {| unix_sec := (-62135596800)%Z; unix_nsec := 0 |}.

Record GraphDataPointWithInfo : Type := {
  GraphDataPointWithInfo_JIAIsuUUID : string;
  GraphDataPointWithInfo_StartAt : Time;
  GraphDataPointWithInfo_Data : GraphDataPoint;
  GraphDataPointWithInfo_ConditionTimestamps : list Z;
}.

Record GraphResponse : Type := {
  GraphResponse_StartAt : Z;
  GraphResponse_EndAt : Z;
  GraphResponse_Data : option GraphDataPoint;
  GraphResponse_ConditionTimestamps : list Z;
}.

(** The variables the row loop of [generateIsuGraphResponse] updates. *)
Record HourGroups : Type := {
  dataPoints : list GraphDataPointWithInfo;
  conditionsInThisHour : list IsuCondition;
  timestampsInThisHour : list Z;
  startTimeInThisHour : Time;
}.

(** The [if len(conditionsInThisHour) > 0 { ... }] block that closes the
    hour being collected; it stands in the row loop and again after it. *)
Definition close_hour (jiaIsuUUID : string) (g : HourGroups)
  : outcome (result (list GraphDataPointWithInfo)) :=
  if Nat.ltb 0 (List.length (conditionsInThisHour g)) then
    try data <- calculateGraphDataPoint (conditionsInThisHour g) ;;
    Ret (Ok (dataPoints g ++
             [{| GraphDataPointWithInfo_JIAIsuUUID := jiaIsuUUID;
                 GraphDataPointWithInfo_StartAt := startTimeInThisHour g;
                 GraphDataPointWithInfo_Data := data;
                 GraphDataPointWithInfo_ConditionTimestamps := timestampsInThisHour g |}]))
  else Ret (Ok (dataPoints g)).

(** The [for rows.Next()] loop of [generateIsuGraphResponse]; a row is what
    [rows.StructScan(&condition)] made of it. *)
Fixpoint generateIsuGraphResponse_rows (jiaIsuUUID : string)
    (rows : list (result IsuCondition)) (g : HourGroups) : outcome (result HourGroups) :=
  match rows with
  | [] => Ret (Ok g)
  | Err err :: _ => Ret (Err err)
  | Ok condition :: rows' =>
      let truncatedConditionTime := Time_Truncate_Hour (IsuCondition_Timestamp condition) in
      try g <-
        (if negb (Time_Equal truncatedConditionTime (startTimeInThisHour g)) then
           try dataPoints <- close_hour jiaIsuUUID g ;;
           Ret (Ok {| dataPoints := dataPoints;
                      conditionsInThisHour := [];
                      timestampsInThisHour := [];
                      startTimeInThisHour := truncatedConditionTime |})
         else Ret (Ok g)) ;;
      generateIsuGraphResponse_rows jiaIsuUUID rows'
        {| dataPoints := dataPoints g;
           conditionsInThisHour := conditionsInThisHour g ++ [condition];
           timestampsInThisHour :=
             timestampsInThisHour g ++ [Time_Unix (IsuCondition_Timestamp condition)];
           startTimeInThisHour := startTimeInThisHour g |}
  end.

(** The [for i, graph := range dataPoints] loop that looks for the first
    point not before [graphDate] and the first one after [endTime]. *)
Fixpoint generateIsuGraphResponse_bounds (graphDate endTime : Time) (total : nat)
    (points : list GraphDataPointWithInfo) (i startIndex endNextIndex : nat) : nat * nat :=
  match points with
  | [] => (startIndex, endNextIndex)
  | graph :: points' =>
      let startIndex :=
        if Nat.eqb startIndex total
           && negb (Time_Before (GraphDataPointWithInfo_StartAt graph) graphDate)
        then i else startIndex in
      let endNextIndex :=
        if Nat.eqb endNextIndex total
           && Time_After (GraphDataPointWithInfo_StartAt graph) endTime
        then i else endNextIndex in
      generateIsuGraphResponse_bounds graphDate endTime total points' (S i)
        startIndex endNextIndex
  end.

(** The [for thisTime.Before(graphDate.Add(time.Hour * 24))] loop, run for at
    most [fuel] rounds; [None] when the rounds do not suffice. *)
Fixpoint generateIsuGraphResponse_hours (fuel : nat) (graphDate : Time)
    (filteredDataPoints : list GraphDataPointWithInfo) (index : nat) (thisTime : Time)
    (responseList : list GraphResponse) : option (list GraphResponse) :=
  match fuel with
  | O => None
  | S fuel' =>
      if Time_Before thisTime (Time_Add_Hours graphDate 24) then
        let '(data, timestamps, index) :=
          match (if Nat.ltb index (List.length filteredDataPoints)
                 then filteredDataPoints !! index else None) with
          | Some dataWithInfo =>
              if Time_Equal (GraphDataPointWithInfo_StartAt dataWithInfo) thisTime then
                (Some (GraphDataPointWithInfo_Data dataWithInfo),
                 GraphDataPointWithInfo_ConditionTimestamps dataWithInfo,
                 S index)
              else (None, [], index)
          | None => (None, [], index)
          end in
        let resp :=
          {| GraphResponse_StartAt := Time_Unix thisTime;
             GraphResponse_EndAt := Time_Unix (Time_Add_Hours thisTime 1);
             GraphResponse_Data := data;
             GraphResponse_ConditionTimestamps := timestamps |} in
        generateIsuGraphResponse_hours fuel' graphDate filteredDataPoints index
          (Time_Add_Hours thisTime 1) (responseList ++ [resp])
      else Some responseList
  end.

(** [generateIsuGraphResponse], given what [db.Queryx] returned: an error, or
    the rows in the order of the statement's [ORDER BY `timestamp` ASC]. *)
Definition generateIsuGraphResponse (fuel : nat) (jiaIsuUUID : string) (graphDate : Time)
    (queried : result (list (result IsuCondition)))
  : option (outcome (result (list GraphResponse))) :=
  match queried with
  | Err err => Some (Ret (Err (fmt_Errorf_v "db error: %v" err)))
  | Ok rows =>
      let grouped :=
        try g <- generateIsuGraphResponse_rows jiaIsuUUID rows
                   {| dataPoints := []; conditionsInThisHour := [];
                      timestampsInThisHour := []; startTimeInThisHour := Time_zero |} ;;
        close_hour jiaIsuUUID g in
      match grouped with
      | Panic msg => Some (Panic msg)
      | Ret (Err err) => Some (Ret (Err err))
      | Ret (Ok dataPoints) =>
          let endTime := Time_Add_Hours graphDate 24 in
          let '(startIndex, endNextIndex) :=
            generateIsuGraphResponse_bounds graphDate endTime (List.length dataPoints)
              dataPoints 0 (List.length dataPoints) (List.length dataPoints) in
          let filteredDataPoints :=
            if Nat.ltb startIndex endNextIndex
            then take (endNextIndex - startIndex) (drop startIndex dataPoints)
            else [] in
          match generateIsuGraphResponse_hours fuel graphDate filteredDataPoints 0
                  graphDate [] with
          | Some responseList => Some (Ret (Ok responseList))
          | None => None
          end
      end
  end.

(** ** A sorter and a store to run the model on *)

(** Insertion sort as [sort.Slice] runs it on short slices: each element in
    turn moves towards the front while it is [less] than the element before
    it.  The sorted prefix is kept back to front. *)
Module InsertionSort.

Fixpoint insert_back {A : Type} (less : A -> A -> bool) (x : A) (prefix : list A)
  : list A :=
  match prefix with
  | [] => [x]
  | y :: prefix' =>
      if less x y then y :: insert_back less x prefix' else x :: prefix
  end.

Definition insertionSort {A : Type} (less : A -> A -> bool) (data : list A) : list A :=
  reverse (foldl (fun prefix x => insert_back less x prefix) [] data).

End InsertionSort.

#[global] Instance insertionSort_SortSlice : SortSlice := {|
  sort_Slice := @InsertionSort.insertionSort;
|}.

(** The store as tables in memory; [outage] makes every statement fail. *)
Module MemStore.

Record MemDB : Type := {
  isu_table : list Isu;
  isu_condition_table : list IsuCondition;
  user_table : list string;
  outage : option error;
}.

Definition character_row (c : string) : Isu :=
  {| Isu_ID := 0; Isu_JIAIsuUUID := ""; Isu_Name := ""; Isu_Image := "";
     Isu_Character := c; Isu_JIAUserID := "" |}.

Definition id_uuid_row (i : Isu) : Isu :=
  {| Isu_ID := Isu_ID i; Isu_JIAIsuUUID := Isu_JIAIsuUUID i; Isu_Name := "";
     Isu_Image := ""; Isu_Character := ""; Isu_JIAUserID := "" |}.

Definition guarded {A : Type} (d : MemDB) (r : result A) : result A :=
  match outage d with
  | Some err => Err err
  | None => r
  end.

Definition select_characters (d : MemDB) : result (list Isu) :=
  guarded d (Ok (character_row <$> remove_dups (Isu_Character <$> isu_table d))).

Definition select_isu_by_character (d : MemDB) (c : string) : result (list Isu) :=
  guarded d
    (Ok (id_uuid_row <$>
         List.filter (fun i => String.eqb (Isu_Character i) c) (isu_table d))).

(** The row of [uuid] with the greatest timestamp, if any. *)
Fixpoint latest_row (uuid : string) (rows : list IsuCondition) : option IsuCondition :=
  match rows with
  | [] => None
  | r :: rows' =>
      if String.eqb (IsuCondition_JIAIsuUUID r) uuid then
        match latest_row uuid rows' with
        | Some r' =>
            if Z.ltb (Time_Unix (IsuCondition_Timestamp r))
                     (Time_Unix (IsuCondition_Timestamp r'))
            then Some r' else Some r
        | None => Some r
        end
      else latest_row uuid rows'
  end.

Definition get_latest_isu_condition (d : MemDB) (uuid : string) : result IsuCondition :=
  guarded d
    match latest_row uuid (isu_condition_table d) with
    | Some r => Ok r
    | None => Err sql_ErrNoRows
    end.

Definition get_isu (d : MemDB) (uuid : string) : result Isu :=
  guarded d
    match List.find (fun i => String.eqb (Isu_JIAIsuUUID i) uuid) (isu_table d) with
    | Some i => Ok i
    | None => Err sql_ErrNoRows
    end.

Definition get_user (d : MemDB) (id : string) : result Z :=
  guarded d
    (if bool_decide (id ∈ user_table d) then Ok 1%Z else Err sql_ErrNoRows).

Definition named_exec_insert (d : MemDB) (q : list IsuCondition) : option error * MemDB :=
  match outage d with
  | Some err => (Some err, d)
  | None =>
      (None,
       {| isu_table := isu_table d;
          isu_condition_table := isu_condition_table d ++ q;
          user_table := user_table d;
          outage := None |})
  end.

#[global] Instance MemDB_Store : Store MemDB := {|
  db_Select_characters := select_characters;
  db_Select_isu_by_character := select_isu_by_character;
  db_Get_latest_isu_condition := get_latest_isu_condition;
  db_Get_isu := get_isu;
  db_Get_user := get_user;
  db_NamedExec_insert := named_exec_insert;
|}.

(** The process right after [init]: empty caches, empty buffer, the empty
    snapshot of [NewTrendCache]. *)
Definition boot (d : MemDB) : World MemDB :=
  {| db := d; isuConditionCache := ∅; isuCache := ∅; userCache := ∅;
     insertQueue := NewQueue; trendCache := NewTrendCache; events := [] |}.

Definition refused : error := errors_New "dial tcp 127.0.0.1:3306: connection refused".

Definition empty_store : MemDB :=
  {| isu_table := []; isu_condition_table := []; user_table := []; outage := None |}.

Definition unreachable_store : MemDB :=
  {| isu_table := []; isu_condition_table := []; user_table := [];
     outage := Some refused |}.

Definition report (uuid : string) (sec : Z) (condition level : string) : IsuCondition :=
  {| IsuCondition_ID := 0; IsuCondition_JIAIsuUUID := uuid;
     IsuCondition_Timestamp := time_Unix sec; IsuCondition_IsSitting := true;
     IsuCondition_Condition := condition; IsuCondition_Message := "";
     IsuCondition_Level := level |}.

Definition batch_1 : list IsuCondition :=
  [report "isu-a" 10 "is_dirty=false,is_overweight=false,is_broken=false" "info";
   report "isu-b" 11 "is_dirty=true,is_overweight=false,is_broken=false" "warning"].

Definition batch_2 : list IsuCondition :=
  [report "isu-a" 12 "is_dirty=true,is_overweight=true,is_broken=true" "critical"].

Definition device (id : Z) (uuid character : string) : Isu :=
  {| Isu_ID := id; Isu_JIAIsuUUID := uuid; Isu_Name := uuid; Isu_Image := "";
     Isu_Character := character; Isu_JIAUserID := "user-1" |}.

Definition all_true : string := "is_dirty=true,is_overweight=true,is_broken=true".

(** Two devices of character X whose latest conditions are critical, at
    timestamps 10 and 20, and one device of character Y whose only row has
    no level. *)
Definition trend_store : MemDB :=
  {| isu_table := [device 1 "isu-a" "X"; device 2 "isu-b" "X"; device 3 "isu-c" "Y"];
     isu_condition_table :=
       [report "isu-a" 10 all_true "critical";
        report "isu-b" 20 all_true "critical";
        report "isu-c" 30 all_true ""];
     user_table := ["user-1"];
     outage := None |}.

Definition trend_store_down : MemDB :=
  {| isu_table := isu_table trend_store;
     isu_condition_table := isu_condition_table trend_store;
     user_table := user_table trend_store;
     outage := Some refused |}.

(** The process once the latest conditions of the two X devices have been
    read through the cache. *)
Definition warmed_up : World MemDB :=
  snd (cache_run [CondGet "isu-a"; CondGet "isu-b"] (boot trend_store)).

Definition snapshot_1 : list TrendResponse :=
  [ {| TrendResponse_Character := "X";
       TrendResponse_Info := [];
       TrendResponse_Warning := [];
       TrendResponse_Critical :=
         [ {| TrendCondition_ID := 2; TrendCondition_Timestamp := 20 |};
           {| TrendCondition_ID := 1; TrendCondition_Timestamp := 10 |} ] |};
    {| TrendResponse_Character := "Y";
       TrendResponse_Info := [];
       TrendResponse_Warning := [];
       TrendResponse_Critical := [] |} ].

(** A run of cache calls by several callers while the store goes down. *)
Definition mixed_run : list (CacheOp MemDB) :=
  [CondGet "isu-a"; IsuGet "isu-a"; CondForget "isu-b"; IsuGet "isu-b";
   StoreChange (fun _ => trend_store_down);
   CondGet "isu-a"; IsuGet "isu-a"; UserGet "user-1"; IsuForget "isu-b"].

End MemStore.

(** Requests, device lists and rows to run the further model on. *)
Module MemRuns.

Import MemStore.

Definition posted (sitting : bool) (condition : string) (sec : Z) : PostIsuConditionRequest :=
  {| PostIsuConditionRequest_IsSitting := sitting;
     PostIsuConditionRequest_Condition := condition;
     PostIsuConditionRequest_Message := "";
     PostIsuConditionRequest_Timestamp := sec |}.

Definition all_false : string := "is_dirty=false,is_overweight=false,is_broken=false".
Definition one_true : string := "is_dirty=false,is_overweight=true,is_broken=false".

Definition request_ok : list PostIsuConditionRequest :=
  [posted true all_true 40; posted false one_true 41; posted true all_false 42].

Definition request_bad : list PostIsuConditionRequest :=
  [posted true all_true 40; posted false "is_dirty=maybe" 41].

(** A device of character X that has reported nothing yet, registered next
    to the devices of [trend_store]. *)
Definition listing_store : MemDB :=
  {| isu_table := device 4 "isu-d" "X" :: isu_table trend_store;
     isu_condition_table := isu_condition_table trend_store;
     user_table := user_table trend_store;
     outage := None |}.

(** Reports of one device over three hours of a day that starts at
    [1620000000], a whole hour. *)
Definition day_start : Time := time_Unix 1620000000.

Definition day_rows : list (result IsuCondition) :=
  [Ok (report "isu-a" 1620000010 all_true "critical");
   Ok (report "isu-a" 1620000020 one_true "warning");
   Ok (report "isu-a" 1620007300 all_false "info");
   Ok (report "isu-a" 1620082800 one_true "warning")].

(** The reports the rows of [day_rows] scan to. *)
Definition day_reports : list IsuCondition :=
  [report "isu-a" 1620000010 all_true "critical";
   report "isu-a" 1620000020 one_true "warning";
   report "isu-a" 1620007300 all_false "info";
   report "isu-a" 1620082800 one_true "warning"].

End MemRuns.

(** ** Vocabulary of the properties *)

Section ClassifierVocabulary.

Local Open Scope string_scope.

Definition value_text (b : bool) : string := if b then valueTrue else valueFalse.

(** The well-formed condition strings. *)
Definition condition_text (is_dirty is_overweight is_broken : bool) : string :=
  "is_dirty=" ++ value_text is_dirty ++ ",is_overweight=" ++ value_text is_overweight
  ++ ",is_broken=" ++ value_text is_broken.

(** How many of the three assignments are [true]. *)
Definition true_count (is_dirty is_overweight is_broken : bool) : nat :=
  Nat.b2n is_dirty + Nat.b2n is_overweight + Nat.b2n is_broken.

(** What is left of the string at [idxCondStr] when the loop, entered at
    iteration [idxKeys], runs to the end and the function answers [true]. *)
Fixpoint accepted_tail (idxKeys : nat) (rest : list string) (tail : string) : Prop :=
  match rest with
  | [] => tail = ""
  | key :: rest' =>
      exists (b : bool) (tail' : string),
        tail = key ++ value_text b
               ++ (if Nat.ltb idxKeys (List.length keys - 1) then "," else "") ++ tail'
        /\ accepted_tail (S idxKeys) rest' tail'
  end.

(** What is left of the string at [idxCondStr] when the loop, entered at
    iteration [idxKeys], panics: well-formed assignments up to a value after
    which a separator is due, and nothing more. *)
Fixpoint panicking_tail (idxKeys : nat) (rest : list string) (tail : string) : Prop :=
  match rest with
  | [] => False
  | key :: rest' =>
      exists b : bool,
        Nat.ltb idxKeys (List.length keys - 1) = true
        /\ (tail = key ++ value_text b
            \/ exists tail', tail = key ++ value_text b ++ "," ++ tail'
                             /\ panicking_tail (S idxKeys) rest' tail')
  end.

End ClassifierVocabulary.

(** The device keys of drained records, record by record. *)
Definition drained_keys (q : list IsuCondition) : list string :=
  IsuCondition_JIAIsuUUID <$> q.

(** The statements sent to the store, in order. *)
Definition store_requests (es : list Event) : list Query :=
  omap (fun e => match e with StoreCall q => Some q | _ => None end) es.

Definition is_Enqueued (e : Event) : bool :=
  match e with Enqueued _ => true | _ => false end.

Definition known_level (level : string) : Prop :=
  level = "info" \/ level = "warning" \/ level = "critical".

(** Later elements carry timestamps no greater than earlier ones. *)
Definition descending (l : list TrendCondition) : Prop :=
  StronglySorted
    (fun a b => (TrendCondition_Timestamp b <= TrendCondition_Timestamp a)%Z) l.

Definition buckets_descending (e : TrendResponse) : Prop :=
  descending (TrendResponse_Info e)
  /\ descending (TrendResponse_Warning e)
  /\ descending (TrendResponse_Critical e).

(** Everything a character's three buckets hold. *)
Definition bucketed (b : Buckets) : list TrendCondition :=
  characterInfoIsuConditions b ++ characterWarningIsuConditions b
  ++ characterCriticalIsuConditions b.

Definition trendCondition_of (isu : Isu) (cond : IsuCondition) : TrendCondition :=
  {| TrendCondition_ID := Isu_ID isu;
     TrendCondition_Timestamp := Time_Unix (IsuCondition_Timestamp cond) |}.

Section Vocabulary.

Context {DB : Type} `{Store DB} `{SortSlice}.

(** What one flush round appends to the trace. *)
Definition flush_trace (d : DB) (q : list IsuCondition) : list Event :=
  match q with
  | [] => [Drained []]
  | _ :: _ =>
      [Drained q] ++ (ConditionForgotten <$> drained_keys q)
      ++ [StoreCall (InsertIsuConditions q)]
      ++ match fst (db_NamedExec_insert d q) with
         | Some err => [LogLine "failed to insert isu condition: %v" err]
         | None => []
         end
  end.

(** [n] calls of [IsuConditionCache.Get] for the same key in a row. *)
Fixpoint IsuConditionCache_Get_times (n : nat) (k : string) (w : World DB)
  : list (result IsuCondition) * World DB :=
  match n with
  | O => ([], w)
  | S n' =>
      let '(r, w) := IsuConditionCache_Get k w in
      let '(rs, w) := IsuConditionCache_Get_times n' k w in
      (r :: rs, w)
  end.

(** What [isuConditionCache.Get] answers for a key in a given state. *)
Definition answer (w : World DB) (k : string) : result IsuCondition :=
  fst (IsuConditionCache_Get k w).

(** Two states that read alike: the same store and the same answers. *)
Definition same_reads (w w' : World DB) : Prop :=
  db w' = db w /\ forall k, answer w' k = answer w k.

(** The inner loop of [calculateTrend] as a function of the answers read. *)
Fixpoint fill (ans : string -> result IsuCondition) (isuList : list Isu) (b : Buckets)
  : option Buckets :=
  match isuList with
  | [] => Some b
  | isu :: isuList' =>
      match ans (Isu_JIAIsuUUID isu) with
      | Err err =>
          if errors_Is err sql_ErrNoRows then fill ans isuList' b else None
      | Ok cond =>
          fill ans isuList' (bucket (IsuCondition_Level cond) (trendCondition_of isu cond) b)
      end
  end.

(** The entry appended to [res] for one character. *)
Definition entry (character : Isu) (b : Buckets) : TrendResponse :=
  {| TrendResponse_Character := Isu_Character character;
     TrendResponse_Info := sort_Slice by_Timestamp_desc (characterInfoIsuConditions b);
     TrendResponse_Warning :=
       sort_Slice by_Timestamp_desc (characterWarningIsuConditions b);
     TrendResponse_Critical :=
       sort_Slice by_Timestamp_desc (characterCriticalIsuConditions b) |}.

(** The outer loop of [calculateTrend] as a function of what is read. *)
Fixpoint fill_characters (d : DB) (ans : string -> result IsuCondition)
    (characterList : list Isu) (res : list TrendResponse) : option (list TrendResponse) :=
  match characterList with
  | [] => Some res
  | character :: characterList' =>
      match db_Select_isu_by_character d (Isu_Character character) with
      | Err _ => None
      | Ok isuList =>
          match fill ans isuList emptyBuckets with
          | None => None
          | Some b => fill_characters d ans characterList' (res ++ [entry character b])
          end
      end
  end.

Definition trend_of (d : DB) (ans : string -> result IsuCondition)
  : option (list TrendResponse) :=
  match db_Select_characters d with
  | Err _ => None
  | Ok characterList => fill_characters d ans characterList []
  end.

(** What a completed recompute returns: one entry per character, in the
    order of the character list, each built from the devices the store
    lists for that character. *)
Definition entry_for (d : DB) (ans : string -> result IsuCondition)
    (character : Isu) (e : TrendResponse) : Prop :=
  exists isuList b,
    db_Select_isu_by_character d (Isu_Character character) = Ok isuList
    /\ fill ans isuList emptyBuckets = Some b
    /\ e = entry character b.

(** A recompute in which a read fails with an error other than
    [sql.ErrNoRows]: the list of characters, the devices of one of the
    characters, or the latest condition of one of those devices. *)
Inductive read_fails (w : World DB) : Prop :=
| characters_fail (err : error) :
    db_Select_characters (db w) = Err err ->
    errors_Is err sql_ErrNoRows = false ->
    read_fails w
| devices_fail (characterList : list Isu) (character : Isu) (err : error) :
    db_Select_characters (db w) = Ok characterList ->
    character ∈ characterList ->
    db_Select_isu_by_character (db w) (Isu_Character character) = Err err ->
    errors_Is err sql_ErrNoRows = false ->
    read_fails w
| condition_fails (characterList : list Isu) (character : Isu)
    (isuList : list Isu) (isu : Isu) (err : error) :
    db_Select_characters (db w) = Ok characterList ->
    character ∈ characterList ->
    db_Select_isu_by_character (db w) (Isu_Character character) = Ok isuList ->
    isu ∈ isuList ->
    fst (IsuConditionCache_Get (Isu_JIAIsuUUID isu) w) = Err err ->
    errors_Is err sql_ErrNoRows = false ->
    read_fails w.

End Vocabulary.

(** ** Vocabulary of the further properties *)

(** What a cache makes of the store's answer on a miss. *)
Definition loaded {A : Type} (r : result A) : result A :=
  match r with
  | Ok a => Ok a
  | Err err => if errors_Is err sql_ErrNoRows then Err sql_ErrNoRows else Err err
  end.

(** The record [postIsuCondition] builds from one element of the request. *)
Definition enqueued_record (jiaIsuUUID : string) (cond : PostIsuConditionRequest)
  : IsuCondition :=
  {| IsuCondition_ID := 0;
     IsuCondition_JIAIsuUUID := jiaIsuUUID;
     IsuCondition_Timestamp := time_Unix (PostIsuConditionRequest_Timestamp cond);
     IsuCondition_IsSitting := PostIsuConditionRequest_IsSitting cond;
     IsuCondition_Condition := PostIsuConditionRequest_Condition cond;
     IsuCondition_Message := PostIsuConditionRequest_Message cond;
     IsuCondition_Level := fst (calculateConditionLevel (PostIsuConditionRequest_Condition cond)) |}.

Section FurtherVocabulary.

Context {DB : Type} `{Store DB}.

(** [Insert] called once per batch, in order. *)
Definition InsertQueue_Insert_all (batches : list (list IsuCondition)) (w : World DB)
  : World DB :=
  foldl (fun w conds => InsertQueue_Insert conds w) w batches.

End FurtherVocabulary.

Section ListingVocabulary.

Context {DB : Type} `{Store DB}.

(** The loop of [getIsuList] as a function of the answers read. *)
Fixpoint isuList_responses (ans : string -> result IsuCondition) (isuList : list Isu)
    (found : bool) (responseList : list GetIsuListResponse)
  : option (list GetIsuListResponse) :=
  match isuList with
  | [] => Some responseList
  | isu :: isuList' =>
      match ans (Isu_JIAIsuUUID isu) with
      | Err err =>
          if errors_Is err sql_ErrNoRows then
            isuList_responses ans isuList' false
              (responseList ++ [isuListResponse_of isu None])
          else None
      | Ok lastCondition =>
          isuList_responses ans isuList' found
            (responseList ++
             [isuListResponse_of isu
                (if found then Some (formattedCondition_of isu lastCondition) else None)])
      end
  end.

(** The parts of the state a recompute has no business with. *)
Definition bystanders (w : World DB) : list IsuCondition * gmap string Isu * gset string :=
  (insertQueue w, isuCache w, userCache w).

End ListingVocabulary.

(** The devices of a list whose latest condition carries a given level, as
    bucket entries, in the order of the list. *)
Definition conditions_at (ans : string -> result IsuCondition) (level : string)
    (isuList : list Isu) : list TrendCondition :=
  omap (fun isu =>
          match ans (Isu_JIAIsuUUID isu) with
          | Ok cond =>
              if String.eqb (IsuCondition_Level cond) level
              then Some (trendCondition_of isu cond) else None
          | Err _ => None
          end) isuList.

(** The sum of [f] over a list. *)
Definition Z_sum {A : Type} (f : A -> Z) (l : list A) : Z :=
  foldr (fun a acc => (f a + acc)%Z) 0%Z l.

(** The score a condition of a given level adds to a graph data point. *)
Definition level_score (level : string) : Z :=
  if String.eqb level conditionLevelCritical then scoreConditionLevelCritical
  else if String.eqb level conditionLevelWarning then scoreConditionLevelWarning
  else scoreConditionLevelInfo.

(** The score of a group of conditions before scaling: the scores of their
    levels as [calculateConditionLevel] computes them. *)
Definition raw_score (isuConditions : list IsuCondition) : Z :=
  Z_sum (fun c => level_score (fst (calculateConditionLevel (IsuCondition_Condition c))))
        isuConditions.

(** How many conditions of a group assign [true] to a flag. *)
Definition flag_count (flag : string) (isuConditions : list IsuCondition) : Z :=
  Z_sum (fun c => Z.of_nat (strings_Count (IsuCondition_Condition c)
                              (String.append flag "=true")))
        isuConditions.

(** How many conditions of a group were reported sitting. *)
Definition sitting_count (isuConditions : list IsuCondition) : Z :=
  Z_sum (fun c => if IsuCondition_IsSitting c then 1%Z else 0%Z) isuConditions.

(** A stored report whose condition the validator accepts. *)
Definition valid_condition (c : IsuCondition) : Prop :=
  isValidConditionFormat (IsuCondition_Condition c) = Ret true.

(** The counter update [calculateGraphDataPoint] makes for one flag. *)
Definition bump (b : bool) (flag : string) (conditionsCount : gmap string Z)
  : gmap string Z :=
  if b then <[flag := GoInt.add (map_index conditionsCount flag) 1]> conditionsCount
  else conditionsCount.

(** The data point of a group of reports, by the formulas of
    [calculateGraphDataPoint]. *)
Definition graph_data_point (isuConditions : list IsuCondition) : GraphDataPoint :=
  let n := Z.of_nat (List.length isuConditions) in
  {| GraphDataPoint_Score := (raw_score isuConditions * 100 / 3 / n)%Z;
     GraphDataPoint_Percentage :=
       {| ConditionsPercentage_Sitting := (sitting_count isuConditions * 100 / n)%Z;
          ConditionsPercentage_IsBroken :=
            (flag_count "is_broken" isuConditions * 100 / n)%Z;
          ConditionsPercentage_IsDirty :=
            (flag_count "is_dirty" isuConditions * 100 / n)%Z;
          ConditionsPercentage_IsOverweight :=
            (flag_count "is_overweight" isuConditions * 100 / n)%Z |} |}.

(** The hour of the day that starts at [graphDate] in which a report falls,
    counted from 0. *)
Definition hour_index (graphDate : Time) (c : IsuCondition) : nat :=
  Z.to_nat ((unix_sec (IsuCondition_Timestamp c) - unix_sec graphDate) / 3600).

(** The reports of a day that fall in its hour [k], in their order. *)
Definition reports_in_hour (graphDate : Time) (k : nat) (isuConditions : list IsuCondition)
  : list IsuCondition :=
  List.filter (fun c => Nat.eqb (hour_index graphDate c) k) isuConditions.

(** The data point [generateIsuGraphResponse] keeps for hour [k], if any
    report falls in it. *)
Definition hour_point (jiaIsuUUID : string) (graphDate : Time)
    (isuConditions : list IsuCondition) (k : nat) : option GraphDataPointWithInfo :=
  match reports_in_hour graphDate k isuConditions with
  | [] => None
  | group =>
      Some {| GraphDataPointWithInfo_JIAIsuUUID := jiaIsuUUID;
              GraphDataPointWithInfo_StartAt := Time_Add_Hours graphDate (Z.of_nat k);
              GraphDataPointWithInfo_Data := graph_data_point group;
              GraphDataPointWithInfo_ConditionTimestamps :=
                (fun c => Time_Unix (IsuCondition_Timestamp c)) <$> group |}
  end.

(** The entry of the response for hour [k]. *)
Definition hour_slot (graphDate : Time) (isuConditions : list IsuCondition) (k : nat)
  : GraphResponse :=
  let group := reports_in_hour graphDate k isuConditions in
  {| GraphResponse_StartAt := (Time_Unix graphDate + 3600 * Z.of_nat k)%Z;
     GraphResponse_EndAt := (Time_Unix graphDate + 3600 * Z.of_nat k + 3600)%Z;
     GraphResponse_Data :=
       match group with
       | [] => None
       | _ => Some (graph_data_point group)
       end;
     GraphResponse_ConditionTimestamps :=
       (fun c => Time_Unix (IsuCondition_Timestamp c)) <$> group |}.

(** A report falls in the day that starts at [graphDate], as the [WHERE]
    clause of the statement of [generateIsuGraphResponse] asks. *)
Definition within_day (graphDate : Time) (c : IsuCondition) : Prop :=
  (unix_sec graphDate <= unix_sec (IsuCondition_Timestamp c)
   < unix_sec graphDate + 86400)%Z.

(** The reports come in the order of [ORDER BY `timestamp` ASC]. *)
Definition by_Timestamp_asc (isuConditions : list IsuCondition) : Prop :=
  StronglySorted
    (fun a b => (unix_sec (IsuCondition_Timestamp a)
                 <= unix_sec (IsuCondition_Timestamp b))%Z)
    isuConditions.

(** * Properties *)

(** ** Go strings *)

Section Classifier.

Local Open Scope string_scope.

Lemma len_append (s t : string) : len (s ++ t) = len s + len t.
Proof. unfold len. induction s as [|c s IH]; simpl; [reflexivity | now rewrite IH]. Qed.

Lemma len_drop_bytes (n : nat) (s : string) : len (drop_bytes n s) = len s - n.
Proof.
  revert s. induction n as [|n IH]; intros s; simpl.
  - unfold len. lia.
  - destruct s as [|c s]; simpl; [reflexivity | apply IH].
Qed.

Lemma drop_bytes_add (i n : nat) (s : string) :
  drop_bytes (i + n) s = drop_bytes n (drop_bytes i s).
Proof.
  revert s. induction i as [|i IH]; intros s; simpl; [reflexivity |].
  destruct s as [|c s]; [now destruct n | apply IH].
Qed.

Lemma drop_bytes_append (p r : string) : drop_bytes (len p) (p ++ r) = r.
Proof. induction p as [|c p IH]; simpl; [reflexivity | exact IH]. Qed.

Lemma drop_bytes_all (n : nat) (s : string) : len s <= n -> drop_bytes n s = "".
Proof.
  revert s. induction n as [|n IH]; intros [|c s] Hn; simpl in *; try reflexivity.
  - unfold len in Hn. simpl in Hn. lia.
  - apply IH. unfold len in *. simpl in Hn. lia.
Qed.

Lemma slice_from_in_range (s : string) (i : nat) :
  i <= len s -> slice_from s i = Ret (drop_bytes i s).
Proof.
  intros Hi. unfold slice_from.
  destruct (Nat.leb_spec i (len s)); [reflexivity | lia].
Qed.

(** [strings.HasPrefix] holds exactly of the strings that start with the prefix. *)
Lemma strings_HasPrefix_split (s p : string) :
  strings_HasPrefix s p = true -> s = p ++ drop_bytes (len p) s.
Proof.
  unfold strings_HasPrefix. revert s.
  induction p as [|c p IH]; intros s Hp; [reflexivity |].
  destruct s as [|d s]; simpl in Hp; [discriminate |].
  destruct (ascii_dec c d) as [->|]; [| discriminate].
  change (String d s = String d (p ++ drop_bytes (len p) s)).
  f_equal. now apply IH.
Qed.

Lemma index_drop_bytes (s : string) (i : nat) :
  index s i = match drop_bytes i s with
              | EmptyString => Panic "index out of range"
              | String c _ => Ret c
              end.
Proof.
  unfold index. revert s.
  induction i as [|i IH]; intros [|c s]; simpl; try reflexivity. apply IH.
Qed.

(** ** Severity classifier *)

(** One round of the loop, by cases on what is left of the string: either
    the round answers [false]; or the key and a value are there, and then the
    round panics on an exhausted string where a separator is due, answers
    [false] on a byte that is not the separator, or goes on to the next key. *)
Lemma isValidConditionFormat_loop_round (conditionStr key : string)
    (rest : list string) (idxKeys idxCondStr : nat) :
  idxCondStr <= len conditionStr ->
  let run := isValidConditionFormat_loop conditionStr idxKeys (key :: rest) idxCondStr in
  run = Ret false
  \/ exists b : bool,
      let j := idxCondStr + len key + len (value_text b) in
      drop_bytes idxCondStr conditionStr
      = key ++ value_text b ++ drop_bytes j conditionStr
      /\ j <= len conditionStr
      /\ if Nat.ltb idxKeys 2 then
           (drop_bytes j conditionStr = "" /\ run = Panic "index out of range")
           \/ (exists c t, drop_bytes j conditionStr = String c t /\ c <> ","%char
                           /\ run = Ret false)
           \/ (drop_bytes j conditionStr = "," ++ drop_bytes (j + 1) conditionStr
               /\ j + 1 <= len conditionStr
               /\ run = isValidConditionFormat_loop conditionStr (S idxKeys) rest (j + 1))
         else run = isValidConditionFormat_loop conditionStr (S idxKeys) rest j.
Proof.
  intros Hi run. subst run. rename idxCondStr into i.
  cbn [isValidConditionFormat_loop].
  rewrite (slice_from_in_range _ _ Hi). cbn [bind].
  destruct (strings_HasPrefix (drop_bytes i conditionStr) key) eqn:Hkey;
    cbn [negb]; [| now left].
  apply strings_HasPrefix_split in Hkey.
  assert (Hi1 : i + len key <= len conditionStr).
  { apply (f_equal len) in Hkey. rewrite len_append, !len_drop_bytes in Hkey. lia. }
  rewrite <- drop_bytes_add in Hkey.
  rewrite (slice_from_in_range _ _ Hi1). cbn [bind].
  set (t1 := drop_bytes (i + len key) conditionStr) in *.
  assert (Hvalue : forall b, strings_HasPrefix t1 (value_text b) = true ->
            t1 = value_text b ++ drop_bytes (i + len key + len (value_text b)) conditionStr
            /\ i + len key + len (value_text b) <= len conditionStr).
  { intros b Hb. apply strings_HasPrefix_split in Hb. unfold t1 in Hb at 2.
    rewrite <- drop_bytes_add in Hb. split; [exact Hb |].
    apply (f_equal len) in Hb. unfold t1 in Hb.
    rewrite len_append, !len_drop_bytes in Hb.
    assert (0 < len (value_text b)) by (destruct b; cbn; lia). lia. }
  assert (Hsep : forall j, j <= len conditionStr ->
            let run := if Nat.ltb idxKeys (List.length keys - 1) then
                         do c <- index conditionStr j ;;
                         if negb (Ascii.eqb c ",") then Ret false
                         else isValidConditionFormat_loop conditionStr (S idxKeys) rest (j + 1)
                       else isValidConditionFormat_loop conditionStr (S idxKeys) rest j in
            if Nat.ltb idxKeys 2 then
              (drop_bytes j conditionStr = "" /\ run = Panic "index out of range")
              \/ (exists c t, drop_bytes j conditionStr = String c t /\ c <> ","%char
                              /\ run = Ret false)
              \/ (drop_bytes j conditionStr = "," ++ drop_bytes (j + 1) conditionStr
                  /\ j + 1 <= len conditionStr
                  /\ run = isValidConditionFormat_loop conditionStr (S idxKeys) rest (j + 1))
            else run = isValidConditionFormat_loop conditionStr (S idxKeys) rest j).
  { intros j Hj run. subst run. change (List.length keys - 1) with 2.
    destruct (Nat.ltb idxKeys 2); [| reflexivity].
    rewrite index_drop_bytes.
    destruct (drop_bytes j conditionStr) as [|c t2] eqn:Ht2; cbn [bind]; [now left |].
    right. destruct (Ascii.eqb_spec c ","%char) as [->|Hc]; cbn [negb].
    - right. rewrite drop_bytes_add, Ht2. repeat split.
      apply (f_equal len) in Ht2. rewrite len_drop_bytes in Ht2.
      unfold len in Ht2 at 2. cbn in Ht2. lia.
    - left. now exists c, t2. }
  destruct (strings_HasPrefix t1 valueTrue) eqn:Ht.
  - right. exists true. destruct (Hvalue true Ht) as [Hb Hj]. cbv zeta.
    split; [now rewrite Hkey, Hb | split; [exact Hj |]].
    cbn [bind]. apply (Hsep _ Hj).
  - cbn [bind]. fold t1.
    destruct (strings_HasPrefix t1 valueFalse) eqn:Hf; [| now left].
    right. exists false. destruct (Hvalue false Hf) as [Hb Hj]. cbv zeta.
    split; [now rewrite Hkey, Hb | split; [exact Hj |]].
    cbn [bind]. apply (Hsep _ Hj).
Qed.

Lemma isValidConditionFormat_loop_accepts (conditionStr : string) (rest : list string) :
  forall idxKeys idxCondStr,
    idxCondStr <= len conditionStr ->
    isValidConditionFormat_loop conditionStr idxKeys rest idxCondStr = Ret true ->
    accepted_tail idxKeys rest (drop_bytes idxCondStr conditionStr).
Proof.
  induction rest as [|key rest IH]; intros idxKeys i Hi Hrun.
  - cbn in *. injection Hrun as Hrun. apply Nat.eqb_eq in Hrun.
    apply drop_bytes_all. lia.
  - destruct (isValidConditionFormat_loop_round conditionStr key rest idxKeys i Hi)
      as [Hfalse | (b & Htail & Hj & Hnext)]; [congruence |].
    cbn [accepted_tail]. change (List.length keys - 1) with 2.
    exists b. destruct (Nat.ltb idxKeys 2).
    + destruct Hnext as [[_ Hp] | [(c & t & _ & _ & Hf) | (Hsep & Hj1 & Hgo)]];
        [congruence.. |].
      exists (drop_bytes (i + len key + len (value_text b) + 1) conditionStr).
      split; [now rewrite Htail, Hsep |].
      apply IH; [exact Hj1 | congruence].
    + exists (drop_bytes (i + len key + len (value_text b)) conditionStr).
      split; [exact Htail |].
      apply IH; [exact Hj | congruence].
Qed.

Lemma isValidConditionFormat_loop_panics (conditionStr : string) (rest : list string) :
  forall idxKeys idxCondStr msg,
    idxCondStr <= len conditionStr ->
    isValidConditionFormat_loop conditionStr idxKeys rest idxCondStr = Panic msg ->
    msg = "index out of range"
    /\ panicking_tail idxKeys rest (drop_bytes idxCondStr conditionStr).
Proof.
  induction rest as [|key rest IH]; intros idxKeys i msg Hi Hrun; [discriminate |].
  destruct (isValidConditionFormat_loop_round conditionStr key rest idxKeys i Hi)
    as [Hfalse | (b & Htail & Hj & Hnext)]; [congruence |].
  cbn [panicking_tail]. change (List.length keys - 1) with 2.
  destruct (Nat.ltb idxKeys 2) eqn:Hlt.
  - destruct Hnext as [[Hend Hp] | [(c & t & _ & _ & Hf) | (Hsep & Hj1 & Hgo)]];
      [| congruence |].
    + split; [congruence |]. exists b. split; [reflexivity | left].
      rewrite Htail, Hend. now destruct b.
    + rewrite Hgo in Hrun. destruct (IH _ _ _ Hj1 Hrun) as [-> Htail'].
      split; [reflexivity |]. exists b. split; [reflexivity | right].
      exists (drop_bytes (i + len key + len (value_text b) + 1) conditionStr).
      split; [now rewrite Htail, Hsep | exact Htail'].
  - rewrite Hnext in Hrun. destruct (IH _ _ _ Hj Hrun) as [_ Htail'].
    exfalso. destruct rest as [|key' rest]; [exact Htail' |].
    destruct Htail' as (b' & Hlt' & _). revert Hlt'.
    change (List.length keys - 1) with 2.
    apply Nat.ltb_ge in Hlt. rewrite Nat.ltb_lt. lia.
Qed.

(** The validator answers [true] exactly on the eight well-formed strings. *)
Lemma isValidConditionFormat_true_iff (conditionStr : string) :
  isValidConditionFormat conditionStr = Ret true <->
  exists is_dirty is_overweight is_broken,
    conditionStr = condition_text is_dirty is_overweight is_broken.
Proof.
  split.
  - intros Hrun. unfold isValidConditionFormat in Hrun.
    apply isValidConditionFormat_loop_accepts in Hrun; [| lia].
    simpl in Hrun.
    destruct Hrun as (b1 & t1 & H1 & b2 & t2 & H2 & b3 & t3 & H3 & ->).
    subst. exists b1, b2, b3. now destruct b1, b2, b3.
  - intros (b1 & b2 & b3 & ->). now destruct b1, b2, b3.
Qed.

(** The inputs on which the validator panics. *)
Lemma isValidConditionFormat_panics_iff (conditionStr : string) :
  (exists msg, isValidConditionFormat conditionStr = Panic msg) <->
  (exists is_dirty, conditionStr = "is_dirty=" ++ value_text is_dirty)
  \/ (exists is_dirty is_overweight,
         conditionStr = "is_dirty=" ++ value_text is_dirty
                        ++ ",is_overweight=" ++ value_text is_overweight).
Proof.
  split.
  - intros [msg Hrun]. unfold isValidConditionFormat in Hrun.
    apply isValidConditionFormat_loop_panics in Hrun as [_ Htail]; [| lia].
    cbn in Htail. destruct Htail as (b1 & _ & [-> | (t1 & -> & b2 & _ & H2)]).
    + left. now exists b1.
    + right. exists b1, b2.
      destruct H2 as [-> | (t2 & -> & b3 & Hlt & _)]; [reflexivity | discriminate].
  - intros [[b1 ->] | (b1 & b2 & ->)]; exists "index out of range".
    + now destruct b1.
    + now destruct b1, b2.
Qed.

(** The validator never slices out of range, and it answers on every input
    on which it does not panic. *)
Lemma isValidConditionFormat_answers (conditionStr : string) :
  (exists answer : bool, isValidConditionFormat conditionStr = Ret answer)
  \/ isValidConditionFormat conditionStr = Panic "index out of range".
Proof.
  destruct (isValidConditionFormat conditionStr) as [answer|msg] eqn:Hrun.
  - left. now exists answer.
  - right. unfold isValidConditionFormat in Hrun.
    now apply isValidConditionFormat_loop_panics in Hrun as [-> _]; [| lia].
Qed.

(** C2 (as the code has it). The validator does not answer on every input:
    when the string ends right after the first or the second value, the
    separator test [conditionStr[idxCondStr] != ','] reads one byte past the
    end and the call panics instead of returning [false]. *)
Theorem isValidConditionFormat_truncated_input_panics :
  (forall is_dirty,
      isValidConditionFormat ("is_dirty=" ++ value_text is_dirty)
      = Panic "index out of range")
  /\ (forall is_dirty is_overweight,
      isValidConditionFormat
        ("is_dirty=" ++ value_text is_dirty
         ++ ",is_overweight=" ++ value_text is_overweight)
      = Panic "index out of range")
  /\ isValidConditionFormat "is_dirty=true" = Panic "index out of range".
Proof.
  split; [| split].
  - intros []; reflexivity.
  - intros [] []; reflexivity.
  - reflexivity.
Qed.

(** C3. On every string the validator accepts, [calculateConditionLevel]
    returns no error, and the level is info when none of the three
    assignments is true, warning when one or two are, critical when all three
    are. *)
Theorem calculateConditionLevel_of_valid (condition : string) :
  isValidConditionFormat condition = Ret true ->
  exists is_dirty is_overweight is_broken,
    condition = condition_text is_dirty is_overweight is_broken
    /\ snd (calculateConditionLevel condition) = None
    /\ (true_count is_dirty is_overweight is_broken = 0 ->
        fst (calculateConditionLevel condition) = conditionLevelInfo)
    /\ (true_count is_dirty is_overweight is_broken = 1
        \/ true_count is_dirty is_overweight is_broken = 2 ->
        fst (calculateConditionLevel condition) = conditionLevelWarning)
    /\ (true_count is_dirty is_overweight is_broken = 3 ->
        fst (calculateConditionLevel condition) = conditionLevelCritical).
Proof.
  intros Hvalid. apply isValidConditionFormat_true_iff in Hvalid.
  destruct Hvalid as (b1 & b2 & b3 & ->). exists b1, b2, b3.
  destruct b1, b2, b3; cbn; repeat split; intros; try reflexivity; lia.
Qed.

Lemma calculateConditionLevel_of_valid_witness :
  exists is_dirty is_overweight is_broken,
    "is_dirty=true,is_overweight=false,is_broken=true"
    = condition_text is_dirty is_overweight is_broken
    /\ snd (calculateConditionLevel "is_dirty=true,is_overweight=false,is_broken=true")
       = None
    /\ (true_count is_dirty is_overweight is_broken = 0 ->
        fst (calculateConditionLevel "is_dirty=true,is_overweight=false,is_broken=true")
        = conditionLevelInfo)
    /\ (true_count is_dirty is_overweight is_broken = 1
        \/ true_count is_dirty is_overweight is_broken = 2 ->
        fst (calculateConditionLevel "is_dirty=true,is_overweight=false,is_broken=true")
        = conditionLevelWarning)
    /\ (true_count is_dirty is_overweight is_broken = 3 ->
        fst (calculateConditionLevel "is_dirty=true,is_overweight=false,is_broken=true")
        = conditionLevelCritical).
Proof.
  apply (calculateConditionLevel_of_valid
           "is_dirty=true,is_overweight=false,is_broken=true").
  reflexivity.
Defined.

End Classifier.

(** ** Write buffer and flush cycle *)

Section Buffer.

Context {DB : Type} `{Store DB}.

Implicit Types (w : World DB) (q conds : list IsuCondition).

Lemma InsertQueue_PopAll_after_Insert w conds :
  fst (InsertQueue_PopAll (InsertQueue_Insert conds w)) = insertQueue w ++ conds.
Proof. reflexivity. Qed.

Lemma InsertQueue_PopAll_empties w : insertQueue (snd (InsertQueue_PopAll w)) = [].
Proof. reflexivity. Qed.

(** C6. On an empty buffer, [Insert A] then [Insert B] then [PopAll] hands
    back the records of [A] followed by those of [B]; a second [PopAll]
    right after hands back nothing, and the buffer is left empty. *)
Theorem InsertQueue_PopAll_fifo w (A B : list IsuCondition) :
  insertQueue w = [] ->
  let w1 := InsertQueue_Insert B (InsertQueue_Insert A w) in
  let w2 := snd (InsertQueue_PopAll w1) in
  fst (InsertQueue_PopAll w1) = A ++ B
  /\ fst (InsertQueue_PopAll w2) = []
  /\ insertQueue (snd (InsertQueue_PopAll w2)) = [].
Proof.
  intros Hempty. cbn. rewrite Hempty. repeat split.
Qed.

Lemma forget_drained_events q : forall w,
  events (forget_drained q w) = events w ++ (ConditionForgotten <$> drained_keys q).
Proof.
  induction q as [|cond q IH]; intros w; simpl.
  - now rewrite app_nil_r.
  - rewrite IH. cbn. now rewrite <- app_assoc.
Qed.

Lemma forget_drained_frame q : forall w,
  db (forget_drained q w) = db w
  /\ insertQueue (forget_drained q w) = insertQueue w
  /\ isuCache (forget_drained q w) = isuCache w
  /\ userCache (forget_drained q w) = userCache w
  /\ trendCache (forget_drained q w) = trendCache w.
Proof.
  induction q as [|cond q IH]; intros w; simpl; [repeat split |].
  destruct (IH (IsuConditionCache_Forget (IsuCondition_JIAIsuUUID cond) w))
    as (-> & -> & -> & -> & ->). repeat split.
Qed.

Lemma forget_drained_lookup q : forall w k,
  isuConditionCache (forget_drained q w) !! k
  = if bool_decide (k ∈ drained_keys q) then None else isuConditionCache w !! k.
Proof.
  induction q as [|cond q IH]; intros w k.
  - rewrite bool_decide_eq_false_2; [reflexivity | apply not_elem_of_nil].
  - cbn [forget_drained]. rewrite IH.
    change (drained_keys (cond :: q))
      with (IsuCondition_JIAIsuUUID cond :: drained_keys q).
    change (isuConditionCache (IsuConditionCache_Forget (IsuCondition_JIAIsuUUID cond) w))
      with (delete (IsuCondition_JIAIsuUUID cond) (isuConditionCache w)).
    destruct (decide (k ∈ drained_keys q)) as [Hin|Hout].
    + rewrite !bool_decide_eq_true_2; [reflexivity | now right | exact Hin].
    + rewrite (bool_decide_eq_false_2 _ Hout).
      destruct (decide (k = IsuCondition_JIAIsuUUID cond)) as [->|Hne].
      * rewrite bool_decide_eq_true_2 by left. apply lookup_delete_eq.
      * rewrite bool_decide_eq_false_2.
        -- now apply lookup_delete_ne.
        -- intros Hin. apply elem_of_cons in Hin as [?|?]; congruence.
Qed.

Lemma store_requests_app (es es' : list Event) :
  store_requests (es ++ es') = store_requests es ++ store_requests es'.
Proof. apply omap_app. Qed.

Lemma store_requests_forgotten (ks : list string) :
  store_requests (ConditionForgotten <$> ks) = [].
Proof. induction ks as [|k ks IH]; [reflexivity | exact IH]. Qed.

Lemma insertIsuConditionScheduled_tick_events w :
  events (insertIsuConditionScheduled_tick w)
  = events w ++ flush_trace (db w) (insertQueue w).
Proof.
  unfold insertIsuConditionScheduled_tick, InsertQueue_PopAll.
  destruct (insertQueue w) as [|cond q] eqn:Hq; [reflexivity |].
  cbn [List.length Nat.eqb flush_trace].
  set (w1 := emit (Drained (cond :: q)) (set_insertQueue [] w)).
  assert (Hdb : db (forget_drained (cond :: q) w1) = db w)
    by (now destruct (forget_drained_frame (cond :: q) w1) as (-> & _)).
  cbn [db emit]. rewrite Hdb.
  destruct (db_NamedExec_insert (db w) (cond :: q)) as [[err|] d];
    cbn; rewrite forget_drained_events; cbn; rewrite <- ?app_assoc; reflexivity.
Qed.

Lemma insertIsuConditionScheduled_tick_queue w :
  insertQueue (insertIsuConditionScheduled_tick w) = [].
Proof.
  unfold insertIsuConditionScheduled_tick, InsertQueue_PopAll.
  destruct (insertQueue w) as [|cond q] eqn:Hq; [reflexivity |].
  cbn [List.length Nat.eqb].
  set (w1 := emit (Drained (cond :: q)) (set_insertQueue [] w)).
  destruct (forget_drained_frame (cond :: q) w1) as (_ & Hqueue & _).
  destruct (db_NamedExec_insert _ _) as [[err|] d]; cbn; exact Hqueue.
Qed.

Lemma insertIsuConditionScheduled_tick_db w :
  db (insertIsuConditionScheduled_tick w)
  = match insertQueue w with
    | [] => db w
    | _ :: _ => snd (db_NamedExec_insert (db w) (insertQueue w))
    end.
Proof.
  unfold insertIsuConditionScheduled_tick, InsertQueue_PopAll.
  destruct (insertQueue w) as [|cond q] eqn:Hq; [reflexivity |].
  cbn [List.length Nat.eqb].
  set (w1 := emit (Drained (cond :: q)) (set_insertQueue [] w)).
  assert (Hdb : db (forget_drained (cond :: q) w1) = db w)
    by (now destruct (forget_drained_frame (cond :: q) w1) as (-> & _)).
  cbn [db emit]. rewrite Hdb.
  destruct (db_NamedExec_insert (db w) (cond :: q)) as [[err|] d]; reflexivity.
Qed.

Lemma insertIsuConditionScheduled_tick_lookup w k :
  isuConditionCache (insertIsuConditionScheduled_tick w) !! k
  = if bool_decide (k ∈ drained_keys (insertQueue w)) then None
    else isuConditionCache w !! k.
Proof.
  unfold insertIsuConditionScheduled_tick, InsertQueue_PopAll.
  destruct (insertQueue w) as [|cond q] eqn:Hq.
  - rewrite bool_decide_eq_false_2; [reflexivity | apply not_elem_of_nil].
  - cbn [List.length Nat.eqb].
    set (w1 := emit (Drained (cond :: q)) (set_insertQueue [] w)).
    transitivity (isuConditionCache (forget_drained (cond :: q) w1) !! k);
      [| exact (forget_drained_lookup (cond :: q) w1 k)].
    destruct (db_NamedExec_insert _ _) as [[err|] d]; reflexivity.
Qed.

(** C4. When the batched insert of a flush round fails, the failure is
    logged and the batch is gone: the round sends the insert once, puts
    nothing back into the buffer, and leaves the buffer as [PopAll] left
    it, empty. *)
Theorem failed_insert_is_logged_and_dropped w (err : error) :
  insertQueue w <> [] ->
  fst (db_NamedExec_insert (db w) (insertQueue w)) = Some err ->
  let w' := insertIsuConditionScheduled_tick w in
  (exists before,
      events w' = events w ++ before
                  ++ [LogLine "failed to insert isu condition: %v" err]
      /\ store_requests before = [InsertIsuConditions (insertQueue w)]
      /\ forallb (fun e => negb (is_Enqueued e)) before = true)
  /\ insertQueue w' = insertQueue (snd (InsertQueue_PopAll w))
  /\ insertQueue w' = [].
Proof.
  intros Hq Herr w'. subst w'. split; [| split].
  - rewrite insertIsuConditionScheduled_tick_events.
    destruct (insertQueue w) as [|cond q] eqn:Eq; [congruence |].
    unfold flush_trace. rewrite Herr.
    exists ([Drained (cond :: q)] ++ (ConditionForgotten <$> drained_keys (cond :: q))
            ++ [StoreCall (InsertIsuConditions (cond :: q))]).
    split; [now rewrite <- !app_assoc | split].
    + rewrite !store_requests_app, store_requests_forgotten. reflexivity.
    + rewrite !forallb_app. cbn.
      rewrite andb_true_r. apply forallb_forall. intros e He.
      apply in_map_iff in He as (k & <- & _). reflexivity.
  - now rewrite insertIsuConditionScheduled_tick_queue.
  - apply insertIsuConditionScheduled_tick_queue.
Qed.

(** C5. A flush round starts by draining the buffer.  When nothing was
    pending it touches neither the latest-condition cache nor the store.
    Otherwise it forgets the cache entry of every drained record's device,
    record by record, and then sends one insert carrying all the drained
    records; that insert is the round's only store call. *)
Theorem insertIsuConditionScheduled_tick_flushes w :
  let w' := insertIsuConditionScheduled_tick w in
  let q := insertQueue w in
  insertQueue w' = []
  /\ match q with
     | [] =>
         events w' = events w ++ [Drained []]
         /\ isuConditionCache w' = isuConditionCache w
         /\ db w' = db w
     | _ :: _ =>
         events w' = events w ++ [Drained q]
                     ++ (ConditionForgotten <$> drained_keys q)
                     ++ [StoreCall (InsertIsuConditions q)]
                     ++ match fst (db_NamedExec_insert (db w) q) with
                        | Some err =>
                            [LogLine "failed to insert isu condition: %v" err]
                        | None => []
                        end
         /\ store_requests (drop (List.length (events w)) (events w'))
            = [InsertIsuConditions q]
         /\ (forall k, isuConditionCache w' !! k
                       = if bool_decide (k ∈ drained_keys q) then None
                         else isuConditionCache w !! k)
         /\ db w' = snd (db_NamedExec_insert (db w) q)
     end.
Proof.
  intros w' q. subst w' q. split; [apply insertIsuConditionScheduled_tick_queue |].
  pose proof (insertIsuConditionScheduled_tick_events w) as Hev.
  pose proof (insertIsuConditionScheduled_tick_db w) as Hdb.
  pose proof (insertIsuConditionScheduled_tick_lookup w) as Hlk.
  destruct (insertQueue w) as [|cond q] eqn:Eq.
  - split; [exact Hev | split; [| exact Hdb]].
    apply map_eq. intros k. rewrite Hlk.
    rewrite bool_decide_eq_false_2; [reflexivity | apply not_elem_of_nil].
  - split; [exact Hev | split; [| split; [exact Hlk | exact Hdb]]].
    rewrite Hev, drop_app_length. unfold flush_trace.
    rewrite !store_requests_app, store_requests_forgotten.
    now destruct (fst (db_NamedExec_insert (db w) (cond :: q))).
Qed.

End Buffer.

(** ** Read-through point caches *)

Section Caches.

Context {DB : Type} `{Store DB}.

Implicit Types (w : World DB) (k : string).

Lemma store_calls_snoc (q : Query) (es : list Event) (e : Event) :
  store_calls q (es ++ [e])
  = store_calls q es + match e with
                       | StoreCall q' => if bool_decide (q' = q) then 1 else 0
                       | _ => 0
                       end.
Proof.
  unfold store_calls. rewrite List.filter_app, List.length_app.
  destruct e as [q'| | | | | |]; cbn; try reflexivity.
  now destruct (bool_decide (q' = q)).
Qed.

(** *** Hits *)

Lemma IsuConditionCache_Get_hit w k (cond : IsuCondition) :
  isuConditionCache w !! k = Some cond -> IsuConditionCache_Get k w = (Ok cond, w).
Proof. intros Hk. unfold IsuConditionCache_Get. now rewrite Hk. Qed.

Lemma IsuCache_Get_hit w k (isu : Isu) :
  isuCache w !! k = Some isu -> IsuCache_Get k w = (Ok isu, w).
Proof. intros Hk. unfold IsuCache_Get. now rewrite Hk. Qed.

(** *** Misses the store answers with no row *)

Lemma IsuConditionCache_Get_not_found w k (err : error) :
  isuConditionCache w !! k = None ->
  db_Get_latest_isu_condition (db w) k = Err err ->
  errors_Is err sql_ErrNoRows = true ->
  IsuConditionCache_Get k w
  = (Err sql_ErrNoRows, emit (StoreCall (GetLatestIsuCondition k)) w).
Proof.
  intros Hk Hdb Hnf. unfold IsuConditionCache_Get. rewrite Hk. cbn.
  now rewrite Hdb, Hnf.
Qed.

Lemma IsuCache_Get_not_found w k (err : error) :
  isuCache w !! k = None ->
  db_Get_isu (db w) k = Err err ->
  errors_Is err sql_ErrNoRows = true ->
  IsuCache_Get k w = (Err sql_ErrNoRows, emit (StoreCall (GetIsu k)) w).
Proof.
  intros Hk Hdb Hnf. unfold IsuCache_Get. rewrite Hk. cbn.
  now rewrite Hdb, Hnf.
Qed.

(** As long as the store has no row for a device, every [Get] for it
    answers [sql.ErrNoRows], leaves the cache as it was and asks the store
    again. *)
Lemma IsuConditionCache_Get_not_found_repeats (n : nat) : forall w k (err : error),
  isuConditionCache w !! k = None ->
  db_Get_latest_isu_condition (db w) k = Err err ->
  errors_Is err sql_ErrNoRows = true ->
  let '(rs, w') := IsuConditionCache_Get_times n k w in
  rs = replicate n (Err sql_ErrNoRows)
  /\ isuConditionCache w' = isuConditionCache w
  /\ store_calls (GetLatestIsuCondition k) (events w')
     = n + store_calls (GetLatestIsuCondition k) (events w).
Proof.
  induction n as [|n IH]; intros w k err Hk Hdb Hnf; [now cbn |].
  cbn [IsuConditionCache_Get_times].
  rewrite (IsuConditionCache_Get_not_found w k err Hk Hdb Hnf).
  specialize (IH (emit (StoreCall (GetLatestIsuCondition k)) w) k err Hk Hdb Hnf).
  destruct (IsuConditionCache_Get_times n k _) as [rs w'].
  destruct IH as (-> & -> & ->). repeat split.
  cbn [events emit]. rewrite store_calls_snoc, bool_decide_eq_true_2 by reflexivity.
  lia.
Qed.

(** For a user the store has no row for, [UserCache.Get] stores nothing and
    asks the store again next time, but the error it returns is the
    formatted one, which [errors.Is] does not recognise as
    [sql.ErrNoRows]. *)
Lemma UserCache_Get_no_row w k :
  k ∉ userCache w ->
  db_Get_user (db w) k = Err sql_ErrNoRows ->
  UserCache_Get k w
  = (Err (fmt_Errorf_v "db error: %v" sql_ErrNoRows), emit (StoreCall (GetUser k)) w)
  /\ errors_Is (fmt_Errorf_v "db error: %v" sql_ErrNoRows) sql_ErrNoRows = false.
Proof.
  intros Hk Hdb. split; [| reflexivity].
  unfold UserCache_Get. rewrite bool_decide_eq_false_2 by exact Hk. cbn.
  now rewrite Hdb.
Qed.

End Caches.

(** C7 (as the code has it). The latest-condition cache answers a missing
    device with [sql.ErrNoRows] and stores nothing.  The user cache stores
    nothing either, but for a user with no row it answers
    [fmt.Errorf("db error: %v", err)], which is not a not-found error: the
    [count == 0] branch that returns [sql.ErrNoRows] is not the one taken. *)
Theorem UserCache_Get_missing_user_is_not_ErrNoRows :
  let w := MemStore.boot MemStore.empty_store in
  db_Get_user (db w) "user-1" = Err sql_ErrNoRows
  /\ fst (UserCache_Get "user-1" w)
     = Err (fmt_Errorf_v "db error: %v" sql_ErrNoRows)
  /\ errors_Is (fmt_Errorf_v "db error: %v" sql_ErrNoRows) sql_ErrNoRows = false
  /\ userCache (snd (UserCache_Get "user-1" w)) = userCache w
  /\ fst (IsuConditionCache_Get "isu-1" w) = Err sql_ErrNoRows
  /\ isuConditionCache (snd (IsuConditionCache_Get "isu-1" w)) = isuConditionCache w.
Proof. cbv zeta. repeat split. Qed.

(** *** Entries stay until forgotten *)

Section CacheRuns.

Context {DB : Type} `{Store DB}.

Implicit Types (w : World DB) (k : string) (ops : list (CacheOp DB)).

(** Splits on the branches of the cache methods. *)
Ltac cache_branches :=
  repeat match goal with
    | |- context [match ?m !! ?i with _ => _ end] => destruct (m !! i) eqn:?
    | |- context [match db_Get_latest_isu_condition ?d ?i with _ => _ end] =>
        destruct (db_Get_latest_isu_condition d i) eqn:?
    | |- context [match db_Get_isu ?d ?i with _ => _ end] =>
        destruct (db_Get_isu d i) eqn:?
    | |- context [match db_Get_user ?d ?i with _ => _ end] =>
        destruct (db_Get_user d i) eqn:?
    | |- context [if errors_Is ?e ?t then _ else _] => destruct (errors_Is e t)
    | |- context [if bool_decide ?P then _ else _] => destruct (bool_decide P) eqn:?
    | |- context [if Z.eqb ?a ?b then _ else _] => destruct (Z.eqb a b)
    end.

Lemma store_calls_other (q q' : Query) (es : list Event) :
  q' <> q -> store_calls q (es ++ [StoreCall q']) = store_calls q es.
Proof.
  intros Hne. rewrite store_calls_snoc, bool_decide_eq_false_2 by exact Hne. lia.
Qed.

Lemma store_calls_silent (q : Query) (es : list Event) (e : Event) :
  (forall q', e <> StoreCall q') -> store_calls q (es ++ [e]) = store_calls q es.
Proof.
  intros He. rewrite store_calls_snoc.
  destruct e; try lia. now destruct (He q0).
Qed.

(** One step that is not [Forget k] keeps a resident latest condition,
    answers a [Get k] with it, and sends no load for [k]. *)
Lemma cache_step_keeps_condition (op : CacheOp DB) w k (cond : IsuCondition) :
  op <> CondForget k ->
  isuConditionCache w !! k = Some cond ->
  isuConditionCache (snd (cache_step op w)) !! k = Some cond
  /\ store_calls (GetLatestIsuCondition k) (events (snd (cache_step op w)))
     = store_calls (GetLatestIsuCondition k) (events w)
  /\ (op = CondGet k -> fst (cache_step op w) = CondAnswer (Ok cond)).
Proof.
  intros Hop Hk.
  destruct op as [k'|k'|k'|k'|k'|f]; cbn [cache_step].
  - destruct (decide (k' = k)) as [->|Hne].
    + rewrite (IsuConditionCache_Get_hit w k cond Hk). now cbn.
    + unfold IsuConditionCache_Get. cache_branches; cbn;
        rewrite ?lookup_insert_ne by exact Hne;
        rewrite ?store_calls_other by congruence;
        repeat split; congruence.
  - assert (k' <> k) by congruence. cbn.
    rewrite lookup_delete_ne by assumption.
    rewrite store_calls_silent by discriminate. repeat split; congruence.
  - unfold IsuCache_Get. cache_branches; cbn;
      rewrite ?store_calls_other by discriminate; repeat split; congruence.
  - cbn. rewrite store_calls_silent by discriminate. repeat split; congruence.
  - unfold UserCache_Get. cache_branches; cbn;
      rewrite ?store_calls_other by discriminate; repeat split; congruence.
  - cbn. repeat split; congruence.
Qed.

Lemma cache_step_keeps_isu (op : CacheOp DB) w k (isu : Isu) :
  op <> IsuForget k ->
  isuCache w !! k = Some isu ->
  isuCache (snd (cache_step op w)) !! k = Some isu
  /\ store_calls (GetIsu k) (events (snd (cache_step op w)))
     = store_calls (GetIsu k) (events w)
  /\ (op = IsuGet k -> fst (cache_step op w) = IsuAnswer (Ok isu)).
Proof.
  intros Hop Hk.
  destruct op as [k'|k'|k'|k'|k'|f]; cbn [cache_step].
  - unfold IsuConditionCache_Get. cache_branches; cbn;
      rewrite ?store_calls_other by discriminate; repeat split; congruence.
  - cbn. rewrite store_calls_silent by discriminate. repeat split; congruence.
  - destruct (decide (k' = k)) as [->|Hne].
    + rewrite (IsuCache_Get_hit w k isu Hk). now cbn.
    + unfold IsuCache_Get. cache_branches; cbn;
        rewrite ?lookup_insert_ne by exact Hne;
        rewrite ?store_calls_other by congruence;
        repeat split; congruence.
  - assert (k' <> k) by congruence. cbn.
    rewrite lookup_delete_ne by assumption.
    rewrite store_calls_silent by discriminate. repeat split; congruence.
  - unfold UserCache_Get. cache_branches; cbn;
      rewrite ?store_calls_other by discriminate; repeat split; congruence.
  - cbn. repeat split; congruence.
Qed.

Lemma cache_run_cons (op : CacheOp DB) ops w :
  cache_run (op :: ops) w
  = (fst (cache_step op w) :: fst (cache_run ops (snd (cache_step op w))),
     snd (cache_run ops (snd (cache_step op w)))).
Proof.
  cbn [cache_run]. destruct (cache_step op w) as [a w1]. cbn [fst snd].
  now destruct (cache_run ops w1).
Qed.

Lemma cache_run_keeps_condition ops : forall w k (cond : IsuCondition),
  CondForget k ∉ ops ->
  isuConditionCache w !! k = Some cond ->
  Forall2 (fun op a => op = CondGet k -> a = CondAnswer (Ok cond))
          ops (fst (cache_run ops w))
  /\ store_calls (GetLatestIsuCondition k) (events (snd (cache_run ops w)))
     = store_calls (GetLatestIsuCondition k) (events w).
Proof.
  induction ops as [|op ops IH]; intros w k cond Hops Hk.
  - split; [constructor | reflexivity].
  - apply not_elem_of_cons in Hops as [Hop Hops].
    destruct (cache_step_keeps_condition op w k cond) as (Hk1 & Hcalls & Hans);
      [congruence | exact Hk |].
    destruct (IH _ k cond Hops Hk1) as (Hall & Hcalls').
    rewrite cache_run_cons. cbn [fst snd]. split.
    + constructor; assumption.
    + now rewrite Hcalls'.
Qed.

Lemma cache_run_keeps_isu ops : forall w k (isu : Isu),
  IsuForget k ∉ ops ->
  isuCache w !! k = Some isu ->
  Forall2 (fun op a => op = IsuGet k -> a = IsuAnswer (Ok isu))
          ops (fst (cache_run ops w))
  /\ store_calls (GetIsu k) (events (snd (cache_run ops w)))
     = store_calls (GetIsu k) (events w).
Proof.
  induction ops as [|op ops IH]; intros w k isu Hops Hk.
  - split; [constructor | reflexivity].
  - apply not_elem_of_cons in Hops as [Hop Hops].
    destruct (cache_step_keeps_isu op w k isu) as (Hk1 & Hcalls & Hans);
      [congruence | exact Hk |].
    destruct (IH _ k isu Hops Hk1) as (Hall & Hcalls').
    rewrite cache_run_cons. cbn [fst snd]. split.
    + constructor; assumption.
    + now rewrite Hcalls'.
Qed.

(** A first [Get] that loads leaves the value resident, with one load sent. *)
Lemma IsuConditionCache_Get_loads w k (cond : IsuCondition) (w1 : World DB) :
  isuConditionCache w !! k = None ->
  IsuConditionCache_Get k w = (Ok cond, w1) ->
  isuConditionCache w1 !! k = Some cond
  /\ store_calls (GetLatestIsuCondition k) (events w1)
     = S (store_calls (GetLatestIsuCondition k) (events w)).
Proof.
  intros Hk. unfold IsuConditionCache_Get. rewrite Hk. cbn.
  destruct (db_Get_latest_isu_condition (db w) k) as [i|err].
  - intros [= <- <-]. cbn. rewrite lookup_insert_eq. split; [reflexivity |].
    rewrite store_calls_snoc, bool_decide_eq_true_2 by reflexivity. lia.
  - now destruct (errors_Is err sql_ErrNoRows).
Qed.

Lemma IsuCache_Get_loads w k (isu : Isu) (w1 : World DB) :
  isuCache w !! k = None ->
  IsuCache_Get k w = (Ok isu, w1) ->
  isuCache w1 !! k = Some isu
  /\ store_calls (GetIsu k) (events w1) = S (store_calls (GetIsu k) (events w)).
Proof.
  intros Hk. unfold IsuCache_Get. rewrite Hk. cbn.
  destruct (db_Get_isu (db w) k) as [i|err].
  - intros [= <- <-]. cbn. rewrite lookup_insert_eq. split; [reflexivity |].
    rewrite store_calls_snoc, bool_decide_eq_true_2 by reflexivity. lia.
  - now destruct (errors_Is err sql_ErrNoRows).
Qed.

(** C8. Once a [Get] for a key has loaded a value, then over any further
    run of cache calls and store changes in which that key is not
    forgotten, every [Get] for the key answers that same value, and the
    store has been asked for the key once in all.  This holds of the
    latest-condition cache and of the device cache. *)
Theorem Get_after_load_is_served_from_cache w k ops :
  CondForget k ∉ ops ->
  IsuForget k ∉ ops ->
  (forall (cond : IsuCondition) (w1 : World DB),
      isuConditionCache w !! k = None ->
      IsuConditionCache_Get k w = (Ok cond, w1) ->
      Forall2 (fun op a => op = CondGet k -> a = CondAnswer (Ok cond))
              ops (fst (cache_run ops w1))
      /\ store_calls (GetLatestIsuCondition k) (events (snd (cache_run ops w1)))
         = S (store_calls (GetLatestIsuCondition k) (events w)))
  /\ (forall (isu : Isu) (w1 : World DB),
      isuCache w !! k = None ->
      IsuCache_Get k w = (Ok isu, w1) ->
      Forall2 (fun op a => op = IsuGet k -> a = IsuAnswer (Ok isu))
              ops (fst (cache_run ops w1))
      /\ store_calls (GetIsu k) (events (snd (cache_run ops w1)))
         = S (store_calls (GetIsu k) (events w))).
Proof.
  intros Hcond Hisu. split.
  - intros cond w1 Hmiss Hget.
    destruct (IsuConditionCache_Get_loads w k cond w1 Hmiss Hget) as (Hk & Hone).
    destruct (cache_run_keeps_condition ops w1 k cond Hcond Hk) as (Hall & Hcalls).
    split; [exact Hall | now rewrite Hcalls].
  - intros isu w1 Hmiss Hget.
    destruct (IsuCache_Get_loads w k isu w1 Hmiss Hget) as (Hk & Hone).
    destruct (cache_run_keeps_isu ops w1 k isu Hisu Hk) as (Hall & Hcalls).
    split; [exact Hall | now rewrite Hcalls].
Qed.

End CacheRuns.

(** ** Insertion sort meets the contract of [sort.Slice] *)

Section InsertionSortContract.

Import InsertionSort.

Context {A : Type} (less : A -> A -> bool).

Lemma insert_back_Permutation (x : A) (prefix : list A) :
  Permutation (x :: prefix) (insert_back less x prefix).
Proof.
  induction prefix as [|y prefix IH]; cbn; [reflexivity |].
  destruct (less x y); [| reflexivity].
  rewrite perm_swap. now constructor.
Qed.

Lemma foldl_insert_back_Permutation (data : list A) : forall prefix,
  Permutation (data ++ prefix)
              (foldl (fun prefix x => insert_back less x prefix) prefix data).
Proof.
  induction data as [|x data IH]; intros prefix; cbn; [reflexivity |].
  rewrite <- IH, <- insert_back_Permutation.
  apply Permutation_middle.
Qed.

Lemma insertionSort_Permutation (data : list A) :
  Permutation data (insertionSort less data).
Proof.
  unfold insertionSort. rewrite reverse_Permutation.
  rewrite <- foldl_insert_back_Permutation. now rewrite app_nil_r.
Qed.

Hypothesis less_order : StrictWeakOrder less.

Lemma less_asym (a b : A) : less a b = true -> less b a = false.
Proof.
  intros Hab. destruct (less b a) eqn:Hba; [| reflexivity].
  rewrite <- (swo_irrefl less less_order a). symmetry.
  now apply (swo_trans less less_order a b a).
Qed.

(** The prefix is kept back to front: no element is [less] than its
    successor in the list. *)
Lemma insert_back_Sorted (x : A) (prefix : list A) :
  Sorted (fun a b => less a b = false) prefix ->
  Sorted (fun a b => less a b = false) (insert_back less x prefix).
Proof.
  induction prefix as [|y prefix IH]; intros Hs; cbn.
  - repeat constructor.
  - destruct (less x y) eqn:Hxy.
    + apply Sorted_inv in Hs as [Hs Hhd]. constructor; [now apply IH |].
      destruct prefix as [|z prefix]; cbn.
      * constructor. now apply less_asym.
      * destruct (less x z); constructor.
        -- now apply HdRel_inv in Hhd.
        -- now apply less_asym.
    + constructor; [exact Hs | now constructor].
Qed.

Lemma insertionSort_Sorted (data : list A) :
  Sorted (fun a b => less b a = false) (insertionSort less data).
Proof.
  unfold insertionSort.
  apply (Sorted_reverse (fun a b => less a b = false)).
  assert (Hfold : forall prefix,
             Sorted (fun a b => less a b = false) prefix ->
             Sorted (fun a b => less a b = false)
                    (foldl (fun prefix x => insert_back less x prefix) prefix data)).
  { induction data as [|x data IH]; intros prefix Hs; cbn; [exact Hs |].
    apply IH. now apply insert_back_Sorted. }
  apply Hfold. constructor.
Qed.

End InsertionSortContract.

#[global] Instance insertionSort_contract : SortSliceContract insertionSort_SortSlice.
Proof.
  split.
  - intros A less x. apply insertionSort_Permutation.
  - intros A less x order. now apply insertionSort_Sorted.
Qed.

(** ** Trend recompute *)

Section Trend.

Context {DB : Type} {store : Store DB} {sorter : SortSlice}
        {contract : SortSliceContract sorter}.

Implicit Types (w : World DB) (k : string).

Lemma same_reads_refl w : same_reads w w.
Proof. now split. Qed.

Lemma same_reads_trans w1 w2 w3 :
  same_reads w1 w2 -> same_reads w2 w3 -> same_reads w1 w3.
Proof.
  intros [Hdb12 Ha12] [Hdb23 Ha23]. split; [congruence |].
  intros k. now rewrite Ha23.
Qed.

Lemma answer_unfold w k :
  answer w k = match isuConditionCache w !! k with
               | Some cond => Ok cond
               | None =>
                   match db_Get_latest_isu_condition (db w) k with
                   | Ok i => Ok i
                   | Err err =>
                       if errors_Is err sql_ErrNoRows then Err sql_ErrNoRows
                       else Err err
                   end
               end.
Proof.
  unfold answer, IsuConditionCache_Get.
  destruct (isuConditionCache w !! k); [reflexivity |]. cbn.
  destruct (db_Get_latest_isu_condition (db w) k) as [i|err]; [reflexivity |].
  now destruct (errors_Is err sql_ErrNoRows).
Qed.

Lemma same_reads_emit (e : Event) w : same_reads w (emit e w).
Proof. split; [reflexivity |]. intros k. now rewrite !answer_unfold. Qed.

(** A [Get] may fill the cache, but only with what the store answers: later
    reads see the same answers. *)
Lemma IsuConditionCache_Get_same_reads w k :
  same_reads w (snd (IsuConditionCache_Get k w)).
Proof.
  split.
  - unfold IsuConditionCache_Get.
    destruct (isuConditionCache w !! k); [reflexivity |]. cbn.
    destruct (db_Get_latest_isu_condition (db w) k) as [i|err]; [reflexivity |].
    now destruct (errors_Is err sql_ErrNoRows).
  - intros k'. rewrite !answer_unfold. unfold IsuConditionCache_Get.
    destruct (isuConditionCache w !! k) as [cond|] eqn:Hk; [reflexivity |]. cbn.
    destruct (db_Get_latest_isu_condition (db w) k) as [i|err] eqn:Hdb.
    + cbn. destruct (decide (k = k')) as [<-|Hne].
      * now rewrite lookup_insert_eq, Hk, Hdb.
      * now rewrite lookup_insert_ne.
    + now destruct (errors_Is err sql_ErrNoRows).
Qed.

(** *** The recompute as a function of what is read *)

Lemma fill_ext (ans ans' : string -> result IsuCondition) (isuList : list Isu) :
  (forall k, ans' k = ans k) -> forall b, fill ans' isuList b = fill ans isuList b.
Proof.
  intros Hext. induction isuList as [|isu isuList IH]; intros b; cbn; [reflexivity |].
  rewrite Hext. destruct (ans (Isu_JIAIsuUUID isu)) as [cond|err]; [apply IH |].
  destruct (errors_Is err sql_ErrNoRows); [apply IH | reflexivity].
Qed.

Lemma fill_characters_ext (d : DB) (ans ans' : string -> result IsuCondition)
    (characterList : list Isu) :
  (forall k, ans' k = ans k) ->
  forall res, fill_characters d ans' characterList res
              = fill_characters d ans characterList res.
Proof.
  intros Hext. induction characterList as [|c cl IH]; intros res; cbn; [reflexivity |].
  destruct (db_Select_isu_by_character d (Isu_Character c)) as [il|err]; [| reflexivity].
  rewrite (fill_ext ans ans' il Hext).
  destruct (fill ans il emptyBuckets); [apply IH | reflexivity].
Qed.

Lemma calculateTrend_isuList_fill (isuList : list Isu) : forall b w,
  fst (calculateTrend_isuList isuList b w) = fill (answer w) isuList b
  /\ same_reads w (snd (calculateTrend_isuList isuList b w)).
Proof.
  induction isuList as [|isu isuList IH]; intros b w; cbn [calculateTrend_isuList fill].
  - split; [reflexivity | apply same_reads_refl].
  - pose proof (IsuConditionCache_Get_same_reads w (Isu_JIAIsuUUID isu)) as Hsame.
    unfold answer at 1.
    destruct (IsuConditionCache_Get (Isu_JIAIsuUUID isu) w) as [[cond|err] w1];
      cbn [fst snd] in *.
    + destruct (IH (bucket (IsuCondition_Level cond) (trendCondition_of isu cond) b) w1)
        as [Hfst Hsnd].
      split; [| eapply same_reads_trans; eassumption].
      etransitivity; [exact Hfst | apply fill_ext, Hsame].
    + destruct (errors_Is err sql_ErrNoRows).
      * destruct (IH b w1) as [Hfst Hsnd].
        split; [| eapply same_reads_trans; eassumption].
        etransitivity; [exact Hfst | apply fill_ext, Hsame].
      * split; [reflexivity |].
        eapply same_reads_trans; [exact Hsame | apply same_reads_emit].
Qed.

Lemma calculateTrend_characterList_fill (characterList : list Isu) : forall res w,
  fst (calculateTrend_characterList characterList res w)
  = fill_characters (db w) (answer w) characterList res
  /\ same_reads w (snd (calculateTrend_characterList characterList res w)).
Proof.
  induction characterList as [|c cl IH]; intros res w;
    cbn [calculateTrend_characterList fill_characters].
  - split; [reflexivity | apply same_reads_refl].
  - set (w1 := emit (StoreCall (SelectIsuByCharacter (Isu_Character c))) w).
    pose proof (same_reads_emit (StoreCall (SelectIsuByCharacter (Isu_Character c))) w)
      as Hw1. fold w1 in Hw1.
    change (db w1) with (db w).
    destruct (db_Select_isu_by_character (db w) (Isu_Character c)) as [il|err].
    + destruct (calculateTrend_isuList_fill il emptyBuckets w1) as [Hfst Hsnd].
      rewrite (fill_ext (answer w) (answer w1) il (proj2 Hw1)) in Hfst.
      destruct (calculateTrend_isuList il emptyBuckets w1) as [[b|] w2];
        cbn [fst snd] in *; rewrite <- Hfst.
      * assert (Hw2 : same_reads w w2) by (eapply same_reads_trans; eassumption).
        destruct (IH (res ++ [entry c b]) w2) as [Hfst' Hsnd'].
        split; [| eapply same_reads_trans; eassumption].
        etransitivity; [exact Hfst' |]. destruct Hw2 as [-> Hans].
        now apply fill_characters_ext.
      * split; [reflexivity | eapply same_reads_trans; eassumption].
    + split; [reflexivity |].
      eapply same_reads_trans; [exact Hw1 | apply same_reads_emit].
Qed.

(** [calculateTrend] returns what the store and the cache answers determine. *)
Lemma calculateTrend_trend_of w :
  fst (calculateTrend w) = trend_of (db w) (answer w).
Proof.
  unfold calculateTrend, trend_of.
  set (w1 := emit (StoreCall SelectCharacters) w).
  change (db w1) with (db w).
  destruct (db_Select_characters (db w)) as [cl|err]; [| reflexivity].
  rewrite (proj1 (calculateTrend_characterList_fill cl [] w1)).
  apply (fill_characters_ext (db w)).
  apply (same_reads_emit (StoreCall SelectCharacters) w).
Qed.

Lemma calculateTrendScheduled_tick_publishes w :
  TrendCache_Get (calculateTrendScheduled_tick w) = trend_of (db w) (answer w).
Proof.
  unfold calculateTrendScheduled_tick. rewrite <- calculateTrend_trend_of.
  now destruct (calculateTrend w).
Qed.

(** *** Aborted recomputes *)

Lemma fill_aborts (ans : string -> result IsuCondition) (isuList : list Isu)
    (isu : Isu) (err : error) :
  isu ∈ isuList ->
  ans (Isu_JIAIsuUUID isu) = Err err ->
  errors_Is err sql_ErrNoRows = false ->
  forall b, fill ans isuList b = None.
Proof.
  intros Hin Hans Herr.
  induction isuList as [|isu0 isuList IH]; intros b; [now apply elem_of_nil in Hin |].
  cbn. apply elem_of_cons in Hin as [<-|Hin].
  - now rewrite Hans, Herr.
  - destruct (ans (Isu_JIAIsuUUID isu0)) as [cond|err0]; [now apply IH |].
    destruct (errors_Is err0 sql_ErrNoRows); [now apply IH | reflexivity].
Qed.

Lemma fill_characters_aborts (d : DB) (ans : string -> result IsuCondition)
    (characterList : list Isu) (character : Isu) :
  character ∈ characterList ->
  (forall isuList, db_Select_isu_by_character d (Isu_Character character) = Ok isuList ->
                   fill ans isuList emptyBuckets = None) ->
  forall res, fill_characters d ans characterList res = None.
Proof.
  intros Hin Hfail.
  induction characterList as [|c cl IH]; intros res; [now apply elem_of_nil in Hin |].
  cbn. apply elem_of_cons in Hin as [<-|Hin].
  - destruct (db_Select_isu_by_character d (Isu_Character character)) as [il|err];
      [| reflexivity].
    now rewrite (Hfail il eq_refl).
  - destruct (db_Select_isu_by_character d (Isu_Character c)) as [il|err];
      [| reflexivity].
    destruct (fill ans il emptyBuckets); [now apply IH | reflexivity].
Qed.

(** C1 (as the code has it). When a store read or a latest-condition [Get]
    of a recompute fails with an error other than not-found,
    [calculateTrend] gives up with [nil], and the round publishes that
    [nil]: [trendCache.Get] then returns [nil], not the snapshot published
    before. *)
Theorem failed_recompute_publishes_nil w :
  read_fails w ->
  fst (calculateTrend w) = None
  /\ TrendCache_Get (calculateTrendScheduled_tick w) = None.
Proof.
  intros Hfail.
  rewrite calculateTrendScheduled_tick_publishes, calculateTrend_trend_of.
  assert (Hnil : trend_of (db w) (answer w) = None); [| now split].
  unfold trend_of.
  destruct Hfail as [err Hcl _ | cl c err Hcl Hc Hil _ | cl c il isu err Hcl Hc Hil Hisu Hget Herr];
    rewrite Hcl; [reflexivity | |].
  - apply (fill_characters_aborts _ _ cl c Hc). intros il' Hil'. congruence.
  - apply (fill_characters_aborts _ _ cl c Hc). intros il' Hil'.
    assert (il' = il) as -> by congruence.
    now apply (fill_aborts _ il isu err).
Qed.

(** *** Published snapshots *)

Lemma by_Timestamp_desc_order : StrictWeakOrder by_Timestamp_desc.
Proof.
  split; unfold by_Timestamp_desc; intros *; rewrite ?Z.gtb_ltb.
  - apply Z.ltb_irrefl.
  - rewrite !Z.ltb_lt. lia.
  - rewrite !Z.ltb_ge. lia.
Qed.

Lemma Sorted_weaken {A : Type} (R R' : A -> A -> Prop) (l : list A) :
  (forall a b, R a b -> R' a b) -> Sorted R l -> Sorted R' l.
Proof.
  intros HR. induction 1 as [|a l Hs IH Hhd]; constructor; [exact IH |].
  destruct Hhd; constructor. now apply HR.
Qed.

Lemma sort_Slice_descending (l : list TrendCondition) :
  descending (sort_Slice by_Timestamp_desc l).
Proof.
  unfold descending. apply Sorted_StronglySorted.
  - intros a b c Hab Hbc. lia.
  - apply (Sorted_weaken (fun a b => by_Timestamp_desc b a = false)).
    + intros a b. unfold by_Timestamp_desc. rewrite Z.gtb_ltb, Z.ltb_ge. lia.
    + apply sort_Slice_Sorted, by_Timestamp_desc_order.
Qed.

Lemma entry_buckets_descending (character : Isu) b :
  buckets_descending (entry character b).
Proof. repeat split; apply sort_Slice_descending. Qed.

Lemma sort_Slice_nil : sort_Slice by_Timestamp_desc [] = [].
Proof.
  apply Permutation_nil. apply sort_Slice_Permutation.
Qed.

(** Sorting two entries with different timestamps leaves one possible
    order. *)
Lemma sort_Slice_pair (a b : TrendCondition) (l : list TrendCondition) :
  (TrendCondition_Timestamp a < TrendCondition_Timestamp b)%Z ->
  l = [a; b] \/ l = [b; a] ->
  sort_Slice by_Timestamp_desc l = [b; a].
Proof.
  intros Hlt Hl.
  pose proof (sort_Slice_Permutation _ by_Timestamp_desc l) as Hperm.
  pose proof (sort_Slice_descending l) as Hsorted.
  assert (Hab : Permutation [a; b] (sort_Slice by_Timestamp_desc l)).
  { destruct Hl as [->| ->]; [exact Hperm |]. now rewrite perm_swap. }
  apply Permutation_length_2_inv in Hab as [Heq|Heq]; [| exact Heq].
  rewrite Heq in Hsorted. apply StronglySorted_inv in Hsorted as [_ Hhd].
  apply Forall_inv in Hhd. lia.
Qed.

Lemma fill_characters_entries (d : DB) (ans : string -> result IsuCondition)
    (characterList : list Isu) : forall res0 res,
  fill_characters d ans characterList res0 = Some res ->
  exists entries, res = res0 ++ entries
                  /\ Forall2 (entry_for d ans) characterList entries.
Proof.
  induction characterList as [|c cl IH]; intros res0 res Hres; cbn in Hres.
  - injection Hres as <-. exists []. split; [now rewrite app_nil_r | constructor].
  - destruct (db_Select_isu_by_character d (Isu_Character c)) as [il|err] eqn:Hil;
      [| discriminate].
    destruct (fill ans il emptyBuckets) as [b|] eqn:Hb; [| discriminate].
    apply IH in Hres as (entries & -> & Hall).
    exists (entry c b :: entries). split; [now rewrite <- app_assoc |].
    constructor; [| exact Hall]. now exists il, b.
Qed.

Lemma trend_of_entries (d : DB) (ans : string -> result IsuCondition)
    (res : list TrendResponse) :
  trend_of d ans = Some res ->
  exists characterList,
    db_Select_characters d = Ok characterList
    /\ Forall2 (entry_for d ans) characterList res.
Proof.
  unfold trend_of. destruct (db_Select_characters d) as [cl|err]; [| discriminate].
  intros Hres. apply fill_characters_entries in Hres as (entries & -> & Hall).
  now exists cl.
Qed.

Lemma Forall2_entry_of_character {A B : Type} (P : A -> B -> Prop)
    (l : list A) (l' : list B) :
  Forall2 P l l' ->
  (forall y, y ∈ l' -> exists x, x ∈ l /\ P x y)
  /\ (forall x, x ∈ l -> exists y, y ∈ l' /\ P x y).
Proof.
  induction 1 as [|x y l l' Hxy Hall [IHl IHr]]; split; intros z Hz.
  - now apply elem_of_nil in Hz.
  - now apply elem_of_nil in Hz.
  - apply elem_of_cons in Hz as [->|Hz].
    + exists x. split; [left | exact Hxy].
    + destruct (IHl z Hz) as (x' & Hx' & HP). exists x'. split; [now right | exact HP].
  - apply elem_of_cons in Hz as [->|Hz].
    + exists y. split; [left | exact Hxy].
    + destruct (IHr z Hz) as (y' & Hy' & HP). exists y'. split; [now right | exact HP].
Qed.

(** C9. Every bucket of a snapshot that a recompute publishes is in
    descending order of timestamp.  In particular, when a character [X] has
    the two devices [A] and [B], whose cached latest conditions are both
    critical with timestamps 10 and 20, the critical bucket of [X] is
    [B] then [A]. *)
Theorem published_buckets_are_descending w (res : list TrendResponse) :
  TrendCache_Get (calculateTrendScheduled_tick w) = Some res ->
  Forall buckets_descending res
  /\ (forall (X : Isu) (A B : Isu) (condA condB : IsuCondition)
             (characterList isuList : list Isu),
         db_Select_characters (db w) = Ok characterList ->
         X ∈ characterList ->
         db_Select_isu_by_character (db w) (Isu_Character X) = Ok isuList ->
         isuList = [A; B] \/ isuList = [B; A] ->
         isuConditionCache w !! Isu_JIAIsuUUID A = Some condA ->
         isuConditionCache w !! Isu_JIAIsuUUID B = Some condB ->
         IsuCondition_Level condA = "critical" ->
         IsuCondition_Level condB = "critical" ->
         Time_Unix (IsuCondition_Timestamp condA) = 10%Z ->
         Time_Unix (IsuCondition_Timestamp condB) = 20%Z ->
         (exists e, e ∈ res /\ TrendResponse_Character e = Isu_Character X)
         /\ (forall e, e ∈ res ->
                       TrendResponse_Character e = Isu_Character X ->
                       TrendResponse_Critical e
                       = [ {| TrendCondition_ID := Isu_ID B;
                              TrendCondition_Timestamp := 20 |};
                           {| TrendCondition_ID := Isu_ID A;
                              TrendCondition_Timestamp := 10 |} ])).
Proof.
  rewrite calculateTrendScheduled_tick_publishes. intros Hres.
  apply trend_of_entries in Hres as (cl & Hcl & Hall).
  apply Forall2_entry_of_character in Hall as [Hfrom Hto].
  split.
  - apply Forall_forall. intros e He.
    destruct (Hfrom e He) as (c & _ & il & b & _ & _ & ->).
    apply entry_buckets_descending.
  - intros X A B condA condB cl' il Hcl' HX Hil Horder HA HB HlA HlB HtA HtB.
    assert (cl' = cl) as -> by congruence.
    assert (Hcritical : forall b,
               fill (answer w) il emptyBuckets = Some b ->
               sort_Slice by_Timestamp_desc (characterCriticalIsuConditions b)
               = [trendCondition_of B condB; trendCondition_of A condA]).
    { intros b Hb. apply sort_Slice_pair.
      - cbn. lia.
      - destruct Horder as [-> | ->]; cbn in Hb;
          rewrite !answer_unfold, ?HA, ?HB in Hb; cbn in Hb;
          rewrite ?HA, ?HB, HlA, HlB in Hb; cbn in Hb;
          injection Hb as <-; cbn; auto. }
    split.
    + destruct (Hto X HX) as (e & He & il' & b & Hil' & Hb & ->).
      exists (entry X b). split; [exact He | reflexivity].
    + intros e He HeX.
      destruct (Hfrom e He) as (c & _ & il' & b & Hil' & Hb & ->).
      cbn in HeX. rewrite HeX, Hil in Hil'. injection Hil' as <-.
      cbn [entry TrendResponse_Critical]. rewrite (Hcritical b Hb).
      unfold trendCondition_of. now rewrite HtA, HtB.
Qed.

(** *** Levels outside info, warning and critical *)

Lemma bucket_unknown_level (level : string) (t : TrendCondition) (b : Buckets) :
  ~ known_level level -> bucket level t b = b.
Proof.
  unfold known_level, bucket. intros Hlevel.
  destruct (String.eqb_spec level "info"); [tauto |].
  destruct (String.eqb_spec level "warning"); [tauto |].
  destruct (String.eqb_spec level "critical"); [tauto | reflexivity].
Qed.

Lemma bucket_bucketed (level : string) (t0 t : TrendCondition) (b : Buckets) :
  t ∈ bucketed (bucket level t0 b) ->
  t ∈ bucketed b \/ (t = t0 /\ known_level level).
Proof.
  unfold known_level, bucket, bucketed.
  destruct (String.eqb_spec level "info");
    [| destruct (String.eqb_spec level "warning");
       [| destruct (String.eqb_spec level "critical")]];
    cbn; rewrite ?elem_of_app, ?list_elem_of_singleton; tauto.
Qed.

Lemma fill_bucketed (ans : string -> result IsuCondition) (isuList : list Isu) :
  forall (b b' : Buckets) (t : TrendCondition),
    fill ans isuList b = Some b' ->
    t ∈ bucketed b' ->
    t ∈ bucketed b
    \/ exists isu cond,
        isu ∈ isuList /\ ans (Isu_JIAIsuUUID isu) = Ok cond
        /\ known_level (IsuCondition_Level cond) /\ t = trendCondition_of isu cond.
Proof.
  induction isuList as [|isu0 isuList IH]; intros b b' t Hfill Ht; cbn in Hfill.
  - injection Hfill as <-. now left.
  - destruct (ans (Isu_JIAIsuUUID isu0)) as [cond0|err0] eqn:Hans.
    + destruct (IH _ _ t Hfill Ht) as [Hin | (isu & cond & Hin & Hisu & Hlevel & ->)].
      * apply bucket_bucketed in Hin as [Hin | [-> Hlevel]]; [now left |].
        right. exists isu0, cond0. repeat split; [left | assumption..].
      * right. exists isu, cond. repeat split; [now right | assumption..].
    + destruct (errors_Is err0 sql_ErrNoRows); [| discriminate].
      destruct (IH _ _ t Hfill Ht) as [Hin | (isu & cond & Hin & Hisu & Hlevel & ->)].
      * now left.
      * right. exists isu, cond. repeat split; [now right | assumption..].
Qed.

Lemma fill_app (ans : string -> result IsuCondition) (before after : list Isu) :
  forall b : Buckets,
    fill ans (before ++ after) b
    = match fill ans before b with
      | Some b1 => fill ans after b1
      | None => None
      end.
Proof.
  induction before as [|isu before IH]; intros b; cbn; [reflexivity |].
  destruct (ans (Isu_JIAIsuUUID isu)) as [cond|err]; [apply IH |].
  destruct (errors_Is err sql_ErrNoRows); [apply IH | reflexivity].
Qed.

Lemma Isu_ID_determines (isuList : list Isu) (isu isu' : Isu) :
  NoDup (Isu_ID <$> isuList) ->
  isu ∈ isuList -> isu' ∈ isuList -> Isu_ID isu' = Isu_ID isu -> isu' = isu.
Proof.
  induction isuList as [|i isuList IH]; intros Hnd Hin Hin' Hid;
    [now apply elem_of_nil in Hin |].
  cbn in Hnd. apply NoDup_cons in Hnd as [Hfresh Hnd].
  apply elem_of_cons in Hin as [->|Hin]; apply elem_of_cons in Hin' as [->|Hin'].
  - reflexivity.
  - destruct Hfresh. rewrite <- Hid. now apply list_elem_of_fmap_2.
  - destruct Hfresh. rewrite Hid. now apply list_elem_of_fmap_2.
  - now apply IH.
Qed.

(** C10. A device whose latest condition carries a level other than info,
    warning and critical is passed over by the recompute: its turn in the
    loop changes no bucket and logs nothing, the loop ends as it would
    without the device, and no bucket of its character's entry in the
    published snapshot holds it. *)
Theorem unknown_level_is_left_out w (isu : Isu) (cond : IsuCondition) :
  fst (IsuConditionCache_Get (Isu_JIAIsuUUID isu) w) = Ok cond ->
  ~ known_level (IsuCondition_Level cond) ->
  (forall (after : list Isu) (b : Buckets),
      calculateTrend_isuList (isu :: after) b w
      = calculateTrend_isuList after b
          (snd (IsuConditionCache_Get (Isu_JIAIsuUUID isu) w)))
  /\ (forall (before after : list Isu) (b : Buckets),
      fst (calculateTrend_isuList (before ++ isu :: after) b w)
      = fst (calculateTrend_isuList (before ++ after) b w))
  /\ (forall (res : list TrendResponse) (character : string) (isuList : list Isu),
      TrendCache_Get (calculateTrendScheduled_tick w) = Some res ->
      db_Select_isu_by_character (db w) character = Ok isuList ->
      isu ∈ isuList ->
      NoDup (Isu_ID <$> isuList) ->
      forall e t,
        e ∈ res ->
        TrendResponse_Character e = character ->
        t ∈ TrendResponse_Info e ++ TrendResponse_Warning e ++ TrendResponse_Critical e ->
        TrendCondition_ID t <> Isu_ID isu).
Proof.
  intros Hget Hlevel. split; [| split].
  - intros after b. cbn [calculateTrend_isuList].
    destruct (IsuConditionCache_Get (Isu_JIAIsuUUID isu) w) as [r w1].
    cbn in Hget. subst r. cbn [snd].
    now rewrite bucket_unknown_level.
  - intros before after b.
    rewrite !(proj1 (calculateTrend_isuList_fill _ _ _)), !fill_app.
    destruct (fill (answer w) before b) as [b1|]; [| reflexivity].
    cbn [fill]. unfold answer at 1. rewrite Hget.
    now rewrite bucket_unknown_level.
  - intros res character il Hres Hil Hin Hnd e t He Hchar Ht Hid.
    rewrite calculateTrendScheduled_tick_publishes in Hres.
    apply trend_of_entries in Hres as (cl & _ & Hall).
    apply Forall2_entry_of_character in Hall as [Hfrom _].
    destruct (Hfrom e He) as (c & _ & il' & b & Hil' & Hb & ->).
    cbn in Hchar. rewrite Hchar, Hil in Hil'. injection Hil' as <-.
    assert (Ht' : t ∈ bucketed b).
    { unfold bucketed. cbn in Ht. revert Ht. rewrite !elem_of_app.
      rewrite <- !(sort_Slice_Permutation _ by_Timestamp_desc). tauto. }
    destruct (fill_bucketed _ _ _ _ t Hb Ht')
      as [Hempty | (isu' & cond' & Hin' & Hans' & Hlevel' & ->)].
    + now apply elem_of_nil in Hempty.
    + cbn in Hid.
      assert (isu' = isu) as -> by now apply (Isu_ID_determines il).
      unfold answer in Hans'. congruence.
Qed.

End Trend.

(** ** Runs on the in-memory store *)

Section Runs.

Import MemStore.

Lemma InsertQueue_PopAll_fifo_witness :
  let w := boot empty_store in
  let w1 := InsertQueue_Insert batch_2 (InsertQueue_Insert batch_1 w) in
  let w2 := snd (InsertQueue_PopAll w1) in
  insertQueue w = []
  /\ fst (InsertQueue_PopAll w1) = batch_1 ++ batch_2
  /\ fst (InsertQueue_PopAll w2) = []
  /\ insertQueue (snd (InsertQueue_PopAll w2)) = [].
Proof.
  split; [reflexivity |].
  apply (InsertQueue_PopAll_fifo (boot empty_store) batch_1 batch_2).
  reflexivity.
Defined.

Lemma failed_insert_is_logged_and_dropped_witness :
  let w := InsertQueue_Insert batch_1 (boot unreachable_store) in
  let w' := insertIsuConditionScheduled_tick w in
  fst (db_NamedExec_insert (db w) (insertQueue w)) = Some refused
  /\ (exists before,
         events w' = events w ++ before
                     ++ [LogLine "failed to insert isu condition: %v" refused]
         /\ store_requests before = [InsertIsuConditions (insertQueue w)]
         /\ forallb (fun e => negb (is_Enqueued e)) before = true)
  /\ insertQueue w' = insertQueue (snd (InsertQueue_PopAll w))
  /\ insertQueue w' = [].
Proof.
  split; [reflexivity |].
  apply (failed_insert_is_logged_and_dropped
           (InsertQueue_Insert batch_1 (boot unreachable_store)) refused).
  - discriminate.
  - reflexivity.
Defined.

Lemma Get_after_load_is_served_from_cache_witness :
  let w := boot trend_store in
  let cond := report "isu-a" 10 all_true "critical" in
  let isu := device 1 "isu-a" "X" in
  (IsuConditionCache_Get "isu-a" w = (Ok cond, snd (IsuConditionCache_Get "isu-a" w))
   /\ Forall2 (fun op a => op = CondGet "isu-a" -> a = CondAnswer (Ok cond))
              mixed_run
              (fst (cache_run mixed_run (snd (IsuConditionCache_Get "isu-a" w))))
   /\ store_calls (GetLatestIsuCondition "isu-a")
        (events (snd (cache_run mixed_run (snd (IsuConditionCache_Get "isu-a" w)))))
      = 1)
  /\ (IsuCache_Get "isu-a" w = (Ok isu, snd (IsuCache_Get "isu-a" w))
      /\ Forall2 (fun op a => op = IsuGet "isu-a" -> a = IsuAnswer (Ok isu))
                 mixed_run
                 (fst (cache_run mixed_run (snd (IsuCache_Get "isu-a" w))))
      /\ store_calls (GetIsu "isu-a")
           (events (snd (cache_run mixed_run (snd (IsuCache_Get "isu-a" w)))))
         = 1).
Proof.
  cbv zeta.
  assert (Hcond : CondForget "isu-a" ∉ mixed_run).
  { unfold mixed_run. rewrite !not_elem_of_cons.
    repeat split; try discriminate. apply not_elem_of_nil. }
  assert (Hisu : IsuForget "isu-a" ∉ mixed_run).
  { unfold mixed_run. rewrite !not_elem_of_cons.
    repeat split; try discriminate. apply not_elem_of_nil. }
  destruct (Get_after_load_is_served_from_cache
              (boot trend_store) "isu-a" mixed_run Hcond Hisu) as [Hc Hi].
  split.
  - split; [reflexivity |].
    exact (Hc (report "isu-a" 10 all_true "critical")
              (snd (IsuConditionCache_Get "isu-a" (boot trend_store)))
              eq_refl eq_refl).
  - split; [reflexivity |].
    exact (Hi (device 1 "isu-a" "X")
              (snd (IsuCache_Get "isu-a" (boot trend_store)))
              eq_refl eq_refl).
Defined.

(** C1, as the claim has it, fails: after a first recompute has published
    a snapshot the store goes down, and the next round replaces the
    published snapshot by [nil]. *)
Lemma failed_recompute_drops_published_snapshot :
  let w := set_db trend_store_down (calculateTrendScheduled_tick warmed_up) in
  db_Select_characters (db w) = Err refused
  /\ errors_Is refused sql_ErrNoRows = false
  /\ TrendCache_Get w = Some snapshot_1
  /\ TrendCache_Get (calculateTrendScheduled_tick w) = None
  /\ TrendCache_Get (calculateTrendScheduled_tick w) <> TrendCache_Get w.
Proof. cbv zeta. repeat split. discriminate. Qed.

Lemma failed_recompute_publishes_nil_witness :
  let w := set_db trend_store_down (calculateTrendScheduled_tick warmed_up) in
  read_fails w
  /\ fst (calculateTrend w) = None
  /\ TrendCache_Get (calculateTrendScheduled_tick w) = None.
Proof.
  cbv zeta.
  assert (Hfail : read_fails
                    (set_db trend_store_down (calculateTrendScheduled_tick warmed_up))).
  { apply (characters_fail _ refused); reflexivity. }
  split; [exact Hfail |].
  exact (failed_recompute_publishes_nil _ Hfail).
Defined.

Lemma published_buckets_are_descending_witness :
  TrendCache_Get (calculateTrendScheduled_tick warmed_up) = Some snapshot_1
  /\ Forall buckets_descending snapshot_1
  /\ (exists e, e ∈ snapshot_1 /\ TrendResponse_Character e = "X")
  /\ (forall e, e ∈ snapshot_1 ->
                TrendResponse_Character e = "X" ->
                TrendResponse_Critical e
                = [ {| TrendCondition_ID := 2; TrendCondition_Timestamp := 20 |};
                    {| TrendCondition_ID := 1; TrendCondition_Timestamp := 10 |} ]).
Proof.
  assert (Hres : TrendCache_Get (calculateTrendScheduled_tick warmed_up)
                 = Some snapshot_1) by reflexivity.
  split; [exact Hres |].
  destruct (published_buckets_are_descending warmed_up snapshot_1 Hres) as [Hsorted HX].
  split; [exact Hsorted |].
  exact (HX (character_row "X")
            (id_uuid_row (device 1 "isu-a" "X")) (id_uuid_row (device 2 "isu-b" "X"))
            (report "isu-a" 10 all_true "critical")
            (report "isu-b" 20 all_true "critical")
            [character_row "X"; character_row "Y"]
            [id_uuid_row (device 1 "isu-a" "X"); id_uuid_row (device 2 "isu-b" "X")]
            eq_refl (list_elem_of_here _ _) eq_refl (or_introl eq_refl)
            eq_refl eq_refl eq_refl eq_refl eq_refl eq_refl).
Defined.

Lemma unknown_level_is_left_out_witness :
  let w := boot trend_store in
  let isu := id_uuid_row (device 3 "isu-c" "Y") in
  let cond := report "isu-c" 30 all_true "" in
  fst (IsuConditionCache_Get (Isu_JIAIsuUUID isu) w) = Ok cond
  /\ ~ known_level (IsuCondition_Level cond)
  /\ TrendCache_Get (calculateTrendScheduled_tick w) = Some snapshot_1
  /\ (forall (after : list Isu) (b : Buckets),
         calculateTrend_isuList (isu :: after) b w
         = calculateTrend_isuList after b
             (snd (IsuConditionCache_Get (Isu_JIAIsuUUID isu) w)))
  /\ (forall (before after : list Isu) (b : Buckets),
         fst (calculateTrend_isuList (before ++ isu :: after) b w)
         = fst (calculateTrend_isuList (before ++ after) b w))
  /\ (forall e t,
         e ∈ snapshot_1 ->
         TrendResponse_Character e = "Y" ->
         t ∈ TrendResponse_Info e ++ TrendResponse_Warning e ++ TrendResponse_Critical e ->
         TrendCondition_ID t <> 3%Z).
Proof.
  cbv zeta.
  assert (Hlevel : ~ known_level
                     (IsuCondition_Level (report "isu-c" 30 all_true ""))).
  { intros [Hl|[Hl|Hl]]; discriminate Hl. }
  assert (Hget : fst (IsuConditionCache_Get
                        (Isu_JIAIsuUUID (id_uuid_row (device 3 "isu-c" "Y")))
                        (boot trend_store))
                 = Ok (report "isu-c" 30 all_true "")) by reflexivity.
  split; [exact Hget | split; [exact Hlevel | split; [reflexivity |]]].
  destruct (unknown_level_is_left_out (boot trend_store)
              (id_uuid_row (device 3 "isu-c" "Y"))
              (report "isu-c" 30 all_true "") Hget Hlevel)
    as (Hstep & Hloop & Hout).
  split; [exact Hstep | split; [exact Hloop |]].
  apply (Hout snapshot_1 "Y" [id_uuid_row (device 3 "isu-c" "Y")]).
  - reflexivity.
  - reflexivity.
  - apply list_elem_of_here.
  - cbn. apply NoDup_singleton.
Defined.

End Runs.

(** * Further properties *)

(** ** Caches: invalidation and failed loads *)

Section FurtherCaches.

Context {DB : Type} `{Store DB}.

Implicit Types (w : World DB) (k : string).

(** X1. Whatever a cache held for a key, a [Get] right after [Forget] of
    that key asks the store once for it and returns what the store answers
    now.  This holds of the latest-condition cache and of the device
    cache. *)
Theorem Get_after_Forget_asks_the_store w k :
  (fst (IsuConditionCache_Get k (IsuConditionCache_Forget k w))
   = loaded (db_Get_latest_isu_condition (db w) k)
   /\ store_calls (GetLatestIsuCondition k)
        (events (snd (IsuConditionCache_Get k (IsuConditionCache_Forget k w))))
      = S (store_calls (GetLatestIsuCondition k) (events w)))
  /\ (fst (IsuCache_Get k (IsuCache_Forget k w)) = loaded (db_Get_isu (db w) k)
      /\ store_calls (GetIsu k) (events (snd (IsuCache_Get k (IsuCache_Forget k w))))
         = S (store_calls (GetIsu k) (events w))).
Proof.
  split.
  - unfold IsuConditionCache_Get, IsuConditionCache_Forget. cbn.
    rewrite lookup_delete_eq. cbn.
    destruct (db_Get_latest_isu_condition (db w) k) as [i|err]; cbn.
    + split; [reflexivity |].
      rewrite store_calls_snoc, bool_decide_eq_true_2 by reflexivity.
      rewrite store_calls_silent by discriminate. lia.
    + destruct (errors_Is err sql_ErrNoRows); cbn; (split; [reflexivity |]);
        rewrite store_calls_snoc, bool_decide_eq_true_2 by reflexivity;
        rewrite store_calls_silent by discriminate; lia.
  - unfold IsuCache_Get, IsuCache_Forget. cbn.
    rewrite lookup_delete_eq. cbn.
    destruct (db_Get_isu (db w) k) as [i|err]; cbn.
    + split; [reflexivity |].
      rewrite store_calls_snoc, bool_decide_eq_true_2 by reflexivity.
      rewrite store_calls_silent by discriminate. lia.
    + destruct (errors_Is err sql_ErrNoRows); cbn; (split; [reflexivity |]);
        rewrite store_calls_snoc, bool_decide_eq_true_2 by reflexivity;
        rewrite store_calls_silent by discriminate; lia.
Qed.

(** X2. When the store fails on a miss with an error other than
    [sql.ErrNoRows], the latest-condition cache and the device cache return
    that very error, the user cache returns it formatted into
    ["db error: %v"], and none of them stores anything: the state changes by
    the one store call only, so the next [Get] asks the store again. *)
Theorem Get_store_error_is_not_cached w k (err : error) :
  errors_Is err sql_ErrNoRows = false ->
  (isuConditionCache w !! k = None ->
   db_Get_latest_isu_condition (db w) k = Err err ->
   IsuConditionCache_Get k w = (Err err, emit (StoreCall (GetLatestIsuCondition k)) w))
  /\ (isuCache w !! k = None ->
      db_Get_isu (db w) k = Err err ->
      IsuCache_Get k w = (Err err, emit (StoreCall (GetIsu k)) w))
  /\ (k ∉ userCache w ->
      db_Get_user (db w) k = Err err ->
      UserCache_Get k w
      = (Err (fmt_Errorf_v "db error: %v" err), emit (StoreCall (GetUser k)) w)).
Proof.
  intros Herr. split; [| split].
  - intros Hk Hdb. unfold IsuConditionCache_Get. rewrite Hk. cbn. now rewrite Hdb, Herr.
  - intros Hk Hdb. unfold IsuCache_Get. rewrite Hk. cbn. now rewrite Hdb, Herr.
  - intros Hk Hdb. unfold UserCache_Get.
    rewrite bool_decide_eq_false_2 by exact Hk. cbn. now rewrite Hdb.
Qed.

(** One step keeps a user that the user cache holds: no method removes a
    user. *)
Lemma cache_step_keeps_user (op : CacheOp DB) w k :
  k ∈ userCache w ->
  k ∈ userCache (snd (cache_step op w))
  /\ store_calls (GetUser k) (events (snd (cache_step op w)))
     = store_calls (GetUser k) (events w)
  /\ (op = UserGet k -> fst (cache_step op w) = UserAnswer (Ok true)).
Proof.
  intros Hk.
  destruct op as [k'|k'|k'|k'|k'|f]; cbn [cache_step].
  - unfold IsuConditionCache_Get.
    destruct (isuConditionCache w !! k'); [now cbn |]. cbn.
    destruct (db_Get_latest_isu_condition (db w) k') as [i|err]; cbn;
      [| destruct (errors_Is err sql_ErrNoRows); cbn];
      rewrite store_calls_other by discriminate; repeat split; congruence.
  - cbn. rewrite store_calls_silent by discriminate. repeat split; congruence.
  - unfold IsuCache_Get.
    destruct (isuCache w !! k'); [now cbn |]. cbn.
    destruct (db_Get_isu (db w) k') as [i|err]; cbn;
      [| destruct (errors_Is err sql_ErrNoRows); cbn];
      rewrite store_calls_other by discriminate; repeat split; congruence.
  - cbn. rewrite store_calls_silent by discriminate. repeat split; congruence.
  - unfold UserCache_Get.
    destruct (decide (k' = k)) as [->|Hne].
    + rewrite bool_decide_eq_true_2 by exact Hk. now cbn.
    + destruct (bool_decide (k' ∈ userCache w)); [now cbn |]. cbn.
      destruct (db_Get_user (db w) k') as [count|err]; cbn.
      * destruct (Z.eqb count 0); cbn;
          rewrite store_calls_other by congruence; repeat split;
          try congruence. set_solver.
      * rewrite store_calls_other by congruence. repeat split; congruence.
  - cbn. repeat split; congruence.
Qed.

Lemma cache_run_keeps_user (ops : list (CacheOp DB)) : forall w k,
  k ∈ userCache w ->
  Forall2 (fun op a => op = UserGet k -> a = UserAnswer (Ok true))
          ops (fst (cache_run ops w))
  /\ store_calls (GetUser k) (events (snd (cache_run ops w)))
     = store_calls (GetUser k) (events w).
Proof.
  induction ops as [|op ops IH]; intros w k Hk.
  - split; [constructor | reflexivity].
  - destruct (cache_step_keeps_user op w k Hk) as (Hk1 & Hcalls & Hans).
    destruct (IH _ k Hk1) as (Hall & Hcalls').
    rewrite cache_run_cons. cbn [fst snd]. split.
    + constructor; assumption.
    + now rewrite Hcalls'.
Qed.

(** X3. The user cache is filled once and never emptied.  After a [Get]
    that found the user in the store, over any further run of cache calls
    and store changes every [Get] for that user answers [true], and the
    store has been asked about the user once in all.  A [Get] that
    succeeds always answers [true]. *)
Theorem UserCache_Get_is_cached_for_good w k (r : bool) (w1 : World DB)
    (ops : list (CacheOp DB)) :
  k ∉ userCache w ->
  UserCache_Get k w = (Ok r, w1) ->
  r = true
  /\ Forall2 (fun op a => op = UserGet k -> a = UserAnswer (Ok true))
             ops (fst (cache_run ops w1))
  /\ store_calls (GetUser k) (events (snd (cache_run ops w1)))
     = S (store_calls (GetUser k) (events w)).
Proof.
  intros Hmiss Hget. unfold UserCache_Get in Hget.
  rewrite bool_decide_eq_false_2 in Hget by exact Hmiss. cbn in Hget.
  destruct (db_Get_user (db w) k) as [count|err]; [| discriminate].
  destruct (Z.eqb count 0); [discriminate |].
  injection Hget as <- <-. split; [reflexivity |].
  destruct (cache_run_keeps_user ops
              (set_userCache ({[k]} ∪ userCache w) (emit (StoreCall (GetUser k)) w)) k)
    as [Hall Hcalls]; [cbn; set_solver |].
  split; [exact Hall |]. rewrite Hcalls. cbn.
  rewrite store_calls_snoc, bool_decide_eq_true_2 by reflexivity. lia.
Qed.

End FurtherCaches.

(** ** Write buffer: batches and successive flush rounds *)

Section FurtherBuffer.

Context {DB : Type} `{Store DB}.

Implicit Types (w : World DB) (k : string).

Lemma InsertQueue_Insert_all_queue (batches : list (list IsuCondition)) : forall w,
  insertQueue (InsertQueue_Insert_all batches w) = insertQueue w ++ List.concat batches.
Proof.
  induction batches as [|conds batches IH]; intros w; cbn.
  - now rewrite app_nil_r.
  - unfold InsertQueue_Insert_all in IH. rewrite IH. cbn. now rewrite <- app_assoc.
Qed.

(** X4. However many batches are inserted, by whatever callers, the next
    [PopAll] hands back what was pending followed by every record of every
    batch, in the order of the calls and of the records within each call:
    nothing is lost, repeated or reordered, and the buffer is left empty. *)
Theorem InsertQueue_PopAll_returns_all_batches (batches : list (list IsuCondition)) w :
  fst (InsertQueue_PopAll (InsertQueue_Insert_all batches w))
  = insertQueue w ++ List.concat batches
  /\ List.length (fst (InsertQueue_PopAll (InsertQueue_Insert_all batches w)))
     = List.length (insertQueue w) + sum_list (List.length <$> batches)
  /\ insertQueue (snd (InsertQueue_PopAll (InsertQueue_Insert_all batches w))) = [].
Proof.
  split; [| split].
  - cbn. apply InsertQueue_Insert_all_queue.
  - cbn. rewrite InsertQueue_Insert_all_queue, List.length_app. f_equal.
    induction batches as [|conds batches IH]; cbn; [reflexivity |].
    now rewrite List.length_app, IH.
  - reflexivity.
Qed.

(** X5. A record is sent to the store by one flush round only.  After a
    round, whatever was pending is gone from the buffer, so the next round
    sends exactly the records inserted in between, and sends nothing when
    none were. *)
Theorem next_flush_sends_only_new_records w (conds : list IsuCondition) :
  let w1 := InsertQueue_Insert conds (insertIsuConditionScheduled_tick w) in
  let w2 := insertIsuConditionScheduled_tick w1 in
  store_requests (drop (List.length (events w1)) (events w2))
  = match conds with
    | [] => []
    | _ :: _ => [InsertIsuConditions conds]
    end.
Proof.
  intros w1 w2. subst w2.
  rewrite insertIsuConditionScheduled_tick_events, drop_app_length.
  assert (Hq : insertQueue w1 = conds).
  { subst w1.
    change (insertQueue (insertIsuConditionScheduled_tick w) ++ conds = conds).
    now rewrite insertIsuConditionScheduled_tick_queue. }
  rewrite Hq. destruct conds as [|cond conds]; [reflexivity |].
  unfold flush_trace.
  rewrite !store_requests_app, store_requests_forgotten.
  now destruct (fst (db_NamedExec_insert (db w1) (cond :: conds))).
Qed.


End FurtherBuffer.

(** ** Ingestion: [postIsuCondition] *)

Section FurtherIngestion.

Context {DB : Type} `{Store DB}.

Implicit Types (w : World DB) (req : list PostIsuConditionRequest).

#[local] Arguments isValidConditionFormat : simpl never.
#[local] Arguments calculateConditionLevel : simpl never.

Lemma valid_condition_level (condition : string) :
  isValidConditionFormat condition = Ret true ->
  snd (calculateConditionLevel condition) = None
  /\ known_level (fst (calculateConditionLevel condition)).
Proof.
  intros Hvalid. apply isValidConditionFormat_true_iff in Hvalid.
  destruct Hvalid as (b1 & b2 & b3 & ->). unfold known_level.
  destruct b1, b2, b3; cbn; auto.
Qed.

Lemma postIsuCondition_conds_built (jiaIsuUUID : string) req :
  forall (acc conds : list IsuCondition),
    postIsuCondition_conds jiaIsuUUID req acc = Ret (Built conds) ->
    conds = acc ++ (enqueued_record jiaIsuUUID <$> req)
    /\ Forall (fun cond => isValidConditionFormat (PostIsuConditionRequest_Condition cond)
                           = Ret true) req.
Proof.
  induction req as [|cond req IH]; intros acc conds Hrun; cbn in Hrun.
  - injection Hrun as <-. split; [now rewrite app_nil_r | constructor].
  - destruct (isValidConditionFormat (PostIsuConditionRequest_Condition cond))
      as [[|]|msg] eqn:Hvalid; cbn in Hrun; try discriminate.
    destruct (valid_condition_level _ Hvalid) as [Hnone _].
    destruct (calculateConditionLevel (PostIsuConditionRequest_Condition cond))
      as [level err] eqn:Hlevel. cbn in Hnone. subst err.
    apply IH in Hrun as [-> Hall]. split.
    + rewrite <- app_assoc. cbn. unfold enqueued_record at 2. now rewrite Hlevel.
    + constructor; assumption.
Qed.

Lemma postIsuCondition_conds_of_valid (jiaIsuUUID : string) req :
  Forall (fun cond => isValidConditionFormat (PostIsuConditionRequest_Condition cond)
                      = Ret true) req ->
  forall acc : list IsuCondition,
    postIsuCondition_conds jiaIsuUUID req acc
    = Ret (Built (acc ++ (enqueued_record jiaIsuUUID <$> req))).
Proof.
  induction 1 as [|cond req Hvalid Hall IH]; intros acc; cbn.
  - now rewrite app_nil_r.
  - rewrite Hvalid. cbn.
    destruct (valid_condition_level _ Hvalid) as [Hnone _].
    destruct (calculateConditionLevel (PostIsuConditionRequest_Condition cond))
      as [level err] eqn:Hlevel. cbn in Hnone. subst err.
    rewrite IH, <- app_assoc. cbn. unfold enqueued_record at 2. now rewrite Hlevel.
Qed.

(** X7. When [postIsuCondition] answers 202, the device is known, every
    condition of the request passed the validator, and the buffer has grown
    by one record per element of the request, in the order of the request:
    each carries the device key of the path, the second-resolution
    timestamp, the fields of its element, and the level computed from its
    condition, which is info, warning or critical. *)
Theorem postIsuCondition_accepted (jiaIsuUUID : string)
    (bound : result (list PostIsuConditionRequest)) w :
  fst (postIsuCondition jiaIsuUUID bound w) = Ret (c_NoContent http_StatusAccepted) ->
  exists req isu,
    bound = Ok req
    /\ fst (IsuCache_Get jiaIsuUUID w) = Ok isu
    /\ insertQueue (snd (postIsuCondition jiaIsuUUID bound w))
       = insertQueue w ++ (enqueued_record jiaIsuUUID <$> req)
    /\ Forall (fun cond => isValidConditionFormat (PostIsuConditionRequest_Condition cond)
                           = Ret true) req
    /\ Forall (fun c => known_level (IsuCondition_Level c))
              (enqueued_record jiaIsuUUID <$> req).
Proof.
  unfold postIsuCondition.
  destruct (String.eqb jiaIsuUUID ""); [discriminate |].
  destruct bound as [req|err]; [| discriminate].
  destruct (Nat.eqb (List.length req) 0); [discriminate |].
  assert (Hq : insertQueue (snd (IsuCache_Get jiaIsuUUID w)) = insertQueue w).
  { unfold IsuCache_Get. destruct (isuCache w !! jiaIsuUUID); [reflexivity |]. cbn.
    destruct (db_Get_isu (db w) jiaIsuUUID) as [i|err]; [reflexivity |].
    now destruct (errors_Is err sql_ErrNoRows). }
  destruct (IsuCache_Get jiaIsuUUID w) as [[isu|err] w1]; cbn [fst snd] in *.
  - destruct (postIsuCondition_conds jiaIsuUUID req []) as [[logged r|conds]|msg] eqn:Hrun;
      cbn; try discriminate.
    + intros Hr. exfalso. revert Hrun Hr. clear.
      generalize (@nil IsuCondition).
      induction req as [|cond req IH]; intros acc Hrun Hr; cbn in Hrun; [discriminate |].
      destruct (isValidConditionFormat (PostIsuConditionRequest_Condition cond))
        as [[|]|msg]; cbn in Hrun; try discriminate.
      * destruct (calculateConditionLevel (PostIsuConditionRequest_Condition cond))
          as [level [err|]]; [| now apply (IH _ Hrun)].
        injection Hrun as <- <-. injection Hr as Hr. discriminate.
      * injection Hrun as <- <-. injection Hr as Hr. discriminate.
    + intros _. apply postIsuCondition_conds_built in Hrun as [-> Hall].
      exists req, isu. repeat split; [now rewrite Hq | exact Hall |].
      apply Forall_fmap. eapply Forall_impl; [exact Hall |].
      intros cond Hvalid. now apply valid_condition_level.
  - destruct (errors_Is err sql_ErrNoRows); cbn; discriminate.
Qed.

(** X8. Whenever [postIsuCondition] does not answer 202, be it another
    response or a panic, the buffer and the store are as they were: a
    request is enqueued whole or not at all. *)
Theorem postIsuCondition_rejected_enqueues_nothing (jiaIsuUUID : string)
    (bound : result (list PostIsuConditionRequest)) w :
  fst (postIsuCondition jiaIsuUUID bound w) <> Ret (c_NoContent http_StatusAccepted) ->
  insertQueue (snd (postIsuCondition jiaIsuUUID bound w)) = insertQueue w
  /\ db (snd (postIsuCondition jiaIsuUUID bound w)) = db w.
Proof.
  unfold postIsuCondition.
  destruct (String.eqb jiaIsuUUID ""); [now split |].
  destruct bound as [req|err]; [| now split].
  destruct (Nat.eqb (List.length req) 0); [now split |].
  assert (Hq : insertQueue (snd (IsuCache_Get jiaIsuUUID w)) = insertQueue w
               /\ db (snd (IsuCache_Get jiaIsuUUID w)) = db w).
  { unfold IsuCache_Get. destruct (isuCache w !! jiaIsuUUID); [now split |]. cbn.
    destruct (db_Get_isu (db w) jiaIsuUUID) as [i|err]; [now split |].
    now destruct (errors_Is err sql_ErrNoRows). }
  destruct (IsuCache_Get jiaIsuUUID w) as [[isu|err] w1]; cbn [fst snd] in *.
  - destruct (postIsuCondition_conds jiaIsuUUID req []) as [[logged r|conds]|msg];
      cbn; [| congruence |]; intros _; try exact Hq.
    now destruct logged.
  - now destruct (errors_Is err sql_ErrNoRows).
Qed.

(** X9. A non-empty request for a known device whose conditions are all
    well formed is answered 202. *)
Theorem postIsuCondition_of_valid (jiaIsuUUID : string) req (isu : Isu) w :
  jiaIsuUUID <> "" ->
  req <> [] ->
  fst (IsuCache_Get jiaIsuUUID w) = Ok isu ->
  Forall (fun cond => exists is_dirty is_overweight is_broken,
              PostIsuConditionRequest_Condition cond
              = condition_text is_dirty is_overweight is_broken) req ->
  fst (postIsuCondition jiaIsuUUID (Ok req) w) = Ret (c_NoContent http_StatusAccepted).
Proof.
  intros Huuid Hreq Hget Hall. unfold postIsuCondition.
  destruct (String.eqb_spec jiaIsuUUID ""); [congruence |].
  destruct req as [|cond0 req0] eqn:Ereq; [congruence |]. cbn [List.length Nat.eqb].
  rewrite <- Ereq in *. clear Ereq.
  destruct (IsuCache_Get jiaIsuUUID w) as [r w1]. cbn in Hget. subst r.
  rewrite postIsuCondition_conds_of_valid; [reflexivity |].
  eapply Forall_impl; [exact Hall |].
  intros cond Hwf. now apply isValidConditionFormat_true_iff.
Qed.

(** X10. The device is looked up before any condition is read: for a device
    the store has no row for, a non-empty request is answered 404 whatever
    its conditions are, nothing is enqueued, and the device cache stores
    nothing. *)
Theorem postIsuCondition_unknown_device (jiaIsuUUID : string) req (err : error) w :
  jiaIsuUUID <> "" ->
  req <> [] ->
  isuCache w !! jiaIsuUUID = None ->
  db_Get_isu (db w) jiaIsuUUID = Err err ->
  errors_Is err sql_ErrNoRows = true ->
  postIsuCondition jiaIsuUUID (Ok req) w
  = (Ret (c_String http_StatusNotFound "not found: isu"),
     emit (StoreCall (GetIsu jiaIsuUUID)) w).
Proof.
  intros Huuid Hreq Hmiss Hdb Herr. unfold postIsuCondition.
  destruct (String.eqb_spec jiaIsuUUID ""); [congruence |].
  destruct req as [|cond0 req0]; [congruence |]. cbn [List.length Nat.eqb].
  rewrite (IsuCache_Get_not_found w jiaIsuUUID err Hmiss Hdb Herr).
  reflexivity.
Qed.

End FurtherIngestion.

(** ** Listing: the loop of [getIsuList] *)

Section FurtherListing.

Context {DB : Type} `{Store DB}.

Implicit Types (w : World DB).

Lemma isuList_responses_ext (ans ans' : string -> result IsuCondition)
    (isuList : list Isu) :
  (forall k, ans' k = ans k) ->
  forall found acc,
    isuList_responses ans' isuList found acc = isuList_responses ans isuList found acc.
Proof.
  intros Hext. induction isuList as [|isu isuList IH]; intros found acc; cbn;
    [reflexivity |].
  rewrite Hext. destruct (ans (Isu_JIAIsuUUID isu)) as [cond|err]; [apply IH |].
  destruct (errors_Is err sql_ErrNoRows); [apply IH | reflexivity].
Qed.

Lemma getIsuList_loop_responses (isuList : list Isu) : forall found acc w,
  fst (getIsuList_loop isuList found acc w)
  = isuList_responses (answer w) isuList found acc.
Proof.
  induction isuList as [|isu isuList IH]; intros found acc w;
    cbn [getIsuList_loop isuList_responses]; [reflexivity |].
  pose proof (IsuConditionCache_Get_same_reads w (Isu_JIAIsuUUID isu)) as [_ Hsame].
  unfold answer at 1.
  destruct (IsuConditionCache_Get (Isu_JIAIsuUUID isu) w) as [[cond|err] w1];
    cbn [fst snd] in *.
  - rewrite IH. now apply isuList_responses_ext.
  - destruct (errors_Is err sql_ErrNoRows); [| reflexivity].
    rewrite IH. now apply isuList_responses_ext.
Qed.

Lemma isuList_responses_not_found (ans : string -> result IsuCondition)
    (isuList : list Isu) : forall acc res,
  isuList_responses ans isuList false acc = Some res ->
  res = acc ++ ((fun isu => isuListResponse_of isu None) <$> isuList).
Proof.
  induction isuList as [|isu isuList IH]; intros acc res Hres; cbn in Hres.
  - injection Hres as <-. now rewrite app_nil_r.
  - destruct (ans (Isu_JIAIsuUUID isu)) as [cond|err].
    + apply IH in Hres as ->. now rewrite <- app_assoc.
    + destruct (errors_Is err sql_ErrNoRows); [| discriminate].
      apply IH in Hres as ->. now rewrite <- app_assoc.
Qed.

Lemma isuList_responses_prefix (ans : string -> result IsuCondition)
    (before : list Isu) (isu : Isu) (after : list Isu) :
  ans (Isu_JIAIsuUUID isu) = Err sql_ErrNoRows ->
  forall found acc res,
    isuList_responses ans (before ++ isu :: after) found acc = Some res ->
    exists shown,
      List.length shown = List.length acc + List.length before
      /\ res = shown ++ ((fun isu => isuListResponse_of isu None) <$> (isu :: after)).
Proof.
  intros Hisu. induction before as [|isu0 before IH]; intros found acc res Hres.
  - cbn in Hres. rewrite Hisu in Hres. cbn in Hres.
    apply isuList_responses_not_found in Hres as ->.
    exists acc. split; [cbn; lia | now rewrite <- app_assoc].
  - cbn in Hres. destruct (ans (Isu_JIAIsuUUID isu0)) as [cond|err].
    + apply IH in Hres as (shown & Hlen & ->). exists shown.
      split; [| reflexivity]. rewrite Hlen, List.length_app. cbn. lia.
    + destruct (errors_Is err sql_ErrNoRows); [| discriminate].
      apply IH in Hres as (shown & Hlen & ->). exists shown.
      split; [| reflexivity]. rewrite Hlen, List.length_app. cbn. lia.
Qed.

(** X11. In the list [getIsuList] builds, once a device has no condition
    yet, that device and every device after it are listed without a latest
    condition, whether or not they have one: the flag that records a
    missing condition is not reset between devices. *)
Theorem getIsuList_missing_condition_hides_later_ones w
    (before : list Isu) (isu : Isu) (after : list Isu) (res : list GetIsuListResponse) :
  fst (IsuConditionCache_Get (Isu_JIAIsuUUID isu) w) = Err sql_ErrNoRows ->
  fst (getIsuList_loop (before ++ isu :: after) true [] w) = Some res ->
  List.length res = List.length (before ++ isu :: after)
  /\ drop (List.length before) res
     = (fun isu => isuListResponse_of isu None) <$> (isu :: after).
Proof.
  intros Hisu Hres. rewrite getIsuList_loop_responses in Hres.
  apply (isuList_responses_prefix _ before isu after Hisu) in Hres
    as (shown & Hlen & ->).
  cbn in Hlen. split.
  - rewrite !List.length_app, length_fmap. cbn. lia.
  - rewrite <- Hlen. apply drop_app_length.
Qed.

(** X12. When every listed device has a latest condition, [getIsuList]
    lists every device, in order, each with its latest condition as the
    cache answers it. *)
Theorem getIsuList_lists_latest_conditions w (isuList : list Isu) :
  Forall (fun isu => exists cond,
              fst (IsuConditionCache_Get (Isu_JIAIsuUUID isu) w) = Ok cond) isuList ->
  exists res,
    fst (getIsuList_loop isuList true [] w) = Some res
    /\ Forall2 (fun isu r =>
                  exists cond,
                    fst (IsuConditionCache_Get (Isu_JIAIsuUUID isu) w) = Ok cond
                    /\ r = isuListResponse_of isu (Some (formattedCondition_of isu cond)))
               isuList res.
Proof.
  intros Hall. rewrite getIsuList_loop_responses.
  assert (Hgen : forall acc,
             exists tail,
               isuList_responses (answer w) isuList true acc = Some (acc ++ tail)
               /\ Forall2 (fun isu r =>
                             exists cond,
                               answer w (Isu_JIAIsuUUID isu) = Ok cond
                               /\ r = isuListResponse_of isu
                                        (Some (formattedCondition_of isu cond)))
                          isuList tail).
  { induction Hall as [|isu isuList [cond Hcond] Hall IH]; intros acc.
    - exists []. split; [now rewrite app_nil_r | constructor].
    - cbn. fold (answer w (Isu_JIAIsuUUID isu)) in Hcond. rewrite Hcond.
      destruct (IH (acc ++ [isuListResponse_of isu
                              (Some (formattedCondition_of isu cond))]))
        as (tail & Htail & Hall2).
      exists (isuListResponse_of isu (Some (formattedCondition_of isu cond)) :: tail).
      split; [now rewrite Htail, <- app_assoc |].
      constructor; [now exists cond | exact Hall2]. }
  destruct (Hgen []) as (tail & Htail & Hall2). now exists tail.
Qed.

End FurtherListing.

(** ** Trend recompute: completion, bucket contents, and what it leaves alone *)

Section FurtherTrend.

Context {DB : Type} {store : Store DB} {sorter : SortSlice}
        {contract : SortSliceContract sorter}.

Implicit Types (w : World DB).

Lemma fill_completes (ans : string -> result IsuCondition) (isuList : list Isu) :
  Forall (fun isu => (exists cond, ans (Isu_JIAIsuUUID isu) = Ok cond)
                     \/ ans (Isu_JIAIsuUUID isu) = Err sql_ErrNoRows) isuList ->
  forall b : Buckets, exists b', fill ans isuList b = Some b'.
Proof.
  induction 1 as [|isu isuList [[cond Hans]|Hans] Hall IH]; intros b; cbn.
  - now exists b.
  - rewrite Hans. apply IH.
  - rewrite Hans. cbn. apply IH.
Qed.

Lemma fill_characters_completes (d : DB) (ans : string -> result IsuCondition)
    (characterList : list Isu) :
  Forall (fun character =>
            exists isuList,
              db_Select_isu_by_character d (Isu_Character character) = Ok isuList
              /\ Forall (fun isu => (exists cond, ans (Isu_JIAIsuUUID isu) = Ok cond)
                                    \/ ans (Isu_JIAIsuUUID isu) = Err sql_ErrNoRows)
                        isuList) characterList ->
  forall res0, exists res, fill_characters d ans characterList res0 = Some res.
Proof.
  induction 1 as [|c cl (il & Hil & Hans) Hall IH]; intros res0; cbn.
  - now exists res0.
  - rewrite Hil. destruct (fill_completes ans il Hans emptyBuckets) as [b ->].
    apply IH.
Qed.

(** X13. A recompute in which the store lists the characters and the
    devices of each, and every device either has a latest condition or has
    none ([sql.ErrNoRows]), completes: it publishes a snapshot with one
    entry per character, in the order the store lists them.  Devices with
    no condition do not fail it. *)
Theorem recompute_completes_when_reads_succeed w (characterList : list Isu) :
  db_Select_characters (db w) = Ok characterList ->
  Forall (fun character =>
            exists isuList,
              db_Select_isu_by_character (db w) (Isu_Character character) = Ok isuList
              /\ Forall (fun isu =>
                           (exists cond,
                               fst (IsuConditionCache_Get (Isu_JIAIsuUUID isu) w) = Ok cond)
                           \/ fst (IsuConditionCache_Get (Isu_JIAIsuUUID isu) w)
                              = Err sql_ErrNoRows) isuList) characterList ->
  exists res,
    TrendCache_Get (calculateTrendScheduled_tick w) = Some res
    /\ TrendResponse_Character <$> res = Isu_Character <$> characterList.
Proof.
  intros Hcl Hall. rewrite calculateTrendScheduled_tick_publishes.
  destruct (fill_characters_completes (db w) (answer w) characterList Hall [])
    as [res Hres].
  exists res. split; [unfold trend_of; now rewrite Hcl |].
  apply fill_characters_entries in Hres as (entries & -> & Hentries). cbn.
  clear Hall Hcl. induction Hentries as [|c e cl es (il & b & _ & _ & ->) _ IH];
    [reflexivity |]. cbn. now rewrite IH.
Qed.

Lemma bucket_conditions (level : string) (t : TrendCondition) (b : Buckets) :
  characterInfoIsuConditions (bucket level t b)
  = characterInfoIsuConditions b ++ (if String.eqb level "info" then [t] else [])
  /\ characterWarningIsuConditions (bucket level t b)
     = characterWarningIsuConditions b ++ (if String.eqb level "warning" then [t] else [])
  /\ characterCriticalIsuConditions (bucket level t b)
     = characterCriticalIsuConditions b
       ++ (if String.eqb level "critical" then [t] else []).
Proof.
  unfold bucket.
  destruct (String.eqb_spec level "info") as [->|?]; [now cbn; rewrite !app_nil_r |].
  destruct (String.eqb_spec level "warning") as [->|?]; [now cbn; rewrite !app_nil_r |].
  destruct (String.eqb_spec level "critical") as [->|?]; now cbn; rewrite !app_nil_r.
Qed.

Lemma conditions_at_cons (ans : string -> result IsuCondition) (level : string)
    (isu : Isu) (isuList : list Isu) :
  conditions_at ans level (isu :: isuList)
  = match ans (Isu_JIAIsuUUID isu) with
    | Ok cond =>
        if String.eqb (IsuCondition_Level cond) level
        then [trendCondition_of isu cond] else []
    | Err _ => []
    end ++ conditions_at ans level isuList.
Proof.
  unfold conditions_at. cbn.
  destruct (ans (Isu_JIAIsuUUID isu)) as [cond|err]; [| reflexivity].
  now destruct (String.eqb (IsuCondition_Level cond) level).
Qed.

Lemma fill_conditions (ans : string -> result IsuCondition) (isuList : list Isu) :
  forall b b' : Buckets,
    fill ans isuList b = Some b' ->
    characterInfoIsuConditions b'
    = characterInfoIsuConditions b ++ conditions_at ans "info" isuList
    /\ characterWarningIsuConditions b'
       = characterWarningIsuConditions b ++ conditions_at ans "warning" isuList
    /\ characterCriticalIsuConditions b'
       = characterCriticalIsuConditions b ++ conditions_at ans "critical" isuList.
Proof.
  induction isuList as [|isu isuList IH]; intros b b' Hfill; cbn in Hfill.
  - injection Hfill as <-. cbn. now rewrite !app_nil_r.
  - rewrite !conditions_at_cons.
    destruct (ans (Isu_JIAIsuUUID isu)) as [cond|err].
    + apply IH in Hfill as (-> & -> & ->).
      destruct (bucket_conditions (IsuCondition_Level cond) (trendCondition_of isu cond) b)
        as (-> & -> & ->).
      now rewrite <- !app_assoc.
    + destruct (errors_Is err sql_ErrNoRows); [| discriminate]. now apply IH.
Qed.

(** X14. In a published snapshot, the entry of each character holds, in its
    info, warning and critical bucket, exactly the devices the store lists
    for that character whose latest condition carries that level, each
    once, with the timestamp of that condition. *)
Theorem published_buckets_hold_devices_by_level w (res : list TrendResponse) :
  TrendCache_Get (calculateTrendScheduled_tick w) = Some res ->
  exists characterList,
    db_Select_characters (db w) = Ok characterList
    /\ Forall2 (fun character e =>
                  TrendResponse_Character e = Isu_Character character
                  /\ exists isuList,
                      db_Select_isu_by_character (db w) (Isu_Character character)
                      = Ok isuList
                      /\ Permutation (TrendResponse_Info e)
                           (conditions_at (answer w) "info" isuList)
                      /\ Permutation (TrendResponse_Warning e)
                           (conditions_at (answer w) "warning" isuList)
                      /\ Permutation (TrendResponse_Critical e)
                           (conditions_at (answer w) "critical" isuList))
               characterList res.
Proof.
  rewrite calculateTrendScheduled_tick_publishes. intros Hres.
  apply trend_of_entries in Hres as (cl & Hcl & Hall).
  exists cl. split; [exact Hcl |].
  eapply Forall2_impl; [exact Hall |].
  intros c e (il & b & Hil & Hb & ->). split; [reflexivity |].
  exists il. split; [exact Hil |].
  apply fill_conditions in Hb as (Hinfo & Hwarning & Hcritical). cbn in *.
  unfold entry; cbn. rewrite Hinfo, Hwarning, Hcritical.
  repeat split; symmetry; apply sort_Slice_Permutation.
Qed.

End FurtherTrend.

Section FurtherTrendFrame.

Context {DB : Type} {store : Store DB} {sorter : SortSlice}.

Implicit Types (w : World DB).

Lemma IsuConditionCache_Get_bystanders w (k : string) :
  bystanders (snd (IsuConditionCache_Get k w)) = bystanders w.
Proof.
  unfold IsuConditionCache_Get.
  destruct (isuConditionCache w !! k); [reflexivity |]. cbn.
  destruct (db_Get_latest_isu_condition (db w) k) as [i|err]; [reflexivity |].
  now destruct (errors_Is err sql_ErrNoRows).
Qed.

Lemma calculateTrend_isuList_bystanders (isuList : list Isu) : forall (b : Buckets) w,
  bystanders (snd (calculateTrend_isuList isuList b w)) = bystanders w.
Proof.
  induction isuList as [|isu isuList IH]; intros b w; cbn [calculateTrend_isuList];
    [reflexivity |].
  pose proof (IsuConditionCache_Get_bystanders w (Isu_JIAIsuUUID isu)) as Hget.
  destruct (IsuConditionCache_Get (Isu_JIAIsuUUID isu) w) as [[cond|err] w1];
    cbn [snd] in Hget.
  - now rewrite IH.
  - destruct (errors_Is err sql_ErrNoRows); [now rewrite IH | exact Hget].
Qed.

Lemma calculateTrend_characterList_bystanders (characterList : list Isu) :
  forall (res : list TrendResponse) w,
    bystanders (snd (calculateTrend_characterList characterList res w)) = bystanders w.
Proof.
  induction characterList as [|c cl IH]; intros res w;
    cbn [calculateTrend_characterList]; [reflexivity |].
  set (w1 := emit (StoreCall (SelectIsuByCharacter (Isu_Character c))) w).
  change (db w1) with (db w).
  destruct (db_Select_isu_by_character (db w) (Isu_Character c)) as [il|err];
    [| reflexivity].
  pose proof (calculateTrend_isuList_bystanders il emptyBuckets w1) as Hil.
  destruct (calculateTrend_isuList il emptyBuckets w1) as [[b|] w2]; cbn [snd] in Hil.
  - now rewrite IH.
  - exact Hil.
Qed.

Lemma calculateTrend_same_reads w : same_reads w (snd (calculateTrend w)).
Proof.
  unfold calculateTrend.
  set (w1 := emit (StoreCall SelectCharacters) w).
  pose proof (same_reads_emit (StoreCall SelectCharacters) w) as Hw1. fold w1 in Hw1.
  change (db w1) with (db w).
  destruct (db_Select_characters (db w)) as [cl|err].
  - eapply same_reads_trans; [exact Hw1 |].
    apply (calculateTrend_characterList_fill cl [] w1).
  - eapply same_reads_trans; [exact Hw1 | apply same_reads_emit].
Qed.

(** X15. A recompute round only reads: it leaves the store, the write
    buffer, the device cache and the user cache as they were, and after it
    every [Get] of the latest-condition cache answers what it would have
    answered before the round. *)
Theorem recompute_only_reads w :
  let w' := calculateTrendScheduled_tick w in
  db w' = db w
  /\ (forall k, fst (IsuConditionCache_Get k w') = fst (IsuConditionCache_Get k w))
  /\ insertQueue w' = insertQueue w
  /\ isuCache w' = isuCache w
  /\ userCache w' = userCache w.
Proof.
  intros w'. subst w'. unfold calculateTrendScheduled_tick.
  pose proof (calculateTrend_same_reads w) as [Hdb Hans].
  assert (Hby : bystanders (snd (calculateTrend w)) = bystanders w).
  { unfold calculateTrend.
    set (w1 := emit (StoreCall SelectCharacters) w). change (db w1) with (db w).
    destruct (db_Select_characters (db w)) as [cl|err]; [| reflexivity].
    apply (calculateTrend_characterList_bystanders cl [] w1). }
  destruct (calculateTrend w) as [trend w1]. cbn [snd] in *.
  injection Hby as Hq Hisu Huser.
  split; [exact Hdb | split; [| now repeat split]].
  intros k. fold (answer (TrendCache_Set trend w1) k). fold (answer w k).
  rewrite <- Hans. now rewrite !answer_unfold.
Qed.

End FurtherTrendFrame.

(** ** Graph data points: [calculateGraphDataPoint] *)

Section FurtherGraphDataPoint.

#[local] Arguments isValidConditionFormat : simpl never.
#[local] Arguments calculateConditionLevel : simpl never.
#[local] Arguments strings_Split : simpl never.
#[local] Arguments strings_Count : simpl never.
#[local] Arguments GoInt.add : simpl never.
#[local] Arguments GoInt.mul : simpl never.

Local Open Scope Z_scope.

Lemma GoInt_wrap_small (z : Z) : - 2 ^ 63 <= z < 2 ^ 63 -> GoInt.wrap z = z.
Proof. intros Hz. unfold GoInt.wrap. rewrite Z.mod_small; lia. Qed.

Lemma GoInt_add_small (a b : Z) : - 2 ^ 63 <= a + b < 2 ^ 63 -> GoInt.add a b = a + b.
Proof. apply GoInt_wrap_small. Qed.

Lemma GoInt_mul_small (a b : Z) : - 2 ^ 63 <= a * b < 2 ^ 63 -> GoInt.mul a b = a * b.
Proof. apply GoInt_wrap_small. Qed.

Lemma GoInt_div_small (a b : Z) :
  0 <= a < 2 ^ 63 -> 0 < b -> GoInt.div a b = Ret (a / b).
Proof.
  intros Ha Hb. unfold GoInt.div.
  destruct (Z.eqb_spec b 0); [lia |].
  rewrite Z.quot_div_nonneg by lia. rewrite GoInt_wrap_small; [reflexivity |].
  assert (0 <= a / b <= a); [| lia].
  split; [apply Z.div_pos; lia | apply Z.div_le_upper_bound; nia].
Qed.

(** What one well-formed condition does to the counters and to the count of
    bad flags. *)
Lemma calculateGraphDataPoint_flags_of_valid (is_dirty is_overweight is_broken : bool)
    (conditionsCount : gmap string Z) :
  calculateGraphDataPoint_flags
    (strings_Split (condition_text is_dirty is_overweight is_broken) ",")
    conditionsCount 0
  = Ret (bump is_broken "is_broken"
           (bump is_overweight "is_overweight" (bump is_dirty "is_dirty" conditionsCount)),
         Z.of_nat (true_count is_dirty is_overweight is_broken)).
Proof. destruct is_dirty, is_overweight, is_broken; reflexivity. Qed.

Lemma map_index_bump (b : bool) (flag flag' : string) (m : gmap string Z) :
  map_index (bump b flag m) flag'
  = if b && bool_decide (flag = flag') then GoInt.add (map_index m flag) 1
    else map_index m flag'.
Proof.
  unfold bump, map_index. destruct b; [| reflexivity]. cbn.
  destruct (decide (flag = flag')) as [->|Hne].
  - rewrite bool_decide_eq_true_2 by reflexivity. now rewrite lookup_insert_eq.
  - rewrite bool_decide_eq_false_2 by exact Hne. now rewrite lookup_insert_ne.
Qed.

Lemma bump_all_index (b1 b2 b3 : bool) (m : gmap string Z) :
  let m1 := bump b3 "is_broken" (bump b2 "is_overweight" (bump b1 "is_dirty" m)) in
  map_index m1 "is_dirty"
  = (if b1 then GoInt.add (map_index m "is_dirty") 1 else map_index m "is_dirty")
  /\ map_index m1 "is_overweight"
     = (if b2 then GoInt.add (map_index m "is_overweight") 1
        else map_index m "is_overweight")
  /\ map_index m1 "is_broken"
     = (if b3 then GoInt.add (map_index m "is_broken") 1 else map_index m "is_broken").
Proof.
  destruct b1, b2, b3; unfold bump, map_index; cbv zeta;
    repeat (rewrite lookup_insert_eq || rewrite lookup_insert_ne by discriminate);
    repeat split.
Qed.

Lemma valid_condition_counts (condition : string) :
  isValidConditionFormat condition = Ret true ->
  exists is_dirty is_overweight is_broken : bool,
    condition = condition_text is_dirty is_overweight is_broken
    /\ Z.of_nat (strings_Count condition (String.append "is_dirty" "=true"))
       = Z.b2z is_dirty
    /\ Z.of_nat (strings_Count condition (String.append "is_overweight" "=true"))
       = Z.b2z is_overweight
    /\ Z.of_nat (strings_Count condition (String.append "is_broken" "=true"))
       = Z.b2z is_broken
    /\ level_score (fst (calculateConditionLevel condition))
       = (if 3 <=? Z.of_nat (true_count is_dirty is_overweight is_broken)
          then scoreConditionLevelCritical
          else if 1 <=? Z.of_nat (true_count is_dirty is_overweight is_broken)
               then scoreConditionLevelWarning
               else scoreConditionLevelInfo).
Proof.
  intros Hvalid. apply isValidConditionFormat_true_iff in Hvalid.
  destruct Hvalid as (b1 & b2 & b3 & ->). exists b1, b2, b3.
  destruct b1, b2, b3; repeat split; reflexivity.
Qed.

Lemma level_score_bounds (level : string) : 1 <= level_score level <= 3.
Proof.
  unfold level_score, scoreConditionLevelCritical, scoreConditionLevelWarning,
    scoreConditionLevelInfo.
  destruct (String.eqb level conditionLevelCritical); [lia |].
  destruct (String.eqb level conditionLevelWarning); lia.
Qed.

Lemma raw_score_bounds (isuConditions : list IsuCondition) :
  Z.of_nat (List.length isuConditions) <= raw_score isuConditions
  <= 3 * Z.of_nat (List.length isuConditions).
Proof.
  unfold raw_score. induction isuConditions as [|c l IH]; [cbn; lia |].
  cbn [Z_sum foldr List.length].
  pose proof (level_score_bounds
                (fst (calculateConditionLevel (IsuCondition_Condition c)))).
  unfold Z_sum in IH. lia.
Qed.

Lemma sitting_count_bounds (isuConditions : list IsuCondition) :
  0 <= sitting_count isuConditions <= Z.of_nat (List.length isuConditions).
Proof.
  unfold sitting_count. induction isuConditions as [|c l IH]; [cbn; lia |].
  cbn [Z_sum foldr List.length]. unfold Z_sum in IH.
  destruct (IsuCondition_IsSitting c); lia.
Qed.

Lemma flag_count_bounds (flag : string) (isuConditions : list IsuCondition) :
  flag = "is_dirty" \/ flag = "is_overweight" \/ flag = "is_broken" ->
  Forall valid_condition isuConditions ->
  0 <= flag_count flag isuConditions <= Z.of_nat (List.length isuConditions).
Proof.
  intros Hflag Hall. unfold flag_count.
  induction Hall as [|c l Hc Hall IH]; [cbn; lia |].
  cbn [Z_sum foldr List.length]. unfold Z_sum in IH.
  destruct (valid_condition_counts _ Hc) as (b1 & b2 & b3 & _ & H1 & H2 & H3 & _).
  destruct Hflag as [-> | [-> | ->]];
    [rewrite H1; destruct b1 | rewrite H2; destruct b2 | rewrite H3; destruct b3];
    cbn [Z.b2z]; lia.
Qed.

Lemma calculateGraphDataPoint_sitting_count (isuConditions : list IsuCondition) :
  forall sittingCount,
    0 <= sittingCount ->
    sittingCount + Z.of_nat (List.length isuConditions) < 2 ^ 62 ->
    calculateGraphDataPoint_sitting isuConditions sittingCount
    = sittingCount + sitting_count isuConditions.
Proof.
  unfold sitting_count.
  induction isuConditions as [|c l IH]; intros s Hs Hbound;
    cbn [calculateGraphDataPoint_sitting Z_sum foldr List.length] in *; [lia |].
  unfold Z_sum in IH.
  destruct (IsuCondition_IsSitting c).
  - rewrite GoInt_add_small by lia. rewrite IH by lia. lia.
  - rewrite IH by lia. lia.
Qed.

(** The first loop, on well-formed conditions and counters far from the
    limits of [int]: it adds to each counter the number of conditions that
    set its flag, and to the score the scores of the levels. *)
Lemma calculateGraphDataPoint_score_of_valid (isuConditions : list IsuCondition) :
  Forall valid_condition isuConditions ->
  forall (m : gmap string Z) (r : Z),
    0 <= map_index m "is_dirty" -> 0 <= map_index m "is_overweight" ->
    0 <= map_index m "is_broken" -> 0 <= r ->
    map_index m "is_dirty" + Z.of_nat (List.length isuConditions) < 2 ^ 62 ->
    map_index m "is_overweight" + Z.of_nat (List.length isuConditions) < 2 ^ 62 ->
    map_index m "is_broken" + Z.of_nat (List.length isuConditions) < 2 ^ 62 ->
    r + 3 * Z.of_nat (List.length isuConditions) < 2 ^ 62 ->
    exists m',
      calculateGraphDataPoint_score isuConditions m r
      = Ret (Ok (m', r + raw_score isuConditions))
      /\ map_index m' "is_dirty" = map_index m "is_dirty" + flag_count "is_dirty" isuConditions
      /\ map_index m' "is_overweight"
         = map_index m "is_overweight" + flag_count "is_overweight" isuConditions
      /\ map_index m' "is_broken"
         = map_index m "is_broken" + flag_count "is_broken" isuConditions.
Proof.
  unfold raw_score, flag_count.
  induction 1 as [|c l Hc Hall IH]; intros m r HD HO HB Hr HDn HOn HBn Hrn.
  - exists m. cbn. repeat split; f_equal; lia || (do 2 f_equal; lia).
  - cbn [List.length] in *. cbn [calculateGraphDataPoint_score].
    pose proof Hc as Hvalid. unfold valid_condition in Hvalid. rewrite Hvalid.
    cbn [bind negb].
    destruct (valid_condition_counts _ Hvalid)
      as (b1 & b2 & b3 & Hcond & H1 & H2 & H3 & Hscore).
    pose proof (calculateGraphDataPoint_flags_of_valid b1 b2 b3 m) as Hflags.
    rewrite <- Hcond in Hflags. rewrite Hflags. cbn [bind]. clear Hflags.
    set (m1 := bump b3 "is_broken" (bump b2 "is_overweight" (bump b1 "is_dirty" m))).
    destruct (bump_all_index b1 b2 b3 m) as (HD1 & HO1 & HB1). fold m1 in HD1, HO1, HB1.
    assert (HD1' : map_index m1 "is_dirty" = map_index m "is_dirty" + Z.b2z b1).
    { rewrite HD1. destruct b1; cbn [Z.b2z]; [apply GoInt_add_small |]; lia. }
    assert (HO1' : map_index m1 "is_overweight" = map_index m "is_overweight" + Z.b2z b2).
    { rewrite HO1. destruct b2; cbn [Z.b2z]; [apply GoInt_add_small |]; lia. }
    assert (HB1' : map_index m1 "is_broken" = map_index m "is_broken" + Z.b2z b3).
    { rewrite HB1. destruct b3; cbn [Z.b2z]; [apply GoInt_add_small |]; lia. }
    clear HD1 HO1 HB1.
    set (r1 := if 3 <=? Z.of_nat (true_count b1 b2 b3)
               then GoInt.add r scoreConditionLevelCritical
               else if 1 <=? Z.of_nat (true_count b1 b2 b3)
                    then GoInt.add r scoreConditionLevelWarning
                    else GoInt.add r scoreConditionLevelInfo).
    assert (Hr1 : r1 = r + level_score
                             (fst (calculateConditionLevel (IsuCondition_Condition c)))).
    { unfold r1. rewrite Hscore.
      destruct (3 <=? Z.of_nat (true_count b1 b2 b3));
        [| destruct (1 <=? Z.of_nat (true_count b1 b2 b3))];
        apply GoInt_add_small;
        unfold scoreConditionLevelCritical, scoreConditionLevelWarning,
          scoreConditionLevelInfo; lia. }
    pose proof (level_score_bounds
                  (fst (calculateConditionLevel (IsuCondition_Condition c)))) as Hls.
    assert (Hb1 : 0 <= Z.b2z b1 <= 1) by (destruct b1; cbn; lia).
    assert (Hb2 : 0 <= Z.b2z b2 <= 1) by (destruct b2; cbn; lia).
    assert (Hb3 : 0 <= Z.b2z b3 <= 1) by (destruct b3; cbn; lia).
    destruct (IH m1 r1) as (m' & Hrun & HD' & HO' & HB'); try lia.
    exists m'. fold r1. rewrite Hrun. cbn [Z_sum foldr].
    unfold Z_sum in *. rewrite H1, H2, H3.
    repeat split; [do 3 f_equal; lia | lia..].
Qed.

Lemma percentage_bounds (count n : Z) : 0 <= count <= n -> 0 < n -> 0 <= count * 100 / n <= 100.
Proof.
  intros Hc Hn. split.
  - apply Z.div_pos; lia.
  - apply Z.div_le_upper_bound; lia.
Qed.

Lemma score_bounds (raw n : Z) : n <= raw <= 3 * n -> 0 < n -> 33 <= raw * 100 / 3 / n <= 100.
Proof.
  intros Hr Hn.
  assert (H3 : 33 * n <= raw * 100 / 3 <= 100 * n).
  { split.
    - apply Z.div_le_lower_bound; lia.
    - apply Z.div_le_upper_bound; lia. }
  split.
  - apply Z.div_le_lower_bound; lia.
  - apply Z.div_le_upper_bound; lia.
Qed.

(** On a non-empty group of well-formed reports the function returns the
    data point of the formulas. *)
Lemma calculateGraphDataPoint_returns (isuConditions : list IsuCondition) :
  isuConditions <> [] ->
  Forall valid_condition isuConditions ->
  Z.of_nat (List.length isuConditions) < 2 ^ 50 ->
  calculateGraphDataPoint isuConditions = Ret (Ok (graph_data_point isuConditions)).
Proof.
  intros Hne Hall Hlen. set (n := Z.of_nat (List.length isuConditions)) in *.
  assert (Hn : 0 < n).
  { subst n. destruct isuConditions; [congruence | cbn; lia]. }
  pose proof (raw_score_bounds isuConditions) as Hraw.
  pose proof (sitting_count_bounds isuConditions) as Hsit.
  pose proof (flag_count_bounds "is_broken" isuConditions
                (or_intror (or_intror eq_refl)) Hall) as Hbroken.
  pose proof (flag_count_bounds "is_dirty" isuConditions (or_introl eq_refl) Hall)
    as Hdirty.
  pose proof (flag_count_bounds "is_overweight" isuConditions
                (or_intror (or_introl eq_refl)) Hall) as Hover.
  fold n in Hraw, Hsit, Hbroken, Hdirty, Hover.
  unfold calculateGraphDataPoint, graph_data_point.
  set (init := ({[ "is_broken" := 0; "is_dirty" := 0; "is_overweight" := 0 ]}
                : gmap string Z)).
  assert (HiD : map_index init "is_dirty" = 0) by reflexivity.
  assert (HiO : map_index init "is_overweight" = 0) by reflexivity.
  assert (HiB : map_index init "is_broken" = 0) by reflexivity.
  destruct (calculateGraphDataPoint_score_of_valid isuConditions Hall init 0)
    as (m' & Hrun & HD & HO & HB);
    rewrite ?HiD, ?HiO, ?HiB; try (fold n; lia).
  rewrite Hrun. cbn [try_bind]. rewrite Z.add_0_l.
  rewrite HiD in HD. rewrite HiO in HO. rewrite HiB in HB.
  rewrite Z.add_0_l in HD, HO, HB. rewrite HD, HO, HB.
  rewrite calculateGraphDataPoint_sitting_count by (fold n; lia).
  rewrite Z.add_0_l. fold n.
  rewrite !GoInt_mul_small by lia.
  rewrite (GoInt_div_small (raw_score isuConditions * 100) 3) by lia. cbn [bind].
  assert (Hthird : 0 <= raw_score isuConditions * 100 / 3 <= 100 * n).
  { split; [apply Z.div_pos; lia | apply Z.div_le_upper_bound; lia]. }
  rewrite !GoInt_div_small by lia. reflexivity.
Qed.

(** X16. For a non-empty group of reports with well-formed conditions,
    [calculateGraphDataPoint] returns no error and does not panic.  The
    score is the sum of the scores of the reports' levels (3 for info, 2
    for warning, 1 for critical, the levels [calculateConditionLevel]
    gives) times 100, divided by 3 and by the number of reports; each
    percentage is the number of reports with the flag set, times 100,
    divided by the number of reports.  The score lies between 33 and 100
    and every percentage between 0 and 100. *)
Theorem calculateGraphDataPoint_of_valid (isuConditions : list IsuCondition) :
  isuConditions <> [] ->
  Forall (fun c => isValidConditionFormat (IsuCondition_Condition c) = Ret true)
         isuConditions ->
  Z.of_nat (List.length isuConditions) < 2 ^ 50 ->
  let n := Z.of_nat (List.length isuConditions) in
  let score := raw_score isuConditions * 100 / 3 / n in
  let sitting := sitting_count isuConditions * 100 / n in
  let broken := flag_count "is_broken" isuConditions * 100 / n in
  let dirty := flag_count "is_dirty" isuConditions * 100 / n in
  let overweight := flag_count "is_overweight" isuConditions * 100 / n in
  calculateGraphDataPoint isuConditions
  = Ret (Ok {| GraphDataPoint_Score := score;
               GraphDataPoint_Percentage :=
                 {| ConditionsPercentage_Sitting := sitting;
                    ConditionsPercentage_IsBroken := broken;
                    ConditionsPercentage_IsDirty := dirty;
                    ConditionsPercentage_IsOverweight := overweight |} |})
  /\ 33 <= score <= 100
  /\ 0 <= sitting <= 100
  /\ 0 <= broken <= 100
  /\ 0 <= dirty <= 100
  /\ 0 <= overweight <= 100.
Proof.
  intros Hne Hall Hlen n score sitting broken dirty overweight.
  assert (Hn : 0 < n).
  { subst n. destruct isuConditions; [congruence | cbn; lia]. }
  pose proof (raw_score_bounds isuConditions) as Hraw.
  pose proof (sitting_count_bounds isuConditions) as Hsit.
  pose proof (flag_count_bounds "is_broken" isuConditions
                (or_intror (or_intror eq_refl)) Hall) as Hbroken.
  pose proof (flag_count_bounds "is_dirty" isuConditions (or_introl eq_refl) Hall)
    as Hdirty.
  pose proof (flag_count_bounds "is_overweight" isuConditions
                (or_intror (or_introl eq_refl)) Hall) as Hover.
  fold n in Hraw, Hsit, Hbroken, Hdirty, Hover, Hlen.
  split; [exact (calculateGraphDataPoint_returns isuConditions Hne Hall Hlen) |].
  subst score sitting broken dirty overweight.
  repeat split; try apply score_bounds; try apply percentage_bounds; lia.
Qed.

(** X17. On an empty group [calculateGraphDataPoint] divides by zero and
    panics; [generateIsuGraphResponse] calls it only on an hour that has
    collected a report, so an hour without reports adds no data point and
    cannot raise that panic. *)
Theorem calculateGraphDataPoint_empty_panics :
  calculateGraphDataPoint [] = Panic "integer divide by zero"
  /\ forall (jiaIsuUUID : string) (points : list GraphDataPointWithInfo)
            (timestamps : list Z) (start : Time),
      close_hour jiaIsuUUID
        {| dataPoints := points; conditionsInThisHour := [];
           timestampsInThisHour := timestamps; startTimeInThisHour := start |}
      = Ret (Ok points).
Proof. split; reflexivity. Qed.

(** X18. When the validator rejects the condition of a report and accepts
    those of the reports before it, [calculateGraphDataPoint] returns the
    error "invalid condition format" and no data point, whatever follows. *)
Theorem calculateGraphDataPoint_invalid_condition
    (before : list IsuCondition) (c : IsuCondition) (after : list IsuCondition) :
  Forall (fun c => isValidConditionFormat (IsuCondition_Condition c) = Ret true) before ->
  isValidConditionFormat (IsuCondition_Condition c) = Ret false ->
  Z.of_nat (List.length before) < 2 ^ 50 ->
  calculateGraphDataPoint (before ++ c :: after)
  = Ret (Err (errors_New "invalid condition format")).
Proof.
  intros Hall Hc Hlen. unfold calculateGraphDataPoint.
  assert (Hrun : forall m r,
             0 <= map_index m "is_dirty" -> 0 <= map_index m "is_overweight" ->
             0 <= map_index m "is_broken" -> 0 <= r ->
             map_index m "is_dirty" + Z.of_nat (List.length before) < 2 ^ 62 ->
             map_index m "is_overweight" + Z.of_nat (List.length before) < 2 ^ 62 ->
             map_index m "is_broken" + Z.of_nat (List.length before) < 2 ^ 62 ->
             r + 3 * Z.of_nat (List.length before) < 2 ^ 62 ->
             calculateGraphDataPoint_score (before ++ c :: after) m r
             = Ret (Err (errors_New "invalid condition format"))).
  { clear Hlen.
    induction Hall as [|c0 l Hc0 Hall IH]; intros m r HD HO HB Hr HDn HOn HBn Hrn.
    - cbn [app calculateGraphDataPoint_score]. now rewrite Hc.
    - cbn [List.length] in *.
      destruct (calculateGraphDataPoint_score_of_valid [c0]
                  (Forall_cons_2 _ _ _ Hc0 (Forall_nil_2 _)) m r)
        as (m1 & Hstep & HD1 & HO1 & HB1); cbn [List.length]; try lia.
      pose proof (raw_score_bounds [c0]) as Hraw.
      pose proof (flag_count_bounds "is_broken" [c0] (or_intror (or_intror eq_refl))
                    (Forall_cons_2 _ _ _ Hc0 (Forall_nil_2 _))) as Hbroken.
      pose proof (flag_count_bounds "is_dirty" [c0] (or_introl eq_refl)
                    (Forall_cons_2 _ _ _ Hc0 (Forall_nil_2 _))) as Hdirty.
      pose proof (flag_count_bounds "is_overweight" [c0] (or_intror (or_introl eq_refl))
                    (Forall_cons_2 _ _ _ Hc0 (Forall_nil_2 _))) as Hover.
      cbn [List.length] in Hraw, Hbroken, Hdirty, Hover.
      specialize (IH m1 (r + raw_score [c0])).
      revert Hstep. cbn [app calculateGraphDataPoint_score].
      unfold valid_condition in Hc0. rewrite Hc0. cbn [bind negb].
      destruct (calculateGraphDataPoint_flags _ m 0) as [[m2 bad]|msg]; cbn [bind];
        [| discriminate].
      intros Hstep. injection Hstep as -> ->. apply IH; lia. }
  set (init := ({[ "is_broken" := 0; "is_dirty" := 0; "is_overweight" := 0 ]}
                : gmap string Z)).
  assert (HiD : map_index init "is_dirty" = 0) by reflexivity.
  assert (HiO : map_index init "is_overweight" = 0) by reflexivity.
  assert (HiB : map_index init "is_broken" = 0) by reflexivity.
  rewrite Hrun; [reflexivity | rewrite ?HiD, ?HiO, ?HiB; lia..].
Qed.

End FurtherGraphDataPoint.

(** ** Graph responses: [generateIsuGraphResponse] *)

Section FurtherGraphResponse.

Local Open Scope Z_scope.

Lemma Time_Add_Hours_0 (t : Time) : Time_Add_Hours t 0 = t.
Proof. destruct t as [s ns]. unfold Time_Add_Hours. cbn. f_equal. lia. Qed.

Lemma Time_Add_Hours_add (t : Time) (a b : Z) :
  Time_Add_Hours (Time_Add_Hours t a) b = Time_Add_Hours t (a + b).
Proof. unfold Time_Add_Hours. cbn. f_equal. lia. Qed.

Lemma Time_Before_Add_Hours (t : Time) (a b : Z) :
  Time_Before (Time_Add_Hours t a) (Time_Add_Hours t b) = Z.ltb a b.
Proof.
  unfold Time_Before, Time_Add_Hours. cbn. rewrite Z.ltb_irrefl, andb_false_r, orb_false_r.
  destruct (Z.ltb_spec a b); [apply Z.ltb_lt | apply Z.ltb_ge]; lia.
Qed.

(** The hour loop, entered with [rem] hours of the day left, runs [rem]
    more rounds and appends one response per remaining hour. *)
Lemma generateIsuGraphResponse_hours_run (graphDate : Time)
    (filteredDataPoints : list GraphDataPointWithInfo) (rem : nat) :
  forall (fuel index : nat) (responseList : list GraphResponse),
    (rem <= 24)%nat ->
    (rem < fuel)%nat ->
    exists slots,
      generateIsuGraphResponse_hours fuel graphDate filteredDataPoints index
        (Time_Add_Hours graphDate (24 - Z.of_nat rem)) responseList
      = Some (responseList ++ slots)
      /\ List.length slots = rem
      /\ forall (j : nat) (r : GraphResponse),
          slots !! j = Some r ->
          GraphResponse_StartAt r
          = Time_Unix graphDate + 3600 * (24 - Z.of_nat rem + Z.of_nat j)
          /\ GraphResponse_EndAt r = GraphResponse_StartAt r + 3600.
Proof.
  induction rem as [|rem IH]; intros fuel index acc Hrem Hfuel;
    (destruct fuel as [|fuel]; [lia |]); cbn [generateIsuGraphResponse_hours].
  - rewrite Time_Before_Add_Hours.
    replace (24 - Z.of_nat 0 <? 24) with false by (symmetry; apply Z.ltb_ge; lia).
    exists []. split; [now rewrite app_nil_r | split; [reflexivity |]].
    intros j r Hj. now rewrite lookup_nil in Hj.
  - rewrite Time_Before_Add_Hours.
    replace (24 - Z.of_nat (S rem) <? 24) with true by (symmetry; apply Z.ltb_lt; lia).
    rewrite Time_Add_Hours_add.
    replace (24 - Z.of_nat (S rem) + 1) with (24 - Z.of_nat rem) by lia.
    set (thisTime := Time_Add_Hours graphDate (24 - Z.of_nat (S rem))).
    set (picked :=
           match (if Nat.ltb index (List.length filteredDataPoints)
                  then filteredDataPoints !! index else None) with
           | Some dataWithInfo =>
               if Time_Equal (GraphDataPointWithInfo_StartAt dataWithInfo) thisTime then
                 (Some (GraphDataPointWithInfo_Data dataWithInfo),
                  GraphDataPointWithInfo_ConditionTimestamps dataWithInfo,
                  S index)
               else (None, [], index)
           | None => (None, [], index)
           end).
    destruct picked as [[data timestamps] index'].
    destruct (IH fuel index'
                (acc ++ [{| GraphResponse_StartAt := Time_Unix thisTime;
                            GraphResponse_EndAt := Time_Unix (Time_Add_Hours graphDate
                                                               (24 - Z.of_nat rem));
                            GraphResponse_Data := data;
                            GraphResponse_ConditionTimestamps := timestamps |}]))
      as (slots & Hrun & Hlen & Hslots); [lia.. |].
    eexists (_ :: slots). split; [rewrite Hrun, <- app_assoc; reflexivity |].
    split; [cbn; now rewrite Hlen |].
    intros [|j] r Hj; cbn in Hj.
    + injection Hj as <-. cbn. unfold thisTime, Time_Unix, Time_Add_Hours. cbn. lia.
    + destruct (Hslots j r Hj) as [Hstart Hend]. split; [| exact Hend].
      rewrite Hstart. lia.
Qed.

(** X19. [generateIsuGraphResponse] always comes back within 25 rounds of
    its hour loop, whatever the rows are.  When it returns a list, the list
    has exactly 24 entries, one per hour from [graphDate] on: entry [k]
    starts at [graphDate] plus [k] hours and ends one hour later.  An error
    of the query is returned formatted into ["db error: %v"]. *)
Theorem generateIsuGraphResponse_has_24_slots (fuel : nat) (jiaIsuUUID : string)
    (graphDate : Time) (queried : result (list (result IsuCondition))) :
  (24 < fuel)%nat ->
  exists out,
    generateIsuGraphResponse fuel jiaIsuUUID graphDate queried = Some out
    /\ (forall err, queried = Err err ->
                    out = Ret (Err (fmt_Errorf_v "db error: %v" err)))
    /\ (forall responseList,
           out = Ret (Ok responseList) ->
           List.length responseList = 24%nat
           /\ forall (k : nat) (r : GraphResponse),
               responseList !! k = Some r ->
               GraphResponse_StartAt r = Time_Unix graphDate + 3600 * Z.of_nat k
               /\ GraphResponse_EndAt r = GraphResponse_StartAt r + 3600).
Proof.
  intros Hfuel. unfold generateIsuGraphResponse.
  destruct queried as [rows|err].
  - set (grouped := try_bind _ _).
    destruct grouped as [[points|err]|msg].
    + set (bounds := generateIsuGraphResponse_bounds _ _ _ _ _ _ _).
      destruct bounds as [startIndex endNextIndex].
      set (filtered := if Nat.ltb startIndex endNextIndex then _ else _).
      destruct (generateIsuGraphResponse_hours_run graphDate filtered 24 fuel 0%nat [])
        as (slots & Hrun & Hlen & Hslots); [lia.. |].
      change (24 - Z.of_nat 24) with 0 in Hrun, Hslots.
      rewrite Time_Add_Hours_0 in Hrun. rewrite Hrun.
      eexists. split; [reflexivity |]. split; [discriminate |].
      intros responseList [= <-]. split; [exact Hlen |].
      intros k r Hk. destruct (Hslots k r Hk) as [Hstart Hend].
      split; [rewrite Hstart; lia | exact Hend].
    + eexists. split; [reflexivity |]. split; discriminate.
    + eexists. split; [reflexivity |]. split; discriminate.
  - eexists. split; [reflexivity |]. split; [| discriminate].
    now intros err' [= <-].
Qed.

(** *** The rows of one day, hour by hour *)

Section Day.

Variables (jiaIsuUUID : string) (graphDate : Time).

(** [graphDate] is a whole hour, as the handler makes it with
    [Truncate(time.Hour)]. *)
Hypothesis graphDate_sec : unix_sec graphDate mod 3600 = 0.
Hypothesis graphDate_nsec : unix_nsec graphDate = 0.

Lemma hour_index_lt_24 (c : IsuCondition) :
  within_day graphDate c -> (hour_index graphDate c < 24)%nat.
Proof.
  unfold within_day, hour_index. intros Hday.
  assert (0 <= (unix_sec (IsuCondition_Timestamp c) - unix_sec graphDate) / 3600 < 24).
  { split; [apply Z.div_pos; lia | apply Z.div_lt_upper_bound; lia]. }
  lia.
Qed.

Lemma hour_index_mono (a b : IsuCondition) :
  within_day graphDate a ->
  unix_sec (IsuCondition_Timestamp a) <= unix_sec (IsuCondition_Timestamp b) ->
  (hour_index graphDate a <= hour_index graphDate b)%nat.
Proof.
  unfold within_day, hour_index. intros Hday Hle.
  apply Z2Nat.inj_le; [apply Z.div_pos; lia | apply Z.div_pos; lia |].
  apply Z.div_le_mono; lia.
Qed.

Lemma Time_Truncate_Hour_within_day (c : IsuCondition) :
  within_day graphDate c ->
  Time_Truncate_Hour (IsuCondition_Timestamp c)
  = Time_Add_Hours graphDate (Z.of_nat (hour_index graphDate c)).
Proof.
  unfold within_day, hour_index, Time_Truncate_Hour, Time_Add_Hours. intros Hday.
  set (s := unix_sec (IsuCondition_Timestamp c)) in *.
  set (g := unix_sec graphDate) in *.
  rewrite graphDate_nsec. f_equal.
  rewrite Z2Nat.id by (apply Z.div_pos; lia).
  assert (Hg : g = 3600 * (g / 3600)) by (apply Z.div_exact; [lia | exact graphDate_sec]).
  assert (Hmod : s mod 3600 = (s - g) mod 3600).
  { replace s with ((s - g) + (g / 3600) * 3600) at 1 by lia.
    apply Z_mod_plus_full. }
  pose proof (Z.div_mod (s - g) 3600 ltac:(lia)). lia.
Qed.

Lemma Time_Equal_Add_Hours (t : Time) (a b : Z) :
  Time_Equal (Time_Add_Hours t a) (Time_Add_Hours t b) = Z.eqb a b.
Proof.
  unfold Time_Equal, Time_Add_Hours. cbn. rewrite Z.eqb_refl, andb_true_r.
  destruct (Z.eqb_spec a b); [apply Z.eqb_eq | apply Z.eqb_neq]; lia.
Qed.

Lemma Time_Equal_true (t u : Time) : Time_Equal t u = true -> t = u.
Proof.
  destruct t, u. unfold Time_Equal. cbn. intros [H1 H2]%andb_prop.
  apply Z.eqb_eq in H1, H2. congruence.
Qed.

Lemma Time_window_Add_Hours (k : Z) :
  0 <= k <= 24 ->
  Time_Before (Time_Add_Hours graphDate k) graphDate = false
  /\ Time_After (Time_Add_Hours graphDate k) (Time_Add_Hours graphDate 24) = false.
Proof.
  intros Hk. unfold Time_After, Time_Before, Time_Add_Hours. cbn.
  rewrite !Z.ltb_irrefl, !andb_false_r, !orb_false_r.
  split; apply Z.ltb_ge; lia.
Qed.

(** **** Reports by hour *)

Lemma reports_in_hour_app (k : nat) (l1 l2 : list IsuCondition) :
  reports_in_hour graphDate k (l1 ++ l2)
  = reports_in_hour graphDate k l1 ++ reports_in_hour graphDate k l2.
Proof. unfold reports_in_hour. apply List.filter_app. Qed.

Lemma reports_in_hour_all (k : nat) (l : list IsuCondition) :
  Forall (fun c => hour_index graphDate c = k) l ->
  reports_in_hour graphDate k l = l.
Proof.
  unfold reports_in_hour. induction 1 as [|c l Hc _ IH]; [reflexivity |].
  cbn. rewrite Hc, Nat.eqb_refl. now f_equal.
Qed.

Lemma reports_in_hour_none (k : nat) (l : list IsuCondition) :
  Forall (fun c => hour_index graphDate c <> k) l ->
  reports_in_hour graphDate k l = [].
Proof.
  unfold reports_in_hour. induction 1 as [|c l Hc _ IH]; [reflexivity |].
  cbn. apply Nat.eqb_neq in Hc. now rewrite Hc.
Qed.

Lemma hour_point_None (l : list IsuCondition) (k : nat) :
  reports_in_hour graphDate k l = [] -> hour_point jiaIsuUUID graphDate l k = None.
Proof. unfold hour_point. now intros ->. Qed.

Lemma hour_point_Some (l : list IsuCondition) (k : nat) :
  reports_in_hour graphDate k l <> [] ->
  hour_point jiaIsuUUID graphDate l k
  = Some {| GraphDataPointWithInfo_JIAIsuUUID := jiaIsuUUID;
            GraphDataPointWithInfo_StartAt := Time_Add_Hours graphDate (Z.of_nat k);
            GraphDataPointWithInfo_Data := graph_data_point (reports_in_hour graphDate k l);
            GraphDataPointWithInfo_ConditionTimestamps :=
              (fun c => Time_Unix (IsuCondition_Timestamp c))
                <$> reports_in_hour graphDate k l |}.
Proof.
  unfold hour_point. destruct (reports_in_hour graphDate k l); [congruence | reflexivity].
Qed.

Lemma hour_point_inv (l : list IsuCondition) (k : nat) (p : GraphDataPointWithInfo) :
  hour_point jiaIsuUUID graphDate l k = Some p ->
  reports_in_hour graphDate k l <> []
  /\ GraphDataPointWithInfo_StartAt p = Time_Add_Hours graphDate (Z.of_nat k)
  /\ GraphDataPointWithInfo_Data p = graph_data_point (reports_in_hour graphDate k l)
  /\ GraphDataPointWithInfo_ConditionTimestamps p
     = (fun c => Time_Unix (IsuCondition_Timestamp c)) <$> reports_in_hour graphDate k l.
Proof.
  intros Hp. destruct (reports_in_hour graphDate k l) eqn:Hgroup.
  - now rewrite hour_point_None in Hp.
  - rewrite hour_point_Some in Hp by (rewrite Hgroup; discriminate).
    injection Hp as <-. cbn. rewrite Hgroup. now repeat split.
Qed.

Lemma omap_None {A B : Type} (f : A -> option B) (l : list A) :
  Forall (fun x => f x = None) l -> omap f l = [].
Proof. induction 1 as [|x l Hx _ IH]; [reflexivity |]. cbn. now rewrite Hx. Qed.

Lemma omap_ext_Forall {A B : Type} (f g : A -> option B) (l : list A) :
  Forall (fun x => f x = g x) l -> omap f l = omap g l.
Proof. induction 1 as [|x l Hx _ IH]; [reflexivity |]. cbn. now rewrite Hx, IH. Qed.

(** Reports of earlier hours do not show in the later hours. *)
Lemma hour_points_drop_earlier (l1 l2 : list IsuCondition) (a n : nat) :
  Forall (fun c => (hour_index graphDate c < a)%nat) l1 ->
  omap (hour_point jiaIsuUUID graphDate (l1 ++ l2)) (seq a n)
  = omap (hour_point jiaIsuUUID graphDate l2) (seq a n).
Proof.
  intros Hl1. apply omap_ext_Forall, Forall_forall. intros k Hk%elem_of_seq.
  unfold hour_point. rewrite reports_in_hour_app, reports_in_hour_none; [reflexivity |].
  eapply Forall_impl; [exact Hl1 |]. cbn. intros c Hc. lia.
Qed.

(** Hours before the first report hold no point. *)
Lemma hour_points_before_first (l : list IsuCondition) (a b : nat) :
  Forall (fun c => (b <= hour_index graphDate c)%nat) l ->
  omap (hour_point jiaIsuUUID graphDate l) (seq a (b - a)) = [].
Proof.
  intros Hl. apply omap_None, Forall_forall. intros k Hk%elem_of_seq.
  apply hour_point_None, reports_in_hour_none.
  eapply Forall_impl; [exact Hl |]. cbn. intros c Hc. lia.
Qed.

(** The hour being collected, followed by reports of later hours only. *)
Lemma hour_points_closed (group rows : list IsuCondition) (h b : nat) :
  group <> [] ->
  Forall (fun c => hour_index graphDate c = h) group ->
  Forall (fun c => (b <= hour_index graphDate c)%nat) rows ->
  (h < b <= 24)%nat ->
  omap (hour_point jiaIsuUUID graphDate (group ++ rows)) (seq h (24 - h))
  = {| GraphDataPointWithInfo_JIAIsuUUID := jiaIsuUUID;
       GraphDataPointWithInfo_StartAt := Time_Add_Hours graphDate (Z.of_nat h);
       GraphDataPointWithInfo_Data := graph_data_point group;
       GraphDataPointWithInfo_ConditionTimestamps :=
         (fun c => Time_Unix (IsuCondition_Timestamp c)) <$> group |}
    :: omap (hour_point jiaIsuUUID graphDate rows) (seq b (24 - b)).
Proof.
  intros Hne Hgroup Hrows Hb.
  assert (Hhere : reports_in_hour graphDate h (group ++ rows) = group).
  { rewrite reports_in_hour_app, reports_in_hour_all by exact Hgroup.
    rewrite reports_in_hour_none; [apply app_nil_r |].
    eapply Forall_impl; [exact Hrows |]. cbn. intros c Hc. lia. }
  replace (24 - h)%nat with (1 + ((b - S h) + (24 - b)))%nat by lia.
  rewrite seq_app, seq_app, !omap_app.
  change (omap (hour_point jiaIsuUUID graphDate (group ++ rows)) (seq h 1))
    with (match hour_point jiaIsuUUID graphDate (group ++ rows) h with
          | Some p => [p]
          | None => []
          end).
  rewrite hour_point_Some by (rewrite Hhere; exact Hne). rewrite Hhere. cbn [app].
  f_equal. replace (h + 1)%nat with (S h) by lia.
  assert (Hlt : Forall (fun c => (hour_index graphDate c < S h)%nat) group).
  { eapply Forall_impl; [exact Hgroup |]. cbn. intros c Hc. lia. }
  rewrite hour_points_drop_earlier by exact Hlt.
  rewrite hour_points_before_first by exact Hrows. cbn [app].
  replace (S h + (b - S h))%nat with b by lia.
  apply hour_points_drop_earlier.
  eapply Forall_impl; [exact Hgroup |]. cbn. intros c Hc. lia.
Qed.

(** **** The row loop *)

(** The row loop and the block after it, entered while the reports [group]
    of hour [h] are being collected: every hour from [h] on that has a
    report adds its point, in the order of the hours. *)
Lemma generateIsuGraphResponse_rows_run (rows : list IsuCondition) :
  forall (points : list GraphDataPointWithInfo) (group : list IsuCondition) (h : nat),
    group <> [] ->
    Forall (fun c => hour_index graphDate c = h) group ->
    (h < 24)%nat ->
    Forall (fun c => (h <= hour_index graphDate c)%nat) rows ->
    StronglySorted
      (fun a b => (hour_index graphDate a <= hour_index graphDate b)%nat) rows ->
    Forall (within_day graphDate) rows ->
    Forall valid_condition (group ++ rows) ->
    Z.of_nat (List.length (group ++ rows)) < 2 ^ 50 ->
    (try g <- generateIsuGraphResponse_rows jiaIsuUUID (Ok <$> rows)
                {| dataPoints := points;
                   conditionsInThisHour := group;
                   timestampsInThisHour :=
                     (fun c => Time_Unix (IsuCondition_Timestamp c)) <$> group;
                   startTimeInThisHour := Time_Add_Hours graphDate (Z.of_nat h) |} ;;
     close_hour jiaIsuUUID g)
    = Ret (Ok (points
               ++ omap (hour_point jiaIsuUUID graphDate (group ++ rows))
                    (seq h (24 - h)))).
Proof.
  induction rows as [|c rows IH];
    intros points group h Hne Hgroup Hh Hlow Hsorted Hday Hvalid Hlen.
  - cbn [fmap list_fmap generateIsuGraphResponse_rows try_bind].
    unfold close_hour.
    cbn [conditionsInThisHour dataPoints timestampsInThisHour startTimeInThisHour].
    assert (Hpos : Nat.ltb 0 (List.length group) = true).
    { destruct group; [congruence | reflexivity]. }
    rewrite Hpos. rewrite app_nil_r in Hvalid, Hlen.
    rewrite calculateGraphDataPoint_returns by assumption. cbn [try_bind].
    rewrite (hour_points_closed group [] h 24) by (auto; lia).
    reflexivity.
  - apply Forall_cons in Hlow as [Hc Hlow]. apply Forall_cons in Hday as [Hcday Hday].
    apply StronglySorted_inv in Hsorted as [Hsorted Hhd].
    apply Forall_app in Hvalid as Hvalid'. destruct Hvalid' as [Hvg Hvr].
    apply Forall_cons in Hvr as [Hvc Hvr].
    rewrite length_app in Hlen. cbn [List.length] in Hlen.
    cbn [fmap list_fmap generateIsuGraphResponse_rows].
    rewrite Time_Truncate_Hour_within_day by exact Hcday.
    cbn [startTimeInThisHour]. rewrite Time_Equal_Add_Hours.
    destruct (Z.eqb_spec (Z.of_nat (hour_index graphDate c)) (Z.of_nat h)) as [Heq|Hneq].
    + apply Nat2Z.inj in Heq. cbn [negb try_bind].
      cbn [conditionsInThisHour dataPoints timestampsInThisHour startTimeInThisHour].
      specialize (IH points (group ++ [c]) h).
      rewrite fmap_app, <- app_assoc in IH. cbn [fmap list_fmap app] in IH.
      apply IH; try assumption.
      * now destruct group.
      * apply Forall_app. split; [exact Hgroup |]. now apply Forall_cons_2.
      * rewrite length_app. cbn [List.length]. lia.
    + assert (Hlater : (h < hour_index graphDate c)%nat) by lia.
      cbn [negb]. unfold close_hour at 1.
      cbn [conditionsInThisHour dataPoints timestampsInThisHour startTimeInThisHour].
      assert (Hpos : Nat.ltb 0 (List.length group) = true).
      { destruct group; [congruence | reflexivity]. }
      rewrite Hpos.
      rewrite calculateGraphDataPoint_returns; [| exact Hne | exact Hvg | lia].
      cbn [try_bind].
      cbn [conditionsInThisHour dataPoints timestampsInThisHour startTimeInThisHour app].
      pose proof (hour_index_lt_24 c Hcday) as Hc24.
      rewrite (hour_points_closed group (c :: rows) h (hour_index graphDate c));
        [| exact Hne | exact Hgroup | | lia].
      2:{ apply Forall_cons_2; [lia |]. exact Hhd. }
      change (c :: rows) with ([c] ++ rows).
      lazymatch goal with
      | |- _ = Ret (Ok (points ++ ?p :: ?later)) =>
          replace (points ++ p :: later) with ((points ++ [p]) ++ later)
            by (now rewrite <- app_assoc)
      end.
      apply (IH _ [c] (hour_index graphDate c)); try assumption.
      * discriminate.
      * apply Forall_cons_2; [reflexivity | apply Forall_nil_2].
      * now apply Forall_cons_2.
      * cbn [app List.length]. lia.
Qed.

Lemma StronglySorted_by_hour (isuConditions : list IsuCondition) :
  by_Timestamp_asc isuConditions ->
  Forall (within_day graphDate) isuConditions ->
  StronglySorted
    (fun a b => (hour_index graphDate a <= hour_index graphDate b)%nat) isuConditions.
Proof.
  unfold by_Timestamp_asc. induction 1 as [|c l Hsorted IH Hhd]; intros Hday.
  - constructor.
  - apply Forall_cons in Hday as [Hc Hday]. constructor; [now apply IH |].
    eapply Forall_impl; [exact Hhd |]. cbn. intros b Hb. now apply hour_index_mono.
Qed.

(** The row loop from its start, and the block after it: the points of the
    hours of the day that have a report, in the order of the hours. *)
Lemma generateIsuGraphResponse_groups (isuConditions : list IsuCondition) :
  by_Timestamp_asc isuConditions ->
  Forall (within_day graphDate) isuConditions ->
  Forall valid_condition isuConditions ->
  Z.of_nat (List.length isuConditions) < 2 ^ 50 ->
  (try g <- generateIsuGraphResponse_rows jiaIsuUUID (Ok <$> isuConditions)
              {| dataPoints := []; conditionsInThisHour := [];
                 timestampsInThisHour := []; startTimeInThisHour := Time_zero |} ;;
   close_hour jiaIsuUUID g)
  = Ret (Ok (omap (hour_point jiaIsuUUID graphDate isuConditions) (seq 0 24))).
Proof.
  intros Hasc Hday Hvalid Hlen.
  pose proof (StronglySorted_by_hour _ Hasc Hday) as Hsorted.
  destruct isuConditions as [|c rows]; [reflexivity |].
  apply Forall_cons in Hday as Hday'. destruct Hday' as [Hcday Hrday].
  apply StronglySorted_inv in Hsorted as [Hsorted Hhd].
  pose proof (hour_index_lt_24 c Hcday) as Hc24.
  assert (Hsplit :
            omap (hour_point jiaIsuUUID graphDate (c :: rows)) (seq 0 24)
            = omap (hour_point jiaIsuUUID graphDate ([c] ++ rows))
                (seq (hour_index graphDate c) (24 - hour_index graphDate c))).
  { replace 24%nat with (hour_index graphDate c + (24 - hour_index graphDate c))%nat
      at 1 by lia.
    rewrite seq_app, omap_app.
    rewrite <- (Nat.sub_0_r (hour_index graphDate c)) at 1.
    rewrite hour_points_before_first; [reflexivity |].
    apply Forall_cons_2; [lia | exact Hhd]. }
  rewrite Hsplit.
  pose proof (generateIsuGraphResponse_rows_run rows [] [c] (hour_index graphDate c))
    as Hrun.
  cbn [fmap list_fmap generateIsuGraphResponse_rows].
  rewrite Time_Truncate_Hour_within_day by exact Hcday. cbn [startTimeInThisHour].
  destruct (Time_Equal (Time_Add_Hours graphDate (Z.of_nat (hour_index graphDate c)))
              Time_zero) eqn:Hzero.
  - apply Time_Equal_true in Hzero. rewrite <- Hzero.
    apply Hrun; try assumption; try discriminate.
    apply Forall_cons_2; [reflexivity | apply Forall_nil_2].
  - apply Hrun; try assumption; try discriminate.
    apply Forall_cons_2; [reflexivity | apply Forall_nil_2].
Qed.

(** **** The window *)

(** No point of the day lies outside the window, so the search for the
    window's bounds ends with the whole list. *)
Lemma generateIsuGraphResponse_bounds_all (points : list GraphDataPointWithInfo) :
  forall (total i startIndex : nat),
    Forall (fun p =>
              Time_Before (GraphDataPointWithInfo_StartAt p) graphDate = false
              /\ Time_After (GraphDataPointWithInfo_StartAt p)
                   (Time_Add_Hours graphDate 24) = false) points ->
    (i + List.length points = total)%nat ->
    startIndex = total \/ (startIndex < i)%nat ->
    generateIsuGraphResponse_bounds graphDate (Time_Add_Hours graphDate 24) total
      points i startIndex total
    = (if Nat.eqb startIndex total
       then match points with [] => total | _ => i end
       else startIndex,
       total).
Proof.
  induction points as [|p points IH]; intros total i startIndex Hin Hlen Hstart.
  - cbn [generateIsuGraphResponse_bounds].
    destruct (Nat.eqb_spec startIndex total); congruence.
  - apply Forall_cons in Hin as [[Hbefore Hafter] Hin]. cbn [List.length] in Hlen.
    cbn [generateIsuGraphResponse_bounds]. rewrite Hbefore, Hafter.
    rewrite andb_false_r. cbn [negb]. rewrite andb_true_r.
    destruct (Nat.eqb_spec startIndex total) as [->|Hneq].
    + rewrite IH; [| exact Hin | lia | lia].
      destruct (Nat.eqb_spec i total); [lia | reflexivity].
    + rewrite IH; [| exact Hin | lia | lia].
      destruct (Nat.eqb_spec startIndex total); [lia | reflexivity].
Qed.

Lemma hour_points_in_window (isuConditions : list IsuCondition) :
  Forall (fun p =>
            Time_Before (GraphDataPointWithInfo_StartAt p) graphDate = false
            /\ Time_After (GraphDataPointWithInfo_StartAt p)
                 (Time_Add_Hours graphDate 24) = false)
    (omap (hour_point jiaIsuUUID graphDate isuConditions) (seq 0 24)).
Proof.
  apply Forall_forall. intros p (k & Hk & Hp)%list_elem_of_omap.
  apply elem_of_seq in Hk. apply hour_point_inv in Hp as (_ & -> & _).
  apply Time_window_Add_Hours. lia.
Qed.

(** **** The hour loop *)

Lemma omap_cons_eq {A B : Type} (f : A -> option B) (x : A) (l : list A) :
  omap f (x :: l) = match f x with Some y => y :: omap f l | None => omap f l end.
Proof. reflexivity. Qed.

Lemma lookup_in_range {A : Type} (l : list A) (i : nat) :
  (if Nat.ltb i (List.length l) then l !! i else None) = l !! i.
Proof.
  destruct (Nat.ltb_spec i (List.length l)); [reflexivity |].
  symmetry. now apply lookup_ge_None.
Qed.

(** The hour loop, entered at hour [k] with the points of the earlier hours
    behind [index]: it appends the entries of the hours from [k] on. *)
Lemma generateIsuGraphResponse_hours_merge (isuConditions : list IsuCondition)
    (rem : nat) :
  forall (fuel k : nat) (earlier : list GraphDataPointWithInfo)
         (responseList : list GraphResponse),
    (k + rem = 24)%nat ->
    (rem < fuel)%nat ->
    generateIsuGraphResponse_hours fuel graphDate
      (earlier ++ omap (hour_point jiaIsuUUID graphDate isuConditions) (seq k rem))
      (List.length earlier) (Time_Add_Hours graphDate (Z.of_nat k)) responseList
    = Some (responseList ++ (hour_slot graphDate isuConditions <$> seq k rem)).
Proof.
  induction rem as [|rem IH]; intros fuel k earlier acc Hk Hfuel;
    (destruct fuel as [|fuel]; [lia |]); cbn [generateIsuGraphResponse_hours].
  - rewrite Time_Before_Add_Hours.
    replace (Z.of_nat k <? 24) with false by (symmetry; apply Z.ltb_ge; lia).
    cbn. now rewrite app_nil_r.
  - rewrite Time_Before_Add_Hours.
    replace (Z.of_nat k <? 24) with true by (symmetry; apply Z.ltb_lt; lia).
    rewrite lookup_in_range, lookup_app_r, Nat.sub_diag by lia.
    rewrite Time_Add_Hours_add.
    replace (Z.of_nat k + 1) with (Z.of_nat (S k)) by lia.
    cbn [seq fmap list_fmap]. rewrite omap_cons_eq.
    destruct (hour_point jiaIsuUUID graphDate isuConditions k) as [p|] eqn:Hp.
    + pose proof Hp as (Hgroup & Hstart & Hdata & Htimes)%hour_point_inv.
      cbn [lookup list_lookup]. rewrite Hstart, Time_Equal_Add_Hours, Z.eqb_refl.
      replace (S (List.length earlier)) with (List.length (earlier ++ [p]))
        by (rewrite length_app; cbn; lia).
      rewrite (cons_middle p earlier), app_assoc.
      rewrite IH by lia. rewrite <- app_assoc. cbn [app]. do 3 f_equal.
      unfold hour_slot. rewrite Hdata, Htimes.
      destruct (reports_in_hour graphDate k isuConditions); [congruence |].
      unfold Time_Unix, Time_Add_Hours. cbn. f_equal; lia.
    + assert (Hgroup : reports_in_hour graphDate k isuConditions = []).
      { destruct (reports_in_hour graphDate k isuConditions) eqn:Hgroup;
          [reflexivity |].
        rewrite hour_point_Some in Hp by (rewrite Hgroup; discriminate).
        discriminate. }
      assert (Hskip :
                match omap (hour_point jiaIsuUUID graphDate isuConditions)
                        (seq (S k) rem) !! 0%nat with
                | Some dataWithInfo =>
                    if Time_Equal (GraphDataPointWithInfo_StartAt dataWithInfo)
                         (Time_Add_Hours graphDate (Z.of_nat k))
                    then (Some (GraphDataPointWithInfo_Data dataWithInfo),
                          GraphDataPointWithInfo_ConditionTimestamps dataWithInfo,
                          S (List.length earlier))
                    else (None, [], List.length earlier)
                | None => (None, [], List.length earlier)
                end = (None, [], List.length earlier)).
      { destruct (omap (hour_point jiaIsuUUID graphDate isuConditions)
                    (seq (S k) rem) !! 0%nat) as [p|] eqn:Hhead; [| reflexivity].
        apply list_elem_of_lookup_2, list_elem_of_omap in Hhead as (k' & Hk' & Hp').
        apply elem_of_seq in Hk'. apply hour_point_inv in Hp' as (_ & -> & _).
        rewrite Time_Equal_Add_Hours.
        replace (Z.of_nat k' =? Z.of_nat k) with false
          by (symmetry; apply Z.eqb_neq; lia).
        reflexivity. }
      rewrite Hskip. rewrite IH by lia. rewrite <- app_assoc. cbn [app]. do 3 f_equal.
      unfold hour_slot. rewrite Hgroup.
      unfold Time_Unix, Time_Add_Hours. cbn. f_equal; lia.
Qed.

End Day.

(** X20. When [graphDate] is a whole hour and the query yields the
    well-formed reports of the day that starts there, in ascending order of
    their timestamps, [generateIsuGraphResponse] returns the 24 hours of the
    day in order, and the entry of hour [k] carries exactly the reports whose
    timestamp falls in that hour: their Unix timestamps in the order of the
    rows, and the data point [calculateGraphDataPoint] gives for them, or no
    data point and no timestamp when the hour has no report. *)
Theorem generateIsuGraphResponse_groups_reports_by_hour (fuel : nat)
    (jiaIsuUUID : string) (graphDate : Time) (isuConditions : list IsuCondition) :
  unix_sec graphDate mod 3600 = 0 ->
  unix_nsec graphDate = 0 ->
  by_Timestamp_asc isuConditions ->
  Forall (within_day graphDate) isuConditions ->
  Forall valid_condition isuConditions ->
  Z.of_nat (List.length isuConditions) < 2 ^ 50 ->
  (24 < fuel)%nat ->
  generateIsuGraphResponse fuel jiaIsuUUID graphDate (Ok (Ok <$> isuConditions))
  = Some (Ret (Ok (hour_slot graphDate isuConditions <$> seq 0 24))).
Proof.
  intros Hsec Hnsec Hasc Hday Hvalid Hlen Hfuel. unfold generateIsuGraphResponse.
  rewrite (generateIsuGraphResponse_groups jiaIsuUUID graphDate Hsec Hnsec)
    by assumption.
  pose proof (hour_points_in_window jiaIsuUUID graphDate isuConditions) as Hwindow.
  pose proof (generateIsuGraphResponse_hours_merge jiaIsuUUID graphDate
                isuConditions 24 fuel 0 [] [] eq_refl Hfuel) as Hhours.
  cbn [app List.length] in Hhours. change (Z.of_nat 0) with 0 in Hhours.
  rewrite Time_Add_Hours_0 in Hhours.
  remember (omap (hour_point jiaIsuUUID graphDate isuConditions) (seq 0 24))
    as points eqn:Hpoints.
  rewrite generateIsuGraphResponse_bounds_all; [| exact Hwindow | lia | now left].
  rewrite Nat.eqb_refl.
  assert (Hfiltered :
            (if Nat.ltb match points with [] => List.length points | _ => 0%nat end
                  (List.length points)
             then take (List.length points
                        - match points with [] => List.length points | _ => 0%nat end)
                    (drop match points with [] => List.length points | _ => 0%nat end
                       points)
             else [])
            = points).
  { destruct points as [|p points]; [reflexivity |].
    cbn [List.length Nat.ltb Nat.leb drop]. rewrite Nat.sub_0_r.
    apply take_ge. cbn [List.length]. lia. }
  cbv zeta. rewrite Hfiltered, Hhours. reflexivity.
Qed.

End FurtherGraphResponse.

(** ** Further runs on the in-memory store *)

Section FurtherRuns.

Import MemStore MemRuns.

Lemma Get_store_error_is_not_cached_witness :
  let w := boot unreachable_store in
  errors_Is refused sql_ErrNoRows = false
  /\ IsuConditionCache_Get "isu-a" w
     = (Err refused, emit (StoreCall (GetLatestIsuCondition "isu-a")) w)
  /\ IsuCache_Get "isu-a" w = (Err refused, emit (StoreCall (GetIsu "isu-a")) w)
  /\ UserCache_Get "user-1" w
     = (Err (fmt_Errorf_v "db error: %v" refused), emit (StoreCall (GetUser "user-1")) w).
Proof.
  cbv zeta. split; [reflexivity |].
  destruct (Get_store_error_is_not_cached (boot unreachable_store) "isu-a" refused eq_refl)
    as (Hcond & Hisu & _).
  destruct (Get_store_error_is_not_cached (boot unreachable_store) "user-1" refused eq_refl)
    as (_ & _ & Huser).
  split; [exact (Hcond eq_refl eq_refl) | split; [exact (Hisu eq_refl eq_refl) |]].
  apply Huser; [apply not_elem_of_empty | reflexivity].
Defined.

Lemma UserCache_Get_is_cached_for_good_witness :
  let w := boot trend_store in
  let w1 := snd (UserCache_Get "user-1" w) in
  UserCache_Get "user-1" w = (Ok true, w1)
  /\ Forall2 (fun op a => op = UserGet "user-1" -> a = UserAnswer (Ok true))
             mixed_run (fst (cache_run mixed_run w1))
  /\ store_calls (GetUser "user-1") (events (snd (cache_run mixed_run w1))) = 1%nat.
Proof.
  cbv zeta. split; [reflexivity |].
  destruct (UserCache_Get_is_cached_for_good (boot trend_store) "user-1" true
              (snd (UserCache_Get "user-1" (boot trend_store))) mixed_run)
    as (_ & Hall & Hcalls); [apply not_elem_of_empty | reflexivity |].
  split; [exact Hall | exact Hcalls].
Defined.


Lemma postIsuCondition_accepted_witness :
  let w := boot trend_store in
  fst (postIsuCondition "isu-a" (Ok request_ok) w) = Ret (c_NoContent http_StatusAccepted)
  /\ exists req isu,
      Ok request_ok = Ok req
      /\ fst (IsuCache_Get "isu-a" w) = Ok isu
      /\ insertQueue (snd (postIsuCondition "isu-a" (Ok request_ok) w))
         = insertQueue w ++ (enqueued_record "isu-a" <$> req)
      /\ Forall (fun cond => isValidConditionFormat (PostIsuConditionRequest_Condition cond)
                             = Ret true) req
      /\ Forall (fun c => known_level (IsuCondition_Level c))
                (enqueued_record "isu-a" <$> req).
Proof.
  cbv zeta. split; [reflexivity |].
  apply (postIsuCondition_accepted "isu-a" (Ok request_ok) (boot trend_store)).
  reflexivity.
Defined.

Lemma postIsuCondition_rejected_enqueues_nothing_witness :
  let w := InsertQueue_Insert batch_1 (boot trend_store) in
  fst (postIsuCondition "isu-a" (Ok request_bad) w)
  = Ret (c_String http_StatusBadRequest "bad request body")
  /\ insertQueue (snd (postIsuCondition "isu-a" (Ok request_bad) w)) = insertQueue w
  /\ db (snd (postIsuCondition "isu-a" (Ok request_bad) w)) = db w.
Proof.
  cbv zeta. split; [reflexivity |].
  apply (postIsuCondition_rejected_enqueues_nothing "isu-a" (Ok request_bad)
           (InsertQueue_Insert batch_1 (boot trend_store))).
  discriminate.
Defined.

Lemma postIsuCondition_of_valid_witness :
  fst (IsuCache_Get "isu-a" (boot trend_store)) = Ok (device 1 "isu-a" "X")
  /\ fst (postIsuCondition "isu-a" (Ok request_ok) (boot trend_store))
     = Ret (c_NoContent http_StatusAccepted).
Proof.
  split; [reflexivity |].
  apply (postIsuCondition_of_valid "isu-a" request_ok (device 1 "isu-a" "X")
           (boot trend_store)).
  - discriminate.
  - discriminate.
  - reflexivity.
  - unfold request_ok. repeat constructor.
    + now exists true, true, true.
    + now exists false, true, false.
    + now exists false, false, false.
Defined.

Lemma postIsuCondition_unknown_device_witness :
  let w := boot trend_store in
  db_Get_isu (db w) "isu-zz" = Err sql_ErrNoRows
  /\ postIsuCondition "isu-zz" (Ok request_bad) w
     = (Ret (c_String http_StatusNotFound "not found: isu"),
        emit (StoreCall (GetIsu "isu-zz")) w).
Proof.
  cbv zeta. split; [reflexivity |].
  apply (postIsuCondition_unknown_device "isu-zz" request_bad sql_ErrNoRows
           (boot trend_store)).
  - discriminate.
  - discriminate.
  - reflexivity.
  - reflexivity.
  - reflexivity.
Defined.

Lemma getIsuList_missing_condition_hides_later_ones_witness :
  let w := boot listing_store in
  let listed := [device 4 "isu-d" "X"; device 1 "isu-a" "X"] in
  fst (IsuConditionCache_Get "isu-d" w) = Err sql_ErrNoRows
  /\ fst (IsuConditionCache_Get "isu-a" w) = Ok (report "isu-a" 10 all_true "critical")
  /\ exists res,
      fst (getIsuList_loop listed true [] w) = Some res
      /\ List.length res = 2%nat
      /\ drop 0 res = (fun isu => isuListResponse_of isu None) <$> listed.
Proof.
  cbv zeta. split; [reflexivity | split; [reflexivity |]].
  eexists. split; [reflexivity |].
  apply (getIsuList_missing_condition_hides_later_ones (boot listing_store)
           [] (device 4 "isu-d" "X") [device 1 "isu-a" "X"]); reflexivity.
Defined.

Lemma getIsuList_lists_latest_conditions_witness :
  let w := boot trend_store in
  let listed := [device 2 "isu-b" "X"; device 1 "isu-a" "X"] in
  exists res,
    fst (getIsuList_loop listed true [] w) = Some res
    /\ Forall2 (fun isu r =>
                  exists cond,
                    fst (IsuConditionCache_Get (Isu_JIAIsuUUID isu) w) = Ok cond
                    /\ r = isuListResponse_of isu (Some (formattedCondition_of isu cond)))
               listed res.
Proof.
  cbv zeta.
  apply (getIsuList_lists_latest_conditions (boot trend_store)
           [device 2 "isu-b" "X"; device 1 "isu-a" "X"]).
  repeat constructor.
  - now exists (report "isu-b" 20 all_true "critical").
  - now exists (report "isu-a" 10 all_true "critical").
Defined.

Lemma recompute_completes_when_reads_succeed_witness :
  let w := boot listing_store in
  db_Select_characters (db w) = Ok [character_row "X"; character_row "Y"]
  /\ exists res,
      TrendCache_Get (calculateTrendScheduled_tick w) = Some res
      /\ TrendResponse_Character <$> res
         = Isu_Character <$> [character_row "X"; character_row "Y"].
Proof.
  cbv zeta. split; [reflexivity |].
  apply (recompute_completes_when_reads_succeed (boot listing_store)
           [character_row "X"; character_row "Y"]); [reflexivity |].
  apply Forall_cons_2; [| apply Forall_cons_2; [| apply Forall_nil_2]].
  - exists [id_uuid_row (device 4 "isu-d" "X"); id_uuid_row (device 1 "isu-a" "X");
            id_uuid_row (device 2 "isu-b" "X")].
    split; [reflexivity |].
    apply Forall_cons_2; [| apply Forall_cons_2; [| apply Forall_cons_2;
                                                      [| apply Forall_nil_2]]].
    + now right.
    + left. now exists (report "isu-a" 10 all_true "critical").
    + left. now exists (report "isu-b" 20 all_true "critical").
  - exists [id_uuid_row (device 3 "isu-c" "Y")].
    split; [reflexivity |].
    apply Forall_cons_2; [| apply Forall_nil_2].
    left. now exists (report "isu-c" 30 all_true "").
Defined.

Lemma published_buckets_hold_devices_by_level_witness :
  TrendCache_Get (calculateTrendScheduled_tick warmed_up) = Some snapshot_1
  /\ exists characterList,
      db_Select_characters (db warmed_up) = Ok characterList
      /\ Forall2 (fun character e =>
                    TrendResponse_Character e = Isu_Character character
                    /\ exists isuList,
                        db_Select_isu_by_character (db warmed_up) (Isu_Character character)
                        = Ok isuList
                        /\ Permutation (TrendResponse_Info e)
                             (conditions_at (answer warmed_up) "info" isuList)
                        /\ Permutation (TrendResponse_Warning e)
                             (conditions_at (answer warmed_up) "warning" isuList)
                        /\ Permutation (TrendResponse_Critical e)
                             (conditions_at (answer warmed_up) "critical" isuList))
                 characterList snapshot_1.
Proof.
  assert (Hres : TrendCache_Get (calculateTrendScheduled_tick warmed_up)
                 = Some snapshot_1) by reflexivity.
  split; [exact Hres |].
  exact (published_buckets_hold_devices_by_level warmed_up snapshot_1 Hres).
Defined.

Lemma calculateGraphDataPoint_of_valid_witness :
  calculateGraphDataPoint (batch_1 ++ batch_2)
  = Ret (Ok {| GraphDataPoint_Score := 66;
               GraphDataPoint_Percentage :=
                 {| ConditionsPercentage_Sitting := 100;
                    ConditionsPercentage_IsBroken := 33;
                    ConditionsPercentage_IsDirty := 66;
                    ConditionsPercentage_IsOverweight := 33 |} |}).
Proof.
  refine (proj1 (calculateGraphDataPoint_of_valid (batch_1 ++ batch_2) _ _ _)).
  - discriminate.
  - repeat constructor.
  - reflexivity.
Defined.

Lemma calculateGraphDataPoint_invalid_condition_witness :
  isValidConditionFormat "is_dirty=maybe" = Ret false
  /\ calculateGraphDataPoint (batch_1 ++ report "isu-a" 12 "is_dirty=maybe" "" :: batch_2)
     = Ret (Err (errors_New "invalid condition format")).
Proof.
  split; [reflexivity |].
  apply (calculateGraphDataPoint_invalid_condition batch_1
           (report "isu-a" 12 "is_dirty=maybe" "") batch_2).
  - repeat constructor.
  - reflexivity.
  - reflexivity.
Defined.

Lemma generateIsuGraphResponse_has_24_slots_witness :
  exists out,
    generateIsuGraphResponse 25 "isu-a" day_start (Ok day_rows) = Some out
    /\ (forall err, Ok day_rows = Err err ->
                    out = Ret (Err (fmt_Errorf_v "db error: %v" err)))
    /\ (forall responseList,
           out = Ret (Ok responseList) ->
           List.length responseList = 24%nat
           /\ forall (k : nat) (r : GraphResponse),
               responseList !! k = Some r ->
               GraphResponse_StartAt r = (Time_Unix day_start + 3600 * Z.of_nat k)%Z
               /\ GraphResponse_EndAt r = (GraphResponse_StartAt r + 3600)%Z).
Proof.
  apply (generateIsuGraphResponse_has_24_slots 25 "isu-a" day_start (Ok day_rows)).
  lia.
Defined.

Lemma generateIsuGraphResponse_groups_reports_by_hour_witness :
  generateIsuGraphResponse 25 "isu-a" day_start (Ok day_rows)
  = Some (Ret (Ok (hour_slot day_start day_reports <$> seq 0 24))).
Proof.
  apply (generateIsuGraphResponse_groups_reports_by_hour 25 "isu-a" day_start
           day_reports).
  - reflexivity.
  - reflexivity.
  - unfold by_Timestamp_asc, day_reports.
    repeat (apply SSorted_cons;
            [| repeat (apply Forall_cons_2; [cbn; lia |]); apply Forall_nil_2]).
    apply SSorted_nil.
  - unfold day_reports.
    repeat (apply Forall_cons_2; [unfold within_day; cbn; lia |]). apply Forall_nil_2.
  - unfold day_reports.
    repeat (apply Forall_cons_2; [reflexivity |]). apply Forall_nil_2.
  - reflexivity.
  - lia.
Defined.

End FurtherRuns.
